(* ===== verification/_CoqProject ===== *)
-Q . S2P
Prelude.v
JsValue.v
JsString.v
Cookie.v
Runtime.v
Mock.v
Service.v
Concurrency.v
Instance.v
Sdk.v
Tests.v
Contract.v
