(* ===== verification/Prelude.v ===== *)
(** * A verification development of the node SDK (andosmith/node-sdk)

    The repository (src/) is a JavaScript client library for a remote
    content-management API.  Its parts, and how they interact:

    - [src/services/service.js], class [Service]: the request dispatcher.
      The constructor checks [baseAPI] and [token] and reads the cookie
      name from [process.env.COOKIE].  [interpolate] substitutes path
      placeholders with [String.prototype.replace].  The five verb methods
      ([getRequest], [deleteRequest], [putRequest], [postRequest],
      [patchRequest]) write the default [params.successCode] INTO THE
      CALLER'S OBJECT and delegate to [request].  [request] builds the
      options of the [request] library (URI, bearer auth, optional Cookie
      and X-Auth headers, JSON body or multipart form data), issues one
      network call, and resolves with the body enriched with
      [statusCode], optionally passed through [params.responseFormatter].
    - [src/services/instance/index.js], class [Instance]: a [Service]
      built by [MixinBuilder] from five mixins.  Its base URL comes from
      the options, the environment or a per-instance default.  It has a
      second "legacy" [Service] and the merged endpoint tables of its
      modules, and provides [formatPath].
    - [src/sdk.js], class [SDK]: builds [Auth], checks the token, and
      calls [init] without awaiting it.  [init] builds [Account],
      [Instance] and [Media], binds the actions, and verifies the token.
    - the [*.test.js] files: ava tests.  [service.test.js] checks the
      constructor's errors and one GET; the settings and media tests
      run against the live API through an [auth-context] helper.

    Layout (one file per part, in dependency order):

    - [Prelude] (this file): the [result] error monad and its [let?]
      notation in [js_scope], the hint database [jsdb], the tactics
      ([js_simpl], [decide_step], [nat_bool_cases]) and the string and
      list lemmas the other files share.
    - [JsValue]: JavaScript values ([jsval], with decidable equality).
      Truthiness, [||] and [ToString].  Ordinary objects as association
      lists in creation order, enumerated in the order of
      [OrdinaryOwnPropertyKeys] (array indices first).  Property get and
      set, object spread, [for...in], and the [Realm] class that gives
      the caller's opaque functions their behaviour.
    - [JsString]: [indexOf], [replace] with a string pattern and
      [GetSubstitution], [trim] and [toLowerCase].
    - [Cookie]: [encodeURIComponent] and [cookie.serialize], as the
      dispatcher calls them; [decodeURIComponent] and [cookie.parse], as
      the server reads the header back.
    - [Runtime]: the world (the heap of caller-owned objects, the log of
      requests handed to the network, uncaught exceptions, unhandled
      rejections), promises (Fulfilled, Rejected, Pending), the
      asynchronous state monad with [let!], and the [Transport] class:
      the network, whose reply may depend on every earlier request.
    - [Mock]: a concrete realm and transports (a routing mock server, an
      authentication server, an unreachable server) for the witnesses.
    - [Service]: the class, one definition per method ([Service_new],
      [interpolate], [verb_request] and the five verbs, [build_opts] and
      [request]).  A caller's [params] object lives in the heap, so the
      aliasing of the verbs' write is modelled.
    - [Concurrency]: [request] split into its promise executor
      ([request_start]) and the callback of the [request] library
      ([request_callback]), shown to compose to [request].  The
      caller's side of spec section 5: a batch of calls whose executors
      run in program order ([launch]), then the event loop running the
      callbacks in any delivery order ([deliver], [deliver_all]).
      Event-loop states are compared up to the order of their uncaught
      exceptions ([ls_equiv]), with [Proper] instances, so that
      permutations of the delivery order rewrite under [deliver_all].
    - [Instance]: [MixinBuilder_with], the class chain, [Instance_new],
      [formatPath]; the modules' tables and mixins are the
      [InstanceModules] class.  [formatPath]'s chain of calls is
      dispatched on each receiver ([string_method], [call_method]): the
      [String.prototype] method on a string, the receiver's own method
      on any other value, a [TypeError] when there is none.
    - [Sdk]: [SDK_new], [init] (its synchronous part [init_fields] and the
      promise it returns) and the action binding.  Auth, Account, Media
      and the actions module are the [SdkServices] class.
    - [Tests]: the three tests of [service.test.js] as functions of the
      environment and the network, with ava's rules for a passing test.
    - [Contract]: the dispatcher contract of spec 4.1 ([request_matches],
      [call_outcome], [dispatcher_contract], for a base URL and a token)
      and the [Dispatcher] interface.  It holds the refinement theorem
      for [Service] ([service_dispatcher]), the domain operations of spec
      4.2 ([domain_op], spec-modelled) shown to keep the contract of any
      dispatcher that keeps it,
      runs of a service as a reflexive-transitive closure ([calls]), and
      the cookie round trip.

    What the theorems show:

    - [Service]: the envelope of [request] (with the body's [statusCode]
      overriding the transport's); transport errors passed through
      unchanged; a throwing formatter leaves the promise pending forever;
      the options sent and the only way the executor throws; the
      constructor's errors; the verbs' write of the default success code
      into a shared [params], which [request] then ignores; [interpolate]
      (first occurrence only, [$] patterns expanded).
    - [Instance]: the constructor's errors and URL precedence, the merged
      endpoint tables, method resolution through the mixins, and
      [formatPath] (on strings: slug alphabet, idempotence, length, blank
      paths; its errors; and the duck typing of a path whose own [trim]
      is called).
    - [Sdk]: the constructor's errors.  When construction succeeds, a
      failed verification (a rejection, a response of [undefined] or
      [null], a status other than 200) and an error thrown inside [init]
      are only unhandled rejections.  An SDK without [instanceZUID] has no
      [instance].  The fields form a prefix (invariant), and the actions
      are bound.
    - [Tests]: "requires API URL" always passes; "requires token"
      passes only when [ZESTY_INSTANCE_API] is set; "service constructor"
      passes exactly when the envelope's [statusCode] is 200.
    - [Concurrency]: termination, that is, [request]'s promise settles
      unless, and only unless, the formatter throws.  Any permutation of
      the delivery order gives the same promises and the same world, up
      to the order of the uncaught exceptions.  Each call of a batch
      settles as [request] alone would in the world its executor ran in.
      Once every reply is delivered, nothing is in flight and the
      requests reached the network in program order.
    - [Contract]: [Service] refines the contract: no send only when the
      cookie name or an own [hasOwnProperty] makes the code throw, and
      otherwise exactly one send of the request the descriptor describes.
      Every request of every run carries the service's token and base
      URL.  The server reads the token back from the Cookie header, and
      a cookie name with [=] is sent without error and loses it.

    Bounds, fuel and termination: no definition uses fuel.  Every
    recursion is structural on a string, a list or a value, so every
    function of the model terminates by construction.  The loops of the
    code ([for...in] in [interpolate] and [init], the mixin [reduce], the
    string scans) are folds over finite lists, and the event loop is a
    fold over a finite delivery order.  What can run forever in the
    program is a promise that never settles.  The model gives it the
    value [Pending], and [Concurrency.request_settles] says exactly when
    that happens.  Integers are [Z] (status
    codes, array lengths); no arithmetic of the code can overflow.

    Not modelled: the [request] library beyond its callback's arguments
    (the network is the [Transport] class, whose reply is fixed when the
    request is sent; the delivery order is free); timers and other
    event-loop tasks besides request callbacks; the [cookie] library beyond
    [serialize] and [parse] without options; the domain modules' code,
    which is not under src/ (only the shape spec 4.2 gives them, as
    [domain_op], and the tables [Instance] merges); the settings and media
    tests, which need the [auth-context] helper (not under src/) and the
    live API; JavaScript numbers other than integers (NaN, -0,
    fractions); code units beyond 8 bits (a Rocq [ascii] is read as a
    Latin-1 code unit, and [decodeURIComponent] of a code point above
    U+00FF is [None]); objects that override [toString], [valueOf] or
    [Symbol.toPrimitive]; [this] inside the caller's functions (a
    method the code calls on the caller's object, such as an own
    [trim], does not observe its receiver, and a regular-expression
    literal passed to one is seen with its own properties only); and
    properties inherited from
    [Object.prototype]. *)

From stdpp Require Export base list strings sets.
From Stdlib Require Export ZArith String Ascii.

Declare Scope js_scope.
Delimit Scope js_scope with js.

(** ** The error monad of synchronous JavaScript code *)

(** A synchronous computation either returns a value or throws. *)
Inductive result (E A : Type) : Type :=
| Ok (a : A)
| Exc (e : E).
Arguments Ok {E A} a.
Arguments Exc {E A} e.

Definition result_bind {E A B} (r : result E A) (k : A -> result E B) : result E B :=
  match r with
  | Ok a => k a
  | Exc e => Exc e
  end.

Notation "'let?' x ':=' c 'in' k" := (result_bind c (fun x => k))
  (at level 10, x name, c at level 100, k at level 200) : js_scope.

Open Scope js_scope.

(** ** Strings *)

Open Scope string_scope.

(** stdpp makes [String.append] opaque to [simpl]; the models here compute
    on strings, so it is made to reduce on a constructor again. *)
#[global] Arguments String.append : simpl nomatch.

(** The first [n] code units of a string, and the rest. *)
Fixpoint str_take (n : nat) (s : string) : string :=
  match n, s with
  | O, _ | _, EmptyString => EmptyString
  | S n', String c s' => String c (str_take n' s')
  end.


Fixpoint str_drop (n : nat) (s : string) : string :=
  match n, s with
  | O, _ => s
  | _, EmptyString => EmptyString
  | S n', String _ s' => str_drop n' s'
  end.


(** Membership of a code unit in a string, as a boolean test. *)
Fixpoint str_has (c : ascii) (s : string) : bool :=
  match s with
  | EmptyString => false
  | String d s' => if ascii_dec c d then true else str_has c s'
  end.


(** All code units of a string satisfy a boolean test. *)
Fixpoint str_forall (f : ascii -> bool) (s : string) : bool :=
  match s with
  | EmptyString => true
  | String c s' => f c && str_forall f s'
  end.


(** Apply a function to every code unit. *)
Fixpoint str_map (f : ascii -> ascii) (s : string) : string :=
  match s with
  | EmptyString => EmptyString
  | String c s' => String (f c) (str_map f s')
  end.

(** Replace every code unit by a string. *)
Fixpoint str_flat_map (f : ascii -> string) (s : string) : string :=
  match s with
  | EmptyString => EmptyString
  | String c s' => f c ++ str_flat_map f s'
  end.

Create HintDb jsdb.
Create Rewrite HintDb jsdb.

(** ** Tactics *)

(** Split the [result] matches and [if]s of a goal into cases. *)
Ltac js_cases :=
  repeat match goal with
  | |- context [match ?r with Ok _ => _ | Exc _ => _ end] =>
      let E := fresh "E" in destruct r eqn:E
  | |- context [if ?b then _ else _] =>
      let E := fresh "E" in destruct b eqn:E
  end.

(** Simplify with the development's rewriting database. *)
Ltac js_simpl := simpl in *; autorewrite with jsdb in *; simpl in *.

(** Case on the first [decide] of the goal. *)
Ltac decide_step := match goal with |- context [decide ?P] => destruct (decide P) end.
Tactic Notation "decide_step" "as" simple_intropattern(p) :=
  match goal with |- context [decide ?P] => destruct (decide P) as p end.

(** Case on every boolean comparison of naturals in the goal; used with
    [lia] on the code-unit ranges of the string built-ins. *)
Ltac nat_bool_cases :=
  repeat match goal with
  | |- context [Nat.leb ?a ?b] => destruct (Nat.leb_spec a b)
  | |- context [Nat.eqb ?a ?b] => destruct (Nat.eqb_spec a b)
  | |- context [Nat.ltb ?a ?b] => destruct (Nat.ltb_spec a b)
  end; cbn [andb orb negb].

(** ** Lemmas *)

Lemma result_bind_Ok {E A B} (a : A) (k : A -> result E B) :
  result_bind (Ok a) k = k a.
Proof. reflexivity. Qed.

Lemma result_bind_Exc {E A B} (e : E) (k : A -> result E B) :
  result_bind (Exc e) k = Exc e.
Proof. reflexivity. Qed.

Lemma result_bind_Ok_inv {E A B} (r : result E A) (k : A -> result E B) b :
  result_bind r k = Ok b -> exists a, r = Ok a /\ k a = Ok b.
Proof. destruct r; simpl; [eauto | discriminate]. Qed.

#[export] Hint Rewrite @result_bind_Ok @result_bind_Exc : jsdb.


Lemma str_app_nil_r (s : string) : s ++ "" = s.
Proof. induction s as [|c s IH]; simpl; [reflexivity | now rewrite IH]. Qed.

Lemma str_app_assoc (a b c : string) : a ++ (b ++ c) = (a ++ b) ++ c.
Proof. induction a as [|x a IH]; simpl; [reflexivity | now rewrite IH]. Qed.

Lemma str_length_app (a b : string) :
  String.length (a ++ b) = (String.length a + String.length b)%nat.
Proof. induction a as [|x a IH]; simpl; [reflexivity | now rewrite IH]. Qed.

Lemma str_app_inj_l (p a b : string) : p ++ a = p ++ b -> a = b.
Proof. induction p as [|x p IH]; simpl; [done | intros H; injection H; auto]. Qed.

#[export] Hint Rewrite str_app_nil_r str_length_app : jsdb.

(** [prefix] of the Standard Library, read as a decomposition. *)
Lemma prefix_iff (p s : string) : String.prefix p s = true <-> exists r, s = p ++ r.
Proof.
  revert s; induction p as [|a p IH]; intros [|b s]; simpl.
  - split; [exists ""; done | done].
  - split; [exists (String b s); done | done].
  - split; [discriminate | intros [r Hr]; discriminate].
  - destruct (ascii_dec a b) as [->|Hne].
    + rewrite IH. split; intros [r Hr]; exists r; [now subst | now injection Hr].
    + split; [discriminate | intros [r Hr]; injection Hr; congruence].
Qed.

Lemma prefix_app (p r : string) : String.prefix p (p ++ r) = true.
Proof. apply prefix_iff. eauto. Qed.

#[export] Hint Resolve prefix_app : jsdb.



Lemma str_take_drop (n : nat) (s : string) : str_take n s ++ str_drop n s = s.
Proof. revert s; induction n as [|n IH]; intros [|c s]; simpl; auto; now rewrite IH. Qed.

Lemma str_take_app (a b : string) : str_take (String.length a) (a ++ b) = a.
Proof. induction a as [|c a IH]; simpl; [by destruct b | now rewrite IH]. Qed.

Lemma str_drop_app (a b : string) : str_drop (String.length a) (a ++ b) = b.
Proof. induction a as [|c a IH]; simpl; [reflexivity | exact IH]. Qed.

Lemma str_drop_app_add (a b : string) (n : nat) :
  str_drop (String.length a + n) (a ++ b) = str_drop n b.
Proof. induction a as [|c a IH]; simpl; [reflexivity | exact IH]. Qed.

#[export] Hint Rewrite str_take_app str_drop_app str_drop_app_add : jsdb.


Lemma str_has_app (c : ascii) (a b : string) :
  str_has c (a ++ b) = str_has c a || str_has c b.
Proof.
  induction a as [|d a IH]; simpl; [reflexivity|].
  destruct (ascii_dec c d); [reflexivity | exact IH].
Qed.

#[export] Hint Rewrite str_has_app : jsdb.


Lemma str_forall_app (f : ascii -> bool) (a b : string) :
  str_forall f (a ++ b) = str_forall f a && str_forall f b.
Proof. induction a as [|c a IH]; simpl; [reflexivity | rewrite IH; apply andb_assoc]. Qed.

#[export] Hint Rewrite str_forall_app : jsdb.


Lemma str_map_length (f : ascii -> ascii) (s : string) :
  String.length (str_map f s) = String.length s.
Proof. induction s as [|c s IH]; cbn; [done | by rewrite IH]. Qed.

(** A map that fixes every code unit of [s] fixes [s]. *)
Lemma str_map_id (f : ascii -> ascii) (P : ascii -> bool) (s : string) :
  (forall c, P c = true -> f c = c) -> str_forall P s = true -> str_map f s = s.
Proof.
  intros Hf. induction s as [|c s IH]; cbn; [done|].
  intros [Hc Hs]%andb_true_iff. by rewrite Hf, IH.
Qed.

(** A map whose images satisfy [Q] produces a string of [Q] code units. *)
Lemma str_forall_map (f : ascii -> ascii) (P Q : ascii -> bool) (s : string) :
  (forall c, P c = true -> Q (f c) = true) -> str_forall P s = true ->
  str_forall Q (str_map f s) = true.
Proof.
  intros Hf. induction s as [|c s IH]; cbn; [done|].
  intros [Hc Hs]%andb_true_iff. by rewrite Hf, IH.
Qed.

Lemma str_flat_map_id (f : ascii -> string) (P : ascii -> bool) (s : string) :
  (forall c, P c = true -> f c = String c EmptyString) -> str_forall P s = true ->
  str_flat_map f s = s.
Proof.
  intros Hf. induction s as [|c s IH]; cbn; [done|].
  intros [Hc Hs]%andb_true_iff. by rewrite Hf, IH.
Qed.

Lemma str_forall_flat_map (f : ascii -> string) (P Q : ascii -> bool) (s : string) :
  (forall c, P c = true -> str_forall Q (f c) = true) -> str_forall P s = true ->
  str_forall Q (str_flat_map f s) = true.
Proof.
  intros Hf. induction s as [|c s IH]; cbn; [done|].
  intros [Hc Hs]%andb_true_iff. by rewrite str_forall_app, Hf, IH.
Qed.

Lemma str_forall_impl (P Q : ascii -> bool) (s : string) :
  (forall c, P c = true -> Q c = true) -> str_forall P s = true -> str_forall Q s = true.
Proof.
  intros H. induction s as [|c s IH]; cbn; [done|].
  intros [Hc Hs]%andb_true_iff. by rewrite H, IH.
Qed.

#[export] Hint Rewrite str_map_length : jsdb.
