(* ===== verification/JsValue.v ===== *)
(** * JavaScript values, objects and property access

    The values the SDK passes around ([params], payloads, response bodies,
    the options of the [request] library) as an inductive type, with the
    parts of the ECMAScript semantics the code relies on: truthiness (the
    [if (params.payload)] and [!baseAPI] tests), the [||] operator,
    [ToString] (template literals), ordinary objects with the property
    order of [OrdinaryOwnPropertyKeys], [GetV], object spread
    ([CopyDataProperties]) and the keys a [for...in] loop visits.  Functions
    are opaque: a [JFunction] carries an identity, and the [Realm] class
    gives each identity its behaviour and its source text. *)

From S2P Require Import Prelude.
From stdpp Require Import pretty.
Local Open Scope string_scope.
Local Open Scope js_scope.

(** ** Values *)

Inductive jsval : Type :=
| JUndefined
| JNull
| JBool (b : bool)
| JNumber (n : Z)
| JString (s : string)
| JArray (elems : list jsval)
| JObject (props : list (string * jsval))
| JFunction (id : nat).

(** An ordinary object: its own data properties in creation order. *)
Abbreviation obj := (list (string * jsval)).

(** Induction over values, with the elements of arrays and objects. *)
Section jsval_ind_deep.
Variable P : jsval -> Prop.
Hypothesis HU : P JUndefined.
Hypothesis HN : P JNull.
Hypothesis HB : forall b, P (JBool b).
Hypothesis HZ : forall n, P (JNumber n).
Hypothesis HS : forall s, P (JString s).
Hypothesis HA : forall l, Forall P l -> P (JArray l).
Hypothesis HO : forall o, Forall (fun kv => P kv.2) o -> P (JObject o).
Hypothesis HF : forall f, P (JFunction f).

Fixpoint jsval_ind_deep (v : jsval) : P v :=
  match v with
  | JUndefined => HU
  | JNull => HN
  | JBool b => HB b
  | JNumber n => HZ n
  | JString s => HS s
  | JArray l =>
      HA l ((fix go (l : list jsval) : Forall P l :=
               match l with
               | [] => Forall_nil_2 _
               | x :: l' => Forall_cons_2 _ _ _ (jsval_ind_deep x) (go l')
               end) l)
  | JObject o =>
      HO o ((fix go (o : obj) : Forall (fun kv => P kv.2) o :=
               match o with
               | [] => Forall_nil_2 _
               | kv :: o' => Forall_cons_2 _ _ _ (jsval_ind_deep kv.2) (go o')
               end) o)
  | JFunction f => HF f
  end.
End jsval_ind_deep.

Fixpoint jsval_eq_dec (x y : jsval) {struct x} : {x = y} + {x <> y}.
Proof.
  refine (match x, y with
  | JUndefined, JUndefined | JNull, JNull => left eq_refl
  | JBool a, JBool b => cast_if (decide (a = b))
  | JNumber a, JNumber b => cast_if (decide (a = b))
  | JString a, JString b => cast_if (decide (a = b))
  | JFunction a, JFunction b => cast_if (decide (a = b))
  | JArray a, JArray b => cast_if (@list_eq_dec _ jsval_eq_dec a b)
  | JObject a, JObject b =>
      cast_if (@list_eq_dec _ (fun p q =>
        match p, q with
        | (k1, v1), (k2, v2) =>
            match decide (k1 = k2), jsval_eq_dec v1 v2 with
            | left _, left _ => left _
            | _, _ => right _
            end
        end) a b)
  | _, _ => right _
  end); try congruence.
Defined.

#[export] Instance jsval_eq_decision : EqDecision jsval := jsval_eq_dec.

(** The errors JavaScript code can throw: an [Error], a [TypeError], or an
    arbitrary thrown value (such as the transport's error object, or the
    response that [SDK.init] throws). *)
Inductive js_error : Type :=
| ErrorObj (msg : string)
| TypeErrorObj (msg : string)
| Thrown (v : jsval).

#[export] Instance js_error_eq_decision : EqDecision js_error.
Proof. solve_decision. Defined.

(** ** Truthiness and [||] *)

(** [ToBoolean]: [undefined], [null], [false], [0] and [""] are falsy. *)
Definition truthy (v : jsval) : bool :=
  match v with
  | JUndefined | JNull => false
  | JBool b => b
  | JNumber n => negb (Z.eqb n 0)
  | JString s => negb (String.eqb s "")
  | JArray _ | JObject _ | JFunction _ => true
  end.

(** [a || b] evaluates to [a] when [a] is truthy, and to [b] otherwise. *)
Definition js_or (a b : jsval) : jsval := if truthy a then a else b.

(** ** Objects *)

Fixpoint obj_lookup (o : obj) (k : string) : option jsval :=
  match o with
  | [] => None
  | (k', v) :: o' => if decide (k = k') then Some v else obj_lookup o' k
  end.

(** [Object.prototype.hasOwnProperty]. *)
Definition obj_has_own (o : obj) (k : string) : bool := bool_decide (is_Some (obj_lookup o k)).

(** [o[k]] for an own data property; absent properties read [undefined]. *)
Definition obj_get (o : obj) (k : string) : jsval := default JUndefined (obj_lookup o k).

(** [[Set]] of a data property: an existing property keeps its place in
    the creation order, a new one is appended. *)
Fixpoint obj_set (o : obj) (k : string) (v : jsval) : obj :=
  match o with
  | [] => [(k, v)]
  | (k', v') :: o' => if decide (k = k') then (k, v) :: o' else (k', v') :: obj_set o' k v
  end.

Definition obj_keys (o : obj) : list string := map fst o.

(** An object is well formed when no key appears twice. *)
Definition obj_wf (o : obj) : Prop := NoDup (obj_keys o).

(** [CanonicalNumericIndexString] restricted to array indices: the
    canonical decimal spelling of a number below [2^32 - 1]. *)
Fixpoint digits_value (s : string) (acc : N) : option N :=
  match s with
  | EmptyString => Some acc
  | String c s' =>
      match Ascii.is_nat c with
      | Some d => digits_value s' (acc * 10 + N.of_nat d)%N
      | None => None
      end
  end.

Definition array_index (k : string) : option N :=
  match k with
  | EmptyString => None
  | _ =>
      match digits_value k 0 with
      | Some n => if String.eqb (pretty n) k && (n <? 4294967295)%N then Some n else None
      | None => None
      end
  end.

(** The property key of the [i]-th element of an array or a string. *)
Definition index_key (i : nat) : string := pretty (N.of_nat i).

Fixpoint insert_index (x : N * string) (l : list (N * string)) : list (N * string) :=
  match l with
  | [] => [x]
  | y :: l' => if (x.1 <? y.1)%N then x :: y :: l' else y :: insert_index x l'
  end.

Definition sort_indices (l : list (N * string)) : list (N * string) :=
  foldr insert_index [] l.

(** [OrdinaryOwnPropertyKeys]: the array-index keys in ascending numeric
    order, then the other string keys in creation order. *)
Definition own_keys (o : obj) : list string :=
  map snd (sort_indices (omap (fun k => (fun n => (n, k)) <$> array_index k) (obj_keys o)))
  ++ filter (fun k => ~ is_Some (array_index k)) (obj_keys o).

(** ** Property access on any value *)

Fixpoint str_at (i : nat) (s : string) : option ascii :=
  match s, i with
  | EmptyString, _ => None
  | String c _, O => Some c
  | String _ s', S i' => str_at i' s'
  end.

(** [GetV(v, k)] for the values the code reads properties of; the methods
    of the built-in prototypes are not modelled and read [undefined]. *)
Definition get_prop (v : jsval) (k : string) : jsval :=
  match v with
  | JObject o => obj_get o k
  | JArray l =>
      if String.eqb k "length" then JNumber (Z.of_nat (length l)) else
      match array_index k with
      | Some n => default JUndefined (l !! N.to_nat n)
      | None => JUndefined
      end
  | JString s =>
      if String.eqb k "length" then JNumber (Z.of_nat (String.length s)) else
      match array_index k with
      | Some n => default JUndefined ((fun c => JString (String c EmptyString)) <$> str_at (N.to_nat n) s)
      | None => JUndefined
      end
  | _ => JUndefined
  end.

(** [v.k] throws a [TypeError] on [undefined] and [null]. *)
Definition get_prop_checked (v : jsval) (k : string) : result js_error jsval :=
  match v with
  | JUndefined | JNull => Exc (TypeErrorObj ("Cannot read properties of undefined or null (reading '" ++ k ++ "')"))
  | _ => Ok (get_prop v k)
  end.

(** The own enumerable string keys of a value, in enumeration order: what
    [for...in] visits (no enumerable property is inherited) and what
    spread copies.  Primitives other than strings have none. *)
Definition enum_keys (v : jsval) : list string :=
  match v with
  | JObject o => own_keys o
  | JArray l => map index_key (seq 0 (length l))
  | JString s => map index_key (seq 0 (String.length s))
  | _ => []
  end.

Definition own_entries (v : jsval) : list (string * jsval) :=
  map (fun k => (k, get_prop v k)) (enum_keys v).

(** [CopyDataProperties(target, source)]: [{...target, ...source}]. *)
Definition copy_data_properties (target : obj) (source : jsval) : obj :=
  fold_left (fun t kv => obj_set t kv.1 kv.2) (own_entries source) target.

(** ** Functions and [ToString] *)

(** The behaviour of the functions a program's caller supplies (a
    [responseFormatter], a replacer passed to [interpolate]): calling
    function [id] with arguments returns or throws; [realm_source] is the
    text [Function.prototype.toString] prints. *)
Class Realm := {
  realm_call : nat -> list jsval -> result js_error jsval;
  realm_source : nat -> string
}.

Section with_realm.
Context `{Realm}.

(** [f(args)]: calling a value that is not a function is a [TypeError]. *)
Definition js_call (f : jsval) (args : list jsval) : result js_error jsval :=
  match f with
  | JFunction id => realm_call id args
  | _ => Exc (TypeErrorObj "is not a function")
  end.

(** [ToString], with [Array.prototype.join] for arrays ([undefined] and
    [null] elements print as the empty string). *)
Fixpoint to_string (v : jsval) : string :=
  match v with
  | JUndefined => "undefined"
  | JNull => "null"
  | JBool b => if b then "true" else "false"
  | JNumber n => pretty n
  | JString s => s
  | JArray l =>
      (fix join (l : list jsval) : string :=
         match l with
         | [] => ""
         | [x] => match x with JUndefined | JNull => "" | _ => to_string x end
         | x :: l' => match x with JUndefined | JNull => "" | _ => to_string x end ++ "," ++ join l'
         end) l
  | JObject _ => "[object Object]"
  | JFunction id => realm_source id
  end.
End with_realm.

(** ** Lemmas on truthiness *)

Lemma js_or_truthy a b : truthy a = true -> js_or a b = a.
Proof. unfold js_or. now intros ->. Qed.

Lemma js_or_falsy a b : truthy a = false -> js_or a b = b.
Proof. unfold js_or. now intros ->. Qed.

Lemma truthy_string (s : string) : truthy (JString s) = true <-> s <> "".
Proof.
  simpl. destruct (String.eqb_spec s "") as [->|Hne]; simpl; split; congruence.
Qed.

#[export] Hint Rewrite js_or_truthy js_or_falsy using reflexivity : jsdb.

(** ** Lemmas on objects *)

Lemma obj_lookup_set_eq (o : obj) k v : obj_lookup (obj_set o k v) k = Some v.
Proof.
  induction o as [|[k' v'] o IH]; cbn [obj_set obj_lookup];
    repeat (decide_step; cbn [obj_lookup]); congruence.
Qed.

Lemma obj_lookup_set_ne (o : obj) k k' v :
  k <> k' -> obj_lookup (obj_set o k v) k' = obj_lookup o k'.
Proof.
  intros Hne. induction o as [|[k0 v0] o IH]; cbn [obj_set obj_lookup];
    repeat (decide_step; cbn [obj_lookup]); congruence.
Qed.

Lemma obj_get_set_eq (o : obj) k v : obj_get (obj_set o k v) k = v.
Proof. unfold obj_get. by rewrite obj_lookup_set_eq. Qed.

Lemma obj_get_set_ne (o : obj) k k' v : k <> k' -> obj_get (obj_set o k v) k' = obj_get o k'.
Proof. intros. unfold obj_get. by rewrite obj_lookup_set_ne. Qed.

Lemma obj_has_own_set (o : obj) k k' v :
  obj_has_own (obj_set o k v) k' = (bool_decide (k = k') || obj_has_own o k').
Proof.
  unfold obj_has_own. destruct (decide (k = k')) as [->|Hne].
  - rewrite obj_lookup_set_eq, (bool_decide_eq_true_2 (k' = k')) by done.
    apply bool_decide_eq_true_2. eauto.
  - rewrite obj_lookup_set_ne by done. rewrite (bool_decide_eq_false_2 (k = k')); auto.
Qed.

#[export] Hint Rewrite obj_lookup_set_eq obj_get_set_eq : jsdb.
#[export] Hint Rewrite obj_lookup_set_ne obj_get_set_ne using congruence : jsdb.

Lemma obj_keys_set (o : obj) k v :
  obj_keys (obj_set o k v) = if decide (k ∈ obj_keys o) then obj_keys o else (obj_keys o ++ [k])%list.
Proof.
  induction o as [|[k' v'] o IH]; [done|].
  cbn [obj_set]. decide_step as [->|Hne].
  - rewrite decide_True; [done | left].
  - cbn [obj_keys map]. fold (obj_keys o). fold (obj_keys (obj_set o k v)).
    rewrite IH. repeat decide_step; set_solver.
Qed.

Lemma obj_lookup_Some_keys (o : obj) k v : obj_lookup o k = Some v -> k ∈ obj_keys o.
Proof.
  induction o as [|[k' v'] o IH]; simpl; [discriminate|].
  case_decide; subst; [left | right; auto].
Qed.

(** Setting a property keeps an object well formed. *)
Lemma obj_set_wf (o : obj) k v : obj_wf o -> obj_wf (obj_set o k v).
Proof.
  unfold obj_wf. rewrite obj_keys_set. case_decide; [done|].
  intros Hnd. apply NoDup_app. split_and!; [done | | apply NoDup_singleton].
  set_solver.
Qed.

#[export] Hint Resolve obj_set_wf : jsdb.

Lemma insert_index_perm x (l : list (N * string)) : insert_index x l ≡ₚ x :: l.
Proof.
  induction l as [|y l IH]; simpl; [done|].
  destruct (x.1 <? y.1)%N; [done|].
  rewrite IH. constructor.
Qed.

Lemma sort_indices_perm (l : list (N * string)) : sort_indices l ≡ₚ l.
Proof.
  induction l as [|x l IH]; simpl; [done|].
  by rewrite insert_index_perm, IH.
Qed.

Lemma map_snd_index_pairs (ks : list string) :
  map snd (omap (fun k => (fun n => (n, k)) <$> array_index k) ks)
  = filter (fun k => is_Some (array_index k)) ks.
Proof.
  induction ks as [|k ks IH]; simpl; [done|].
  destruct (array_index k) eqn:E; simpl; rewrite filter_cons, E.
  - rewrite decide_True by eauto. by f_equal.
  - rewrite decide_False by (intros [? ?]; discriminate). done.
Qed.

(** The enumeration order is a reordering of the keys of the object. *)
Lemma own_keys_perm (o : obj) : own_keys o ≡ₚ obj_keys o.
Proof.
  unfold own_keys.
  rewrite (sort_indices_perm _), map_snd_index_pairs.
  apply filter_app_complement.
Qed.

Lemma own_keys_wf (o : obj) : obj_wf o -> NoDup (own_keys o).
Proof. unfold obj_wf. intros. by rewrite own_keys_perm. Qed.

Lemma elem_of_own_keys (o : obj) k : k ∈ own_keys o <-> k ∈ obj_keys o.
Proof. apply elem_of_Permutation_proper, own_keys_perm. Qed.

(** ** Object spread *)

Lemma lookup_fold_set (ks : list string) (f : string -> jsval) (t : obj) k :
  obj_lookup (fold_left (fun t kv => obj_set t kv.1 kv.2) (map (fun k => (k, f k)) ks) t) k
  = if decide (k ∈ ks) then Some (f k) else obj_lookup t k.
Proof.
  revert t; induction ks as [|k0 ks IH]; intros t; cbn [fold_left map];
    [decide_step; set_solver|].
  rewrite IH. destruct (decide (k0 = k)) as [->|Hne].
  - rewrite obj_lookup_set_eq. by repeat decide_step; set_solver.
  - rewrite obj_lookup_set_ne by done. repeat decide_step; set_solver.
Qed.

(** After [{...t, ...src}], a key reads from [src] when [src] has it as an
    own enumerable property, and from [t] otherwise. *)
Lemma lookup_copy_data_properties (t : obj) (src : jsval) k :
  obj_lookup (copy_data_properties t src) k
  = if decide (k ∈ enum_keys src) then Some (get_prop src k) else obj_lookup t k.
Proof. apply lookup_fold_set. Qed.

Lemma get_copy_data_properties (t : obj) (src : jsval) k :
  obj_get (copy_data_properties t src) k
  = if decide (k ∈ enum_keys src) then get_prop src k else obj_get t k.
Proof. unfold obj_get. rewrite lookup_copy_data_properties. by case_decide. Qed.

Lemma obj_lookup_keys (o : obj) k : is_Some (obj_lookup o k) <-> k ∈ obj_keys o.
Proof.
  induction o as [|[k' v'] o IH].
  - cbn. split; [intros [? ?]; discriminate | set_solver].
  - cbn [obj_lookup obj_keys map]. fold (obj_keys o).
    decide_step as [->|Hne]; [split; [left | eauto]|]. rewrite IH. set_solver.
Qed.

(** A spread copy of an object reads as the object. *)
Lemma lookup_spread_object (o : obj) k :
  obj_lookup (copy_data_properties [] (JObject o)) k = obj_lookup o k.
Proof.
  rewrite lookup_copy_data_properties. cbn [enum_keys get_prop]. unfold obj_get.
  decide_step as [Hin|Hin].
  - apply elem_of_own_keys, obj_lookup_keys in Hin as [v Hv]. by rewrite Hv.
  - destruct (obj_lookup o k) eqn:E; [|done]. exfalso.
    apply Hin, elem_of_own_keys, obj_lookup_keys. eauto.
Qed.

Lemma get_spread_object (o : obj) k :
  obj_get (copy_data_properties [] (JObject o)) k = obj_get o k.
Proof. unfold obj_get. by rewrite lookup_spread_object. Qed.

#[export] Hint Rewrite lookup_spread_object get_spread_object : jsdb.

(** Spread keeps the keys of an object unique, whatever the source. *)
Lemma copy_data_properties_wf (t : obj) (src : jsval) :
  obj_wf t -> obj_wf (copy_data_properties t src).
Proof.
  unfold copy_data_properties. revert t. generalize (own_entries src) as es.
  induction es as [|[k v] es IH]; intros t Ht; cbn [fold_left]; [done|]. auto with jsdb.
Qed.

Lemma obj_wf_nil : obj_wf [].
Proof. constructor. Qed.

#[export] Hint Resolve copy_data_properties_wf obj_wf_nil : jsdb.
