(* ===== verification/JsString.v ===== *)
(** * The string built-ins the SDK calls

    [String.prototype.indexOf] (as [StringIndexOf] from position 0),
    [String.prototype.replace] with a string pattern, which replaces the
    FIRST occurrence only and expands the [$] patterns of the replacement
    ([GetSubstitution]) or calls a replacer function,
    [String.prototype.trim] and [String.prototype.toLowerCase].  A string
    is a sequence of 8-bit code units, read as Latin-1. *)

From S2P Require Import Prelude JsValue.
Local Open Scope string_scope.
Local Open Scope js_scope.

(** ** [indexOf] *)

(** [StringIndexOf(s, pat, 0)]: the first position at which [pat] occurs. *)
Fixpoint index_of (pat s : string) : option nat :=
  if String.prefix pat s then Some 0 else
  match s with
  | EmptyString => None
  | String _ s' => S <$> index_of pat s'
  end.

(** ** [replace] with a string pattern *)

(** [GetSubstitution] for a string pattern (no capture groups):
    [$$] is [$], [$&] the match, [$`] what precedes it, [$'] what follows
    it; any other [$] (including [$1] and [$<]) is kept literally. *)
Fixpoint get_substitution (matched pre post templ : string) : string :=
  match templ with
  | EmptyString => EmptyString
  | String c r =>
      if ascii_dec c "$" then
        match r with
        | String d r' =>
            if ascii_dec d "$" then String "$" (get_substitution matched pre post r')
            else if ascii_dec d "&" then matched ++ get_substitution matched pre post r'
            else if ascii_dec d "`" then pre ++ get_substitution matched pre post r'
            else if ascii_dec d "'" then post ++ get_substitution matched pre post r'
            else String c (get_substitution matched pre post r)
        | EmptyString => String c EmptyString
        end
      else String c (get_substitution matched pre post r)
  end.

(** [s.replace(pat, templ)] for a replacement string [templ]. *)
Definition replace_string (s pat templ : string) : string :=
  match index_of pat s with
  | None => s
  | Some p =>
      let pre := str_take p s in
      let post := str_drop (p + String.length pat) s in
      pre ++ get_substitution pat pre post templ ++ post
  end.

Section with_realm.
Context `{Realm}.

(** [s.replace(pat, rv)]: a function [rv] is called with the match, its
    position and [s] (only when there is a match); any other [rv] is
    converted with [ToString] first. *)
Definition js_replace (s pat : string) (rv : jsval) : result js_error string :=
  match rv with
  | JFunction _ =>
      match index_of pat s with
      | None => Ok s
      | Some p =>
          let? r := js_call rv [JString pat; JNumber (Z.of_nat p); JString s] in
          Ok (str_take p s ++ to_string r ++ str_drop (p + String.length pat) s)
      end
  | _ => Ok (replace_string s pat (to_string rv))
  end.
End with_realm.

(** ** [trim] and [toLowerCase] *)

(** WhiteSpace and LineTerminator code units below 256: TAB, LF, VT, FF,
    CR, SPACE and NO-BREAK SPACE. *)
Definition js_whitespace (c : ascii) : bool :=
  let n := nat_of_ascii c in
  Nat.eqb n 9 || Nat.eqb n 10 || Nat.eqb n 11 || Nat.eqb n 12 || Nat.eqb n 13
  || Nat.eqb n 32 || Nat.eqb n 160.

Fixpoint trim_start (s : string) : string :=
  match s with
  | EmptyString => EmptyString
  | String c s' => if js_whitespace c then trim_start s' else s
  end.

(** Remove the trailing whitespace: a code unit is kept when it is not
    whitespace or when something other than whitespace follows it. *)
Fixpoint trim_end (s : string) : string :=
  match s with
  | EmptyString => EmptyString
  | String c s' =>
      match trim_end s' with
      | EmptyString => if js_whitespace c then EmptyString else String c EmptyString
      | t => String c t
      end
  end.

(** [s.trim()]. *)
Definition trim (s : string) : string := trim_end (trim_start s).

(** The Unicode lower-case mapping of the Latin-1 range: [A-Z] and the
    accented capitals U+00C0..U+00DE except U+00D7 move up by 32. *)
Definition lower_char (c : ascii) : ascii :=
  let n := nat_of_ascii c in
  if (Nat.leb 65 n && Nat.leb n 90) || (Nat.leb 192 n && Nat.leb n 222 && negb (Nat.eqb n 215))
  then ascii_of_nat (n + 32) else c.

(** [s.toLowerCase()]. *)
Definition to_lower (s : string) : string := str_map lower_char s.

(** ** Lemmas *)

Lemma prefix_nil (s : string) : String.prefix "" s = true.
Proof. by destruct s. Qed.

Lemma index_of_eq (pat s : string) :
  index_of pat s =
  if String.prefix pat s then Some 0 else
  match s with EmptyString => None | String _ s' => S <$> index_of pat s' end.
Proof. by destruct s. Qed.

(** [indexOf] finds the first occurrence. *)
Lemma index_of_Some (pat s : string) (n : nat) :
  index_of pat s = Some n <->
  (exists pre post, s = pre ++ pat ++ post /\ String.length pre = n) /\
  (forall pre post, s = pre ++ pat ++ post -> n <= String.length pre).
Proof.
  revert n; induction s as [|c s IH]; intros n; rewrite index_of_eq.
  - destruct (String.prefix pat "") eqn:Hp.
    + apply prefix_iff in Hp as [r Hr]. split.
      * intros [= Hn]; subst n. split; [exists "", r; done | lia].
      * intros [[pre [post [Hs Hl]]] _]. destruct pre; [|discriminate]. now subst.
    + split; [discriminate|]. intros [[pre [post [Hs _]]] _].
      destruct pre as [|? ?]; [|discriminate].
      destruct pat; simpl in *; discriminate.
  - destruct (String.prefix pat (String c s)) eqn:Hp.
    + apply prefix_iff in Hp as [r Hr]. split.
      * intros [= Hn]; subst n. split; [exists "", r; done | lia].
      * intros [_ Hmin]. f_equal. specialize (Hmin "" r Hr). simpl in Hmin. lia.
    + assert (Hne : forall post, String c s <> pat ++ post).
      { intros post Heq. rewrite Heq, prefix_app in Hp. discriminate. }
      split.
      * destruct (index_of pat s) as [m|] eqn:Hm; simpl; [|discriminate].
        intros [= Hn]; subst n. destruct (proj1 (IH m) eq_refl) as [[pre [post [Hs Hl]]] Hmin].
        split; [exists (String c pre), post; simpl; split; congruence|].
        intros [|c' pre'] post' Heq; [by destruct (Hne post')|].
        simpl in *. injection Heq as -> Heq. specialize (Hmin _ _ Heq). lia.
      * intros [[[|c' pre] [post [Hs Hl]]] Hmin]; [by destruct (Hne post)|].
        simpl in Hs, Hl. injection Hs as Hc Hs. subst c' n.
        rewrite (proj2 (IH (String.length pre))); [done|].
        split; [eauto|]. intros pre' post' Heq.
        specialize (Hmin (String c pre') post'). simpl in Hmin.
        rewrite Heq in Hmin. specialize (Hmin eq_refl). lia.
Qed.

Lemma index_of_None (pat s : string) :
  index_of pat s = None <-> forall pre post, s <> pre ++ pat ++ post.
Proof.
  induction s as [|c s IH]; rewrite index_of_eq;
    destruct (String.prefix pat _) eqn:Hp.
  1, 3: split; [discriminate|]; intros H; apply prefix_iff in Hp as [r Hr];
        by destruct (H "" r).
  - split; [|done]. intros _ [|? ?] post Heq; [|discriminate].
    destruct pat; simpl in *; discriminate.
  - rewrite fmap_None, IH. split.
    + intros H [|c' pre] post Heq; simpl in Heq.
      * rewrite Heq, prefix_app in Hp. discriminate.
      * injection Heq as -> Heq. by apply (H pre post).
    + intros H pre post Heq. apply (H (String c pre) post). simpl. by rewrite Heq.
Qed.

(** A replacement template without [$] is inserted literally. *)
Lemma get_substitution_literal (m pre post t : string) :
  str_has "$" t = false -> get_substitution m pre post t = t.
Proof.
  induction t as [|c t IH]; [done|]. cbn [str_has get_substitution].
  destruct (ascii_dec "$" c) as [<-|Hc]; [discriminate|].
  intros Ht. destruct (ascii_dec c "$"); [congruence|]. by rewrite IH.
Qed.

(** [replace] leaves a string without the pattern unchanged. *)
Lemma replace_string_absent (s pat t : string) :
  (forall pre post, s <> pre ++ pat ++ post) -> replace_string s pat t = s.
Proof. intros H. unfold replace_string. by rewrite (proj2 (index_of_None pat s) H). Qed.

(** [replace] substitutes the first occurrence of the pattern, and only it. *)
Lemma replace_string_first (pre pat post t : string) :
  (forall pre' post', pre ++ pat ++ post = pre' ++ pat ++ post' ->
     String.length pre <= String.length pre') ->
  replace_string (pre ++ pat ++ post) pat t = pre ++ get_substitution pat pre post t ++ post.
Proof.
  intros Hmin. unfold replace_string.
  rewrite (proj2 (index_of_Some pat _ (String.length pre))) by (split; eauto).
  by rewrite str_take_app, str_drop_app_add, str_drop_app.
Qed.

Lemma js_whitespace_trim_start (s : string) :
  match trim_start s with
  | String c _ => js_whitespace c = false
  | EmptyString => True
  end.
Proof. induction s as [|c s IH]; simpl; [done|]. destruct (js_whitespace c) eqn:E; [exact IH | exact E]. Qed.

Lemma trim_start_idem (s : string) : trim_start (trim_start s) = trim_start s.
Proof.
  pose proof (js_whitespace_trim_start s) as H.
  destruct (trim_start s) as [|c r]; simpl; [done|]. by rewrite H.
Qed.

(** A string without whitespace is its own [trim]. *)
Lemma trim_start_nows (s : string) :
  str_forall (fun c => negb (js_whitespace c)) s = true -> trim_start s = s.
Proof. destruct s as [|c s]; cbn; [done|]. by destruct (js_whitespace c). Qed.

Lemma trim_end_nows (s : string) :
  str_forall (fun c => negb (js_whitespace c)) s = true -> trim_end s = s.
Proof.
  induction s as [|c s IH]; cbn; [done|].
  destruct (js_whitespace c); [discriminate|]. cbn. intros Hs. rewrite IH by done.
  by destruct s.
Qed.

Lemma trim_nows (s : string) :
  str_forall (fun c => negb (js_whitespace c)) s = true -> trim s = s.
Proof. intros Hs. unfold trim. by rewrite trim_start_nows, trim_end_nows. Qed.

Lemma trim_end_length (s : string) : String.length (trim_end s) <= String.length s.
Proof.
  induction s as [|c s IH]; cbn; [lia|].
  destruct (trim_end s) eqn:E; cbn in *; [destruct (js_whitespace c); cbn|]; lia.
Qed.

Section with_realm_lemmas.
Context `{Realm}.

(** Whatever the replacement, [replace] with an absent pattern returns
    the string unchanged (a replacer function is not called). *)
Lemma js_replace_absent (s pat : string) (rv : jsval) :
  (forall pre post, s <> pre ++ pat ++ post) -> js_replace s pat rv = Ok s.
Proof.
  intros Habs. unfold js_replace.
  destruct rv; try (f_equal; by apply replace_string_absent).
  by rewrite (proj2 (index_of_None pat s) Habs).
Qed.

(** A non-function replacement goes through [ToString] and
    [GetSubstitution] at the first occurrence. *)
Lemma js_replace_first (pre pat post : string) (rv : jsval) :
  (forall id, rv <> JFunction id) ->
  (forall pre' post', pre ++ pat ++ post = pre' ++ pat ++ post' ->
     String.length pre <= String.length pre') ->
  js_replace (pre ++ pat ++ post) pat rv
  = Ok (pre ++ get_substitution pat pre post (to_string rv) ++ post).
Proof.
  intros Hfun Hmin. unfold js_replace.
  destruct rv; try (f_equal; by apply replace_string_first).
  by destruct (Hfun id).
Qed.
End with_realm_lemmas.
