(* ===== verification/Cookie.v ===== *)
(** * [encodeURIComponent] and the [cookie] library's [serialize]

    [Service.request] builds its Cookie header with
    [cookie.serialize(this.cookieName, this.token)].  The [cookie] package
    (0.4 series, the one of the [request] era) checks the name against
    [fieldContentRegExp = /^[\u0009 -~\u0080-ÿ]+$/], encodes
    the value with [encodeURIComponent], checks the encoded value against
    the same expression and returns [name=value]; a failed check throws a
    [TypeError].  [encodeURIComponent] keeps the unreserved characters and
    writes every other code unit as the percent-escaped bytes of its UTF-8
    encoding. *)

From S2P Require Import Prelude JsValue JsString.
Local Open Scope string_scope.
Local Open Scope js_scope.

(** ** [encodeURIComponent] *)

Definition is_alnum (c : ascii) : bool :=
  let n := nat_of_ascii c in
  (Nat.leb 48 n && Nat.leb n 57) || (Nat.leb 65 n && Nat.leb n 90) || (Nat.leb 97 n && Nat.leb n 122).

(** The characters [encodeURIComponent] leaves as they are:
    [A-Z a-z 0-9 - _ . ! ~ * ' ( )]. *)
Definition uri_unreserved (c : ascii) : bool :=
  is_alnum c || str_has c "-_.!~*'()".

Definition hex_digit (n : nat) : ascii :=
  if Nat.ltb n 10 then ascii_of_nat (48 + n) else ascii_of_nat (55 + n).

(** One byte as [%XY], upper-case hexadecimal. *)
Definition percent_byte (n : nat) : string :=
  String "%" (String (hex_digit (n / 16)) (String (hex_digit (n mod 16)) EmptyString)).

(** A code unit below 128 is one UTF-8 byte; U+0080..U+00FF are two,
    [110xxxxx 10xxxxxx]. *)
Definition encode_char (c : ascii) : string :=
  let n := nat_of_ascii c in
  if uri_unreserved c then String c EmptyString
  else if Nat.ltb n 128 then percent_byte n
  else percent_byte (192 + n / 64) ++ percent_byte (128 + n mod 64).

Fixpoint encode_uri_component (s : string) : string :=
  match s with
  | EmptyString => EmptyString
  | String c s' => encode_char c ++ encode_uri_component s'
  end.

(** ** [cookie.serialize] *)

(** A character of [fieldContentRegExp]: TAB, [0x20-0x7e], [0x80-0xff]. *)
Definition field_content_char (c : ascii) : bool :=
  let n := nat_of_ascii c in
  Nat.eqb n 9 || (Nat.leb 32 n && Nat.leb n 126) || Nat.leb 128 n.

(** [fieldContentRegExp.test(s)]: non-empty, every character allowed. *)
Definition field_content (s : string) : bool :=
  negb (String.eqb s "") && str_forall field_content_char s.

Section with_realm.
Context `{Realm}.

(** [cookie.serialize(name, val)] with no options. *)
Definition cookie_serialize (name val : jsval) : result js_error string :=
  let n := to_string name in
  if negb (field_content n) then Exc (TypeErrorObj "argument name is invalid") else
  let value := encode_uri_component (to_string val) in
  if negb (String.eqb value "") && negb (field_content value)
  then Exc (TypeErrorObj "argument val is invalid")
  else Ok (n ++ "=" ++ value).
End with_realm.

(** ** [decodeURIComponent]

    The inverse the server applies: every [%XY] escape is a byte of a
    UTF-8 sequence.  A byte below 128 is a code unit; [C2] or [C3]
    followed by an escaped continuation byte [80-BF] is a code unit of
    U+0080..U+00FF.  Any other escape, a truncated one, or a sequence of a
    code point above U+00FF is [None]: a [URIError] in JavaScript, or a
    code unit this development does not represent. *)

Definition hex_value (c : ascii) : option nat :=
  let n := nat_of_ascii c in
  if Nat.leb 48 n && Nat.leb n 57 then Some (n - 48)
  else if Nat.leb 65 n && Nat.leb n 70 then Some (n - 55)
  else if Nat.leb 97 n && Nat.leb n 102 then Some (n - 87)
  else None.

Definition hex_pair (h1 h2 : ascii) : option nat :=
  match hex_value h1, hex_value h2 with
  | Some a, Some b => Some (16 * a + b)
  | _, _ => None
  end.

Fixpoint decode_uri_component (s : string) : option string :=
  match s with
  | EmptyString => Some EmptyString
  | String c rest =>
      if Ascii.eqb c "%" then
        match rest with
        | String h1 (String h2 rest1) =>
            match hex_pair h1 h2 with
            | None => None
            | Some b1 =>
                if Nat.ltb b1 128 then String (ascii_of_nat b1) <$> decode_uri_component rest1
                else if Nat.leb 194 b1 && Nat.leb b1 195 then
                  match rest1 with
                  | String p (String h3 (String h4 rest2)) =>
                      if Ascii.eqb p "%" then
                        match hex_pair h3 h4 with
                        | Some b2 =>
                            if Nat.leb 128 b2 && Nat.ltb b2 192
                            then String (ascii_of_nat ((b1 - 192) * 64 + (b2 - 128)))
                                   <$> decode_uri_component rest2
                            else None
                        | None => None
                        end
                      else None
                  | _ => None
                  end
                else None
            end
        | _ => None
        end
      else String c <$> decode_uri_component rest
  end.

(** ** [cookie.parse] (0.4 series), the server's reading of the header

    [str.split(/; */)], then for each piece [key=value]: the key and the
    value are trimmed, a value in double quotes is unquoted, the first
    assignment of a key wins, and the value is decoded with
    [decodeURIComponent], kept raw when decoding throws.  Keys naming a
    member of [Object.prototype] (which [obj[key]] would find) are not
    modelled. *)

(** [str.split(/; */)]: a [;] and the spaces right after it separate two
    pieces; [cur] is the piece being read, [skip] says a [;] was just
    read. *)
Fixpoint split_pairs (s : string) (skip : bool) (cur : string) : list string :=
  match s with
  | EmptyString => [cur]
  | String c r =>
      if Ascii.eqb c ";" then cur :: split_pairs r true ""
      else if skip && Ascii.eqb c " " then split_pairs r true cur
      else split_pairs r false (cur ++ String c "")
  end.

(** [if (val[0] is a double quote) val = val.slice(1, -1)]. *)
Definition unquote (val : string) : string :=
  match val with
  | String c _ =>
      if Ascii.eqb c (ascii_of_nat 34) then str_take (String.length val - 2) (str_drop 1 val) else val
  | EmptyString => val
  end.

(** [tryDecode(str, decode)]. *)
Definition try_decode (val : string) : string :=
  match decode_uri_component val with Some d => d | None => val end.

(** One iteration of the loop over the pieces. *)
Definition parse_pair (o : obj) (pair : string) : obj :=
  match index_of "=" pair with
  | None => o
  | Some i =>
      let key := trim (str_take i pair) in
      let val := unquote (trim (str_drop (S i) pair)) in
      match obj_lookup o key with
      | None | Some JUndefined | Some JNull => obj_set o key (JString (try_decode val))
      | Some _ => o
      end
  end.

Definition cookie_parse (str : string) : obj :=
  fold_left parse_pair (split_pairs str false "") [].

(** ** Lemmas *)

Lemma hex_digit_field (n : nat) : n < 16 -> field_content_char (hex_digit n) = true.
Proof.
  intros Hn. unfold hex_digit, field_content_char.
  do 16 (destruct n as [|n]; [reflexivity|]). lia.
Qed.

Lemma percent_byte_field (n : nat) : n < 256 -> str_forall field_content_char (percent_byte n) = true.
Proof.
  intros Hn. unfold percent_byte. cbn [str_forall].
  rewrite !hex_digit_field; [reflexivity | |].
  - apply Nat.mod_upper_bound. lia.
  - apply Nat.Div0.div_lt_upper_bound. lia.
Qed.

Lemma unreserved_field (c : ascii) : uri_unreserved c = true -> field_content_char c = true.
Proof.
  unfold uri_unreserved, is_alnum, field_content_char. intros Hc.
  apply orb_true_iff in Hc as [Hc|Hc].
  - repeat (apply orb_true_iff in Hc as [Hc|Hc]); apply andb_true_iff in Hc as [H1 H2];
      apply Nat.leb_le in H1, H2; apply orb_true_iff; left; apply orb_true_iff; right;
      apply andb_true_iff; split; apply Nat.leb_le; lia.
  - cbn [str_has] in Hc. repeat (destruct (ascii_dec c _) as [->|_]; [reflexivity|]). discriminate.
Qed.

(** Every code unit [encodeURIComponent] produces passes the cookie
    library's value check. *)
Lemma encode_uri_component_field (s : string) :
  str_forall field_content_char (encode_uri_component s) = true.
Proof.
  induction s as [|c s IH]; [reflexivity|]. cbn [encode_uri_component].
  rewrite str_forall_app, IH, andb_true_r. unfold encode_char.
  pose proof (nat_ascii_bounded c) as Hb.
  destruct (uri_unreserved c) eqn:Hu; [cbn; by rewrite unreserved_field|].
  destruct (Nat.ltb_spec (nat_of_ascii c) 128); [apply percent_byte_field; lia|].
  rewrite str_forall_app, !percent_byte_field; [done | |].
  - pose proof (Nat.mod_upper_bound (nat_of_ascii c) 64). lia.
  - assert (nat_of_ascii c / 64 < 4) by (apply Nat.Div0.div_lt_upper_bound; lia). lia.
Qed.

Lemma hex_value_digit (n : nat) : n < 16 -> hex_value (hex_digit n) = Some n.
Proof. intros Hn. do 16 (destruct n as [|n]; [reflexivity|]). lia. Qed.

Lemma hex_pair_byte (n : nat) :
  n < 256 -> hex_pair (hex_digit (n / 16)) (hex_digit (n mod 16)) = Some n.
Proof.
  intros Hn. unfold hex_pair.
  rewrite !hex_value_digit by (apply Nat.mod_upper_bound || apply Nat.Div0.div_lt_upper_bound; lia).
  f_equal. pose proof (Nat.div_mod_eq n 16). lia.
Qed.

Lemma decode_percent_byte (n : nat) (t : string) :
  n < 128 -> decode_uri_component (percent_byte n ++ t) = String (ascii_of_nat n) <$> decode_uri_component t.
Proof.
  intros Hn. unfold percent_byte. cbn [String.append decode_uri_component Ascii.eqb Bool.eqb].
  rewrite hex_pair_byte by lia. by destruct (Nat.ltb_spec n 128); [|lia].
Qed.

Lemma decode_two_bytes (n : nat) (t : string) :
  128 <= n < 256 ->
  decode_uri_component ((percent_byte (192 + n / 64) ++ percent_byte (128 + n mod 64)) ++ t)
  = String (ascii_of_nat n) <$> decode_uri_component t.
Proof.
  intros Hn. assert (2 <= n / 64 < 4) as Hd.
  { split; [apply Nat.div_le_lower_bound | apply Nat.Div0.div_lt_upper_bound]; lia. }
  pose proof (Nat.mod_upper_bound n 64 ltac:(lia)) as Hm.
  unfold percent_byte. cbn [String.append decode_uri_component Ascii.eqb Bool.eqb].
  rewrite !hex_pair_byte by lia. nat_bool_cases; try lia.
  do 2 f_equal. pose proof (Nat.div_mod_eq n 64). f_equal. lia.
Qed.

Lemma decode_encode_char (c : ascii) (t : string) :
  decode_uri_component (encode_char c ++ t) = String c <$> decode_uri_component t.
Proof.
  unfold encode_char. pose proof (nat_ascii_bounded c) as Hb.
  destruct (uri_unreserved c) eqn:Hu.
  - cbn [String.append decode_uri_component]. destruct (Ascii.eqb_spec c "%") as [->|]; [discriminate|done].
  - destruct (Nat.ltb_spec (nat_of_ascii c) 128).
    + by rewrite decode_percent_byte, ascii_nat_embedding.
    + rewrite decode_two_bytes by lia. by rewrite ascii_nat_embedding.
Qed.

Section with_realm_lemmas.
Context `{Realm}.

(** [serialize] fails exactly when the cookie name is not a valid field
    content; the encoded token always passes. *)
Lemma cookie_serialize_spec (name val : jsval) :
  cookie_serialize name val =
  if field_content (to_string name)
  then Ok (to_string name ++ "=" ++ encode_uri_component (to_string val))
  else Exc (TypeErrorObj "argument name is invalid").
Proof.
  unfold cookie_serialize. destruct (field_content (to_string name)); [|done]. simpl.
  unfold field_content. rewrite encode_uri_component_field, andb_true_r.
  by destruct (String.eqb _ _).
Qed.
End with_realm_lemmas.

(** [decodeURIComponent] inverts [encodeURIComponent]. *)
Lemma decode_encode_uri_component (s : string) :
  decode_uri_component (encode_uri_component s) = Some s.
Proof.
  induction s as [|c s IH]; [done|]. cbn [encode_uri_component].
  by rewrite decode_encode_char, IH.
Qed.

(** What [encodeURIComponent] writes: unreserved code units and [%]. *)
Definition encoded_char (c : ascii) : bool := uri_unreserved c || Ascii.eqb c "%".

Lemma hex_digit_unreserved (n : nat) : n < 16 -> uri_unreserved (hex_digit n) = true.
Proof. intros Hn. do 16 (destruct n as [|n]; [reflexivity|]). lia. Qed.

Lemma percent_byte_encoded (n : nat) : n < 256 -> str_forall encoded_char (percent_byte n) = true.
Proof.
  intros Hn. unfold percent_byte, encoded_char. cbn [str_forall].
  rewrite !hex_digit_unreserved; [reflexivity | |].
  - apply Nat.mod_upper_bound. lia.
  - apply Nat.Div0.div_lt_upper_bound. lia.
Qed.

Lemma encode_uri_component_encoded (s : string) :
  str_forall encoded_char (encode_uri_component s) = true.
Proof.
  induction s as [|c s IH]; [reflexivity|]. cbn [encode_uri_component].
  rewrite str_forall_app, IH, andb_true_r. unfold encode_char.
  pose proof (nat_ascii_bounded c) as Hb.
  destruct (uri_unreserved c) eqn:Hu; [cbn; unfold encoded_char; by rewrite Hu|].
  destruct (Nat.ltb_spec (nat_of_ascii c) 128); [apply percent_byte_encoded; lia|].
  rewrite str_forall_app, !percent_byte_encoded; [done | |].
  - pose proof (Nat.mod_upper_bound (nat_of_ascii c) 64). lia.
  - assert (nat_of_ascii c / 64 < 4) by (apply Nat.Div0.div_lt_upper_bound; lia). lia.
Qed.

(** An encoded code unit is neither whitespace, [;], [=] nor a double
    quote. *)
Definition parse_safe (c : ascii) : bool :=
  negb (js_whitespace c) && negb (Ascii.eqb c ";") && negb (Ascii.eqb c "=")
  && negb (Ascii.eqb c (ascii_of_nat 34)).

Lemma encoded_char_safe (c : ascii) : encoded_char c = true -> parse_safe c = true.
Proof. destruct c as [[] [] [] [] [] [] [] []]; vm_compute; first [done | intros [=]]. Qed.

Lemma encoded_safe (s : string) : str_forall parse_safe (encode_uri_component s) = true.
Proof. eapply str_forall_impl; [apply encoded_char_safe | apply encode_uri_component_encoded]. Qed.

Lemma safe_no_semi (s : string) : str_forall parse_safe s = true -> str_has ";" s = false.
Proof.
  induction s as [|c s IH]; [done|]. cbn [str_forall str_has]. unfold parse_safe.
  intros [Hc Hs]%andb_true_iff. destruct (ascii_dec ";" c) as [<-|]; [discriminate|]. by apply IH.
Qed.

Lemma safe_no_ws (s : string) :
  str_forall parse_safe s = true -> str_forall (fun c => negb (js_whitespace c)) s = true.
Proof.
  apply str_forall_impl. intros c. unfold parse_safe. by destruct (js_whitespace c).
Qed.

Lemma split_pairs_nosemi (s cur : string) :
  str_has ";" s = false -> split_pairs s false cur = [cur ++ s].
Proof.
  revert cur; induction s as [|c s IH]; intros cur; cbn [str_has split_pairs]; [by rewrite str_app_nil_r|].
  destruct (ascii_dec ";" c) as [<-|Hc]; [discriminate|]. intros Hs.
  destruct (Ascii.eqb_spec c ";"); [congruence|]. cbn [andb].
  rewrite IH by done. by rewrite <- str_app_assoc.
Qed.

Lemma index_of_char_app (c : ascii) (a b : string) :
  str_has c a = false -> index_of (String c "") (a ++ String c b) = Some (String.length a).
Proof.
  induction a as [|d a IH]; intros Ha; rewrite index_of_eq; cbn [String.prefix String.append].
  - destruct (ascii_dec c c) as [_|[]]; [by destruct b | done].
  - cbn [str_has] in Ha. destruct (ascii_dec c d) as [->|Hcd]; [discriminate|].
    rewrite IH by done. reflexivity.
Qed.

Lemma unquote_safe (s : string) : str_forall parse_safe s = true -> unquote s = s.
Proof.
  destruct s as [|c s]; [done|]. cbn [str_forall unquote]. unfold parse_safe.
  intros [[_ Hq]%andb_true_iff _]%andb_true_iff. apply negb_true_iff in Hq. by rewrite Hq.
Qed.

(** [cookie.parse] reads back the pair [cookie.serialize] writes, when
    the name has no [;] nor [=] and no surrounding whitespace. *)
Lemma cookie_parse_pair (name value : string) :
  str_has ";" name = false -> str_has "=" name = false -> trim name = name ->
  cookie_parse (name ++ "=" ++ encode_uri_component value) = [(name, JString value)].
Proof.
  intros Hs He Ht. pose proof (encoded_safe value) as Hv.
  unfold cookie_parse. rewrite split_pairs_nosemi; cycle 1.
  { rewrite str_has_app, Hs. cbn [orb]. rewrite str_has_app. rewrite (safe_no_semi _ Hv). done. }
  cbn [fold_left String.append]. unfold parse_pair.
  rewrite index_of_char_app by done. rewrite str_take_app.
  replace (S (String.length name)) with (String.length name + 1) by lia.
  rewrite str_drop_app_add. cbn [str_drop].
  rewrite (trim_nows _ (safe_no_ws _ Hv)), unquote_safe, Ht by done. cbn.
  unfold try_decode. by rewrite decode_encode_uri_component.
Qed.

Lemma str_take_length_le (n : nat) (s : string) : String.length (str_take n s) <= n.
Proof. revert s; induction n as [|n IH]; intros [|c s]; cbn; try lia. specialize (IH s). lia. Qed.

Lemma trim_length (s : string) : String.length (trim s) <= String.length s.
Proof.
  unfold trim. etransitivity; [apply trim_end_length|].
  induction s as [|c s IH]; cbn; [lia|]. destruct (js_whitespace c); cbn; lia.
Qed.

Lemma str_has_split (c : ascii) (s : string) :
  str_has c s = true -> exists pre post, s = pre ++ String c post /\ str_has c pre = false.
Proof.
  induction s as [|d s IH]; cbn; [discriminate|]. destruct (ascii_dec c d) as [<-|Hcd].
  - intros _. by exists "", s.
  - intros (pre & post & -> & Hp)%IH. exists (String d pre), post. cbn.
    destruct (ascii_dec c d); [congruence|done].
Qed.

(** A cookie name with [=] is lost: [cookie.parse] reads the pair under
    the part of the name before its first [=]. *)
Lemma cookie_parse_eq_name (name value : string) :
  str_has ";" name = false -> str_has "=" name = true ->
  obj_lookup (cookie_parse (name ++ "=" ++ encode_uri_component value)) name = None.
Proof.
  intros Hs He. unfold cookie_parse. rewrite split_pairs_nosemi; cycle 1.
  { rewrite str_has_app, Hs. cbn [orb str_has]. apply (safe_no_semi _ (encoded_safe value)). }
  cbn [fold_left String.append]. unfold parse_pair.
  destruct (str_has_split _ _ He) as (pre & post & -> & _).
  destruct (index_of "=" _) as [i|] eqn:Hi; cycle 1.
  { exfalso. apply index_of_None with (pre := pre) (post := post ++ "=" ++ encode_uri_component value) in Hi.
    apply Hi. by rewrite <- str_app_assoc. }
  apply index_of_Some in Hi as [_ Hmin].
  specialize (Hmin pre (post ++ "=" ++ encode_uri_component value) ltac:(by rewrite <- str_app_assoc)).
  cbn [obj_lookup obj_set]. decide_step as [Heq|]; [|done]. exfalso.
  pose proof (trim_length (str_take i ((pre ++ String "=" post) ++ String "=" (encode_uri_component value)))) as Ht.
  pose proof (str_take_length_le i ((pre ++ String "=" post) ++ String "=" (encode_uri_component value))).
  rewrite <- Heq, !str_length_app in Ht. cbn in Ht. lia.
Qed.
