(* ===== verification/Runtime.v ===== *)
(** * The runtime the SDK runs in

    The state a call of the SDK can change, and the shape of its result.
    The world holds the heap of the objects the caller owns and passes by
    reference (the [params] of the verb methods), the log of the requests
    handed to the network, and the errors nobody catches: exceptions thrown
    inside a callback ([w_uncaught]) and rejected promises nobody awaits
    ([w_unhandled]).  An asynchronous call is run to quiescence: its
    promise ends fulfilled, rejected, or pending forever.  The network is
    the [Transport] class: its reply to a request may depend on every
    request sent before, which covers a stateful server and a mock. *)

From S2P Require Import Prelude JsValue.
From stdpp Require Import gmap.
Local Open Scope string_scope.
Local Open Scope js_scope.

(** The options object the dispatcher hands to the [request] library. *)
Record ReqOpts := {
  ro_method : jsval;
  ro_uri : string;
  ro_json : bool;
  ro_headers : obj;
  ro_bearer : jsval;
  ro_formData : option jsval;
  ro_body : option jsval
}.

(** What the [request] library passes to its callback: an error, or a
    response with its status code and its (JSON-parsed) body. *)
Inductive reply :=
| NetError (e : jsval)
| NetResponse (status : Z) (body : jsval).

Class Transport := {
  transport_reply : list ReqOpts -> ReqOpts -> reply
}.

(** The process environment ([process.env]): unset variables read
    [undefined]. *)
Abbreviation env := (gmap string string).

Definition env_get (e : env) (k : string) : jsval :=
  match e !! k with Some s => JString s | None => JUndefined end.

Abbreviation loc := positive.

Record world := {
  w_heap : gmap loc obj;
  w_sent : list ReqOpts;
  w_uncaught : list js_error;
  w_unhandled : list js_error
}.

Definition heap_read (w : world) (l : loc) : obj := default [] (w_heap w !! l).

Definition heap_write (l : loc) (o : obj) (w : world) : world :=
  {| w_heap := <[l := o]> (w_heap w); w_sent := w_sent w;
     w_uncaught := w_uncaught w; w_unhandled := w_unhandled w |}.

(** Hand a request to the network. *)
Definition log_send (opts : ReqOpts) (w : world) : world :=
  {| w_heap := w_heap w; w_sent := w_sent w ++ [opts];
     w_uncaught := w_uncaught w; w_unhandled := w_unhandled w |}.

Definition raise_uncaught (e : js_error) (w : world) : world :=
  {| w_heap := w_heap w; w_sent := w_sent w;
     w_uncaught := w_uncaught w ++ [e]; w_unhandled := w_unhandled w |}.

Definition raise_unhandled (e : js_error) (w : world) : world :=
  {| w_heap := w_heap w; w_sent := w_sent w;
     w_uncaught := w_uncaught w; w_unhandled := w_unhandled w ++ [e] |}.

(** ** Promises and asynchronous computations *)

Inductive promise (A : Type) :=
| Fulfilled (a : A)
| Rejected (e : js_error)
| Pending.
Arguments Fulfilled {A} a.
Arguments Rejected {A} e.
Arguments Pending {A}.

Definition async (A : Type) := world -> promise A * world.

Definition async_ret {A} (a : A) : async A := fun w => (Fulfilled a, w).

(** [await c] then continue with [k]: a rejection propagates, a pending
    promise leaves the continuation waiting forever. *)
Definition async_bind {A B} (c : async A) (k : A -> async B) : async B :=
  fun w =>
    match c w with
    | (Fulfilled a, w') => k a w'
    | (Rejected e, w') => (Rejected e, w')
    | (Pending, w') => (Pending, w')
    end.

(** Synchronous code run inside an async function or a promise executor:
    what it throws rejects the promise. *)
Definition async_of_result {A} (r : result js_error A) : async A :=
  fun w => match r with Ok a => (Fulfilled a, w) | Exc e => (Rejected e, w) end.

Notation "'let!' x ':=' c 'in' k" := (async_bind c (fun x => k))
  (at level 10, x name, c at level 100, k at level 200) : js_scope.

Lemma async_bind_ret {A B} (a : A) (k : A -> async B) w :
  async_bind (async_ret a) k w = k a w.
Proof. reflexivity. Qed.

Lemma log_send_sent opts w : w_sent (log_send opts w) = (w_sent w ++ [opts])%list.
Proof. reflexivity. Qed.

Lemma heap_read_write_eq l o w : heap_read (heap_write l o w) l = o.
Proof. unfold heap_read, heap_write. simpl. by rewrite lookup_insert_eq. Qed.

Lemma heap_read_write_ne l l' o w : l <> l' -> heap_read (heap_write l o w) l' = heap_read w l'.
Proof. intros. unfold heap_read, heap_write. simpl. by rewrite lookup_insert_ne. Qed.

#[export] Hint Rewrite @async_bind_ret log_send_sent heap_read_write_eq : jsdb.
#[export] Hint Rewrite heap_read_write_ne using congruence : jsdb.
