(* ===== verification/Mock.v ===== *)
(** * Concrete realms and transports for scenarios

    The test files of the repository run against the live API; the
    specification's end-to-end scenario runs against a mock transport.
    This file provides such concrete instances, on which the witnesses of
    the theorems evaluate: a realm with three caller functions, a mock
    server answering from a routing table, and a server that cannot be
    reached. *)

From S2P Require Import Prelude JsValue Runtime.
From stdpp Require Import gmap.
Local Open Scope string_scope.
Local Open Scope js_scope.

(** Function 0 is [x => x], function 1 is
    [() => { throw new Error("formatter failed") }], function 2 is
    [res => res.data], function 3 is [() => ({ toLowerCase: f4 })] and
    function 4 is [() => "AB"]; any other function returns
    [undefined]. *)
Definition mock_call (id : nat) (args : list jsval) : result js_error jsval :=
  match id, args with
  | 0, x :: _ => Ok x
  | 1, _ => Exc (ErrorObj "formatter failed")
  | 2, x :: _ => Ok (get_prop x "data")
  | 3, _ => Ok (JObject [("toLowerCase", JFunction 4)])
  | 4, _ => Ok (JString "AB")
  | _, _ => Ok JUndefined
  end.

Definition mock_realm : Realm := {|
  realm_call := mock_call;
  realm_source := fun _ => "function () { [native code] }"
|}.

(** A server that answers each request by its URI, and 404 otherwise. *)
Fixpoint route (routes : list (string * reply)) (uri : string) : reply :=
  match routes with
  | [] => NetResponse 404 (JObject [("error", JString "Not Found")])
  | (u, r) :: rs => if String.eqb u uri then r else route rs uri
  end.

Definition mock_transport (routes : list (string * reply)) : Transport := {|
  transport_reply := fun _ o => route routes (ro_uri o)
|}.

(** The scenario of the specification: the model listing answers 200 with
    [{"data": [{"ZUID": "1"}]}]. *)
Definition models_body : jsval :=
  JObject [("data", JArray [JObject [("ZUID", JString "1")]])].

Definition models_transport : Transport :=
  mock_transport [("https://8-xyz.api.zesty.io/v1/content/models", NetResponse 200 models_body)].

(** An authentication server: [/verify] answers 200 for the bearer token
    ["good-token"] and 401 for any other; other paths are 404. *)
Definition auth_transport : Transport := {|
  transport_reply := fun _ o =>
    if String.eqb (ro_uri o) "https://auth.api.zesty.io/verify" then
      if bool_decide (ro_bearer o = JString "good-token")
      then NetResponse 200 (JObject [("code", JNumber 200)])
      else NetResponse 401 (JObject [("message", JString "Unauthorized")])
    else route [] (ro_uri o)
|}.

(** A server that cannot be reached. *)
Definition refused : jsval := JObject [("code", JString "ECONNREFUSED")].

Definition down_transport : Transport := {|
  transport_reply := fun _ _ => NetError refused
|}.

Definition empty_world : world :=
  {| w_heap := ∅; w_sent := []; w_uncaught := []; w_unhandled := [] |}.
