(* ===== verification/Service.v ===== *)
(** * The request dispatcher: [src/services/service.js]

    The class [Service] as the record of the fields its constructor sets,
    and one definition per method:
    - [Service_new] is [constructor(baseAPI, token)] (lines 7-24);
    - [interpolate] is [interpolate(url, replacementObject)] (26-32): one
      [String.prototype.replace] per key the [for...in] loop visits;
    - [verb_request] is the shared body of the five verb methods (34-87),
      which write the default [successCode] into the caller's [params]
      object, held in the heap of the world, then spread it into a fresh
      object with the [method] set; [getRequest], [deleteRequest],
      [putRequest], [postRequest] and [patchRequest] instantiate it;
    - [build_opts] is the synchronous part of the promise executor of
      [request] (91-115), [enrich] the [{statusCode, ...body}] of the
      callback (123), and [request] the whole method (89-132): a throw in
      the executor rejects the promise without a network call; otherwise
      exactly one request is handed to the [Transport], a transport error
      rejects the promise with the error unchanged, and any response
      fulfils it, whatever its status; a formatter that throws does so
      inside the callback, where nothing catches it.

    The theorems follow the definitions: construction errors, the options
    handed to the network, the status code of the result, error
    propagation, one network call per request, the verb defaults and their
    effect on the caller's object, and [interpolate]. *)

From S2P Require Import Prelude JsValue JsString Cookie Runtime Mock.
From stdpp Require Import gmap.
Local Open Scope string_scope.
Local Open Scope js_scope.

(** The fields of a [Service] object. *)
Record Service := {
  baseAPI : jsval;
  token : jsval;
  cookieName : jsval
}.

(** [new Service(baseAPI, token)]; [process.env.COOKIE || "APP_SID"]. *)
Definition Service_new (e : env) (baseAPI token : jsval) : result js_error Service :=
  if negb (truthy baseAPI) then
    Exc (ErrorObj "SDK:Service:constructor() missing required `baseAPI` argument on instantiation")
  else if negb (truthy token) then
    Exc (ErrorObj "SDK:Service:constructor() missing required `token` argument on instantiation. All API requests have to be authenticated")
  else Ok {| baseAPI := baseAPI; token := token;
             cookieName := js_or (env_get e "COOKIE") (JString "APP_SID") |}.

(** The second argument of a verb method: omitted (the default [{}], a
    fresh object), or a reference to an object of the caller. *)
Inductive params_arg :=
| ParamsDefault
| ParamsRef (l : loc).

(** [{ ...params, method: m }]. *)
Definition with_method (params : obj) (m : string) : obj :=
  obj_set (copy_data_properties [] (JObject params)) "method" (JString m).

(** [{ statusCode: response.statusCode, ...body }]. *)
Definition enrich (status : Z) (body : jsval) : obj :=
  copy_data_properties [("statusCode", JNumber status)] body.

Section dispatcher.
Context {R : Realm} {T : Transport}.

Fixpoint replace_each (url : string) (entries : list (string * jsval)) : result js_error string :=
  match entries with
  | [] => Ok url
  | (k, v) :: es => let? u := js_replace url k v in replace_each u es
  end.

Definition interpolate (url : string) (replacementObject : jsval) : result js_error string :=
  replace_each url (own_entries replacementObject).

(** [params.hasOwnProperty(k)]: the inherited method, unless the object
    has an own property of that name, which is then what is called. *)
Definition has_own_property (o : obj) (k : string) : result js_error bool :=
  match obj_lookup o "hasOwnProperty" with
  | None => Ok (obj_has_own o k)
  | Some f => let? r := js_call f [JString k] in Ok (truthy r)
  end.

(** [if (!params.hasOwnProperty("successCode")) params.successCode = code]. *)
Definition default_success_code (o : obj) (code : Z) : result js_error obj :=
  let? has := has_own_property o "successCode" in
  Ok (if has then o else obj_set o "successCode" (JNumber code)).

(** The executor of [request] up to the call of the [request] library. *)
Definition build_opts (svc : Service) (uri : string) (params : obj) : result js_error ReqOpts :=
  let? headers1 :=
    if truthy (obj_get params "usesCookieAuth") then
      let? c := cookie_serialize (cookieName svc) (token svc) in
      Ok (obj_set [] "Cookie" (JString c))
    else Ok [] in
  let headers := if truthy (obj_get params "usesXAuthHeader")
                 then obj_set headers1 "X-Auth" (token svc) else headers1 in
  let payload := obj_get params "payload" in
  let form := truthy (obj_get params "isFormData") in
  Ok {| ro_method := obj_get params "method";
        ro_uri := to_string (baseAPI svc) ++ uri;
        ro_json := true;
        ro_headers := headers;
        ro_bearer := token svc;
        ro_formData := if truthy payload && form then Some payload else None;
        ro_body := if truthy payload && negb form then Some payload else None |}.

(** [request(uri, params)], run until its promise settles. *)
Definition request (svc : Service) (uri : string) (params : obj) : async jsval :=
  fun w =>
    match build_opts svc uri params with
    | Exc e => (Rejected e, w)
    | Ok opts =>
        let w1 := log_send opts w in
        match transport_reply (w_sent w) opts with
        | NetError err => (Rejected (Thrown err), w1)
        | NetResponse status body =>
            let enriched := JObject (enrich status body) in
            let fmt := obj_get params "responseFormatter" in
            if truthy fmt then
              match js_call fmt [enriched] with
              | Ok v => (Fulfilled v, w1)
              | Exc e => (Pending, raise_uncaught e w1)
              end
            else (Fulfilled enriched, w1)
        end
    end.

(** The body shared by the five verb methods. *)
Definition verb_request (m : string) (code : Z) (svc : Service) (uri : string)
    (p : params_arg) : async jsval :=
  fun w =>
    match p with
    | ParamsDefault =>
        match default_success_code [] code with
        | Ok o => request svc uri (with_method o m) w
        | Exc e => (Rejected e, w)
        end
    | ParamsRef l =>
        match default_success_code (heap_read w l) code with
        | Ok o => request svc uri (with_method o m) (heap_write l o w)
        | Exc e => (Rejected e, w)
        end
    end.

Definition getRequest := verb_request "GET" 200.
Definition deleteRequest := verb_request "DELETE" 200.
Definition putRequest := verb_request "PUT" 200.
Definition postRequest := verb_request "POST" 201.
Definition patchRequest := verb_request "PATCH" 200.
End dispatcher.

(** ** Scenario data *)

(** A service of instance [8-xyz], as [Instance] builds it with the
    default URL, and the parameters [getRequest] sends without [params]. *)
Definition demo_service : Service :=
  {| baseAPI := JString "https://8-xyz.api.zesty.io/v1"; token := JString "tok";
     cookieName := JString "APP_SID" |}.

Definition get_params : obj := [("successCode", JNumber 200); ("method", JString "GET")].

(** A caller's options object asking for every kind of authentication and
    a JSON body. *)
Definition auth_params : obj :=
  [("usesCookieAuth", JBool true); ("usesXAuthHeader", JBool true);
   ("payload", JObject [("name", JString "bin")]); ("method", JString "PUT")].

(** A world in which the caller owns the object [{ payload: ... }] at
    location 1. *)
Definition caller_world : world :=
  heap_write 1%positive [("payload", JObject [("name", JString "bin")])] empty_world.

(** ** Helper lemmas *)

Lemma own_keys_singleton (k : string) (v : jsval) : own_keys [(k, v)] = [k].
Proof.
  unfold own_keys, obj_keys. cbn [map omap].
  destruct (array_index k) eqn:E; cbn; rewrite E; cbn; decide_step as [Hn|Hn]; try done.
  - exfalso. apply Hn. eauto.
  - exfalso. apply Hn. intros [? ?]; discriminate.
Qed.

(** The envelope: the body's own enumerable properties over [statusCode]. *)
Lemma lookup_enrich (status : Z) (body : jsval) (k : string) :
  obj_lookup (enrich status body) k =
  if decide (k ∈ enum_keys body) then Some (get_prop body k)
  else if decide (k = "statusCode") then Some (JNumber status) else None.
Proof.
  unfold enrich. rewrite lookup_copy_data_properties.
  repeat decide_step; cbn [obj_lookup]; repeat decide_step; congruence.
Qed.

Lemma get_with_method (o : obj) (m k : string) :
  obj_get (with_method o m) k = if decide (k = "method") then JString m else obj_get o k.
Proof.
  unfold with_method. decide_step as [->|Hne].
  - apply obj_get_set_eq.
  - rewrite obj_get_set_ne by congruence. apply get_spread_object.
Qed.

Section dispatcher_lemmas.
Context {R : Realm} {T : Transport}.

Lemma request_heap (svc : Service) (uri : string) (params : obj) (w : world) :
  w_heap (request svc uri params w).2 = w_heap w.
Proof.
  unfold request. destruct (build_opts svc uri params); [|done].
  destruct (transport_reply _ _); [done|]. destruct (truthy _); [|done].
  by destruct (js_call _ _).
Qed.

Lemma heap_read_request (svc : Service) (uri : string) (params : obj) (w : world) l :
  heap_read (request svc uri params w).2 l = heap_read w l.
Proof. unfold heap_read. by rewrite request_heap. Qed.

Lemma default_success_code_plain (o : obj) (code : Z) :
  obj_lookup o "hasOwnProperty" = None ->
  default_success_code o code =
  Ok (if obj_has_own o "successCode" then o else obj_set o "successCode" (JNumber code)).
Proof. intros Hp. unfold default_success_code, has_own_property. by rewrite Hp. Qed.
End dispatcher_lemmas.

#[export] Hint Rewrite own_keys_singleton lookup_enrich get_with_method : jsdb.
#[export] Hint Rewrite @heap_read_request @request_heap : jsdb.

Section dispatcher_theorems.
Context {R : Realm} {T : Transport}.

Lemma request_response_eq svc uri params w opts status body :
  build_opts svc uri params = Ok opts ->
  transport_reply (w_sent w) opts = NetResponse status body ->
  truthy (obj_get params "responseFormatter") = false ->
  request svc uri params w = (Fulfilled (JObject (enrich status body)), log_send opts w).
Proof. intros Hb Hr Hf. unfold request. by rewrite Hb, Hr, Hf. Qed.

(** C1: when the network answers, whatever the status (4xx and 5xx
    included), [request] fulfils with the envelope: every own enumerable
    property of the body, and [statusCode] set to the transport's status
    where the body has none; the request is logged once. *)
Theorem request_envelope svc uri params w opts status body :
  build_opts svc uri params = Ok opts ->
  transport_reply (w_sent w) opts = NetResponse status body ->
  truthy (obj_get params "responseFormatter") = false ->
  exists o, request svc uri params w = (Fulfilled (JObject o), log_send opts w) /\
    forall k, obj_lookup o k =
      if decide (k ∈ enum_keys body) then Some (get_prop body k)
      else if decide (k = "statusCode") then Some (JNumber status) else None.
Proof.
  intros Hb Hr Hf. exists (enrich status body).
  split; [by apply request_response_eq | apply lookup_enrich].
Qed.

(** The result's [statusCode] is the transport's status code when the
    body has no own enumerable [statusCode]. *)
Lemma request_statusCode_transport svc uri params w opts status body :
  build_opts svc uri params = Ok opts ->
  transport_reply (w_sent w) opts = NetResponse status body ->
  truthy (obj_get params "responseFormatter") = false ->
  "statusCode" ∉ enum_keys body ->
  exists o, request svc uri params w = (Fulfilled (JObject o), log_send opts w) /\
    obj_get o "statusCode" = JNumber status.
Proof.
  intros Hb Hr Hf Hin. exists (enrich status body).
  split; [by apply request_response_eq|].
  unfold obj_get. rewrite lookup_enrich. by repeat decide_step.
Qed.

(** A body with its own [statusCode] property overrides the
    transport's status code in the result, because the body is spread
    after [statusCode] in [{ statusCode: response.statusCode, ...body }]. *)
Lemma request_statusCode_overridden svc uri params w opts status body :
  build_opts svc uri params = Ok opts ->
  transport_reply (w_sent w) opts = NetResponse status body ->
  truthy (obj_get params "responseFormatter") = false ->
  "statusCode" ∈ enum_keys body ->
  exists o, request svc uri params w = (Fulfilled (JObject o), log_send opts w) /\
    obj_get o "statusCode" = get_prop body "statusCode".
Proof.
  intros Hb Hr Hf Hin. exists (enrich status body).
  split; [by apply request_response_eq|].
  unfold obj_get. rewrite lookup_enrich. by decide_step.
Qed.

(** C2: a transport error rejects the promise with the error itself,
    after exactly one request was handed to the network. *)
Theorem request_transport_error svc uri params w opts err :
  build_opts svc uri params = Ok opts ->
  transport_reply (w_sent w) opts = NetError err ->
  request svc uri params w = (Rejected (Thrown err), log_send opts w).
Proof. intros Hb Hr. unfold request. by rewrite Hb, Hr. Qed.

(** A throw in the executor (an invalid cookie name) rejects the
    promise with that error, and nothing reaches the network. *)
Lemma request_executor_error svc uri params w e :
  build_opts svc uri params = Exc e ->
  request svc uri params w = (Rejected e, w).
Proof. intros Hb. unfold request. by rewrite Hb. Qed.

(** [request] hands exactly one request to the network when its
    executor does not throw, and none when it does, whatever the reply
    and whatever the formatter does. *)
Lemma request_sends_once svc uri params w :
  w_sent (request svc uri params w).2 =
  (w_sent w ++ match build_opts svc uri params with Ok o => [o] | Exc _ => [] end)%list.
Proof.
  unfold request. destruct (build_opts svc uri params) as [opts|e]; [|by rewrite app_nil_r].
  destruct (transport_reply _ _); [done|]. destruct (truthy _); [|done].
  by destruct (js_call _ _).
Qed.

(** C4: a [responseFormatter] that throws does so inside the callback of
    the [request] library: the exception is uncaught and the promise
    returned to the caller never settles. *)
Theorem request_formatter_throws svc uri params w opts status body e :
  build_opts svc uri params = Ok opts ->
  transport_reply (w_sent w) opts = NetResponse status body ->
  truthy (obj_get params "responseFormatter") = true ->
  js_call (obj_get params "responseFormatter") [JObject (enrich status body)] = Exc e ->
  request svc uri params w = (Pending, raise_uncaught e (log_send opts w)).
Proof. intros Hb Hr Hf Hc. unfold request. by rewrite Hb, Hr, Hf, Hc. Qed.
End dispatcher_theorems.

Section options_theorems.
Context {R : Realm}.

(** The fields of the options [build_opts] builds. *)
Lemma build_opts_fields svc uri params opts :
  build_opts svc uri params = Ok opts ->
  ro_uri opts = to_string (baseAPI svc) ++ uri /\
  ro_method opts = obj_get params "method" /\
  ro_json opts = true /\
  ro_bearer opts = token svc /\
  obj_lookup (ro_headers opts) "Cookie" =
    (if truthy (obj_get params "usesCookieAuth")
     then Some (JString (to_string (cookieName svc) ++ "="
                         ++ encode_uri_component (to_string (token svc))))
     else None) /\
  obj_lookup (ro_headers opts) "X-Auth" =
    (if truthy (obj_get params "usesXAuthHeader") then Some (token svc) else None) /\
  ro_body opts =
    (if truthy (obj_get params "payload") && negb (truthy (obj_get params "isFormData"))
     then Some (obj_get params "payload") else None) /\
  ro_formData opts =
    (if truthy (obj_get params "payload") && truthy (obj_get params "isFormData")
     then Some (obj_get params "payload") else None).
Proof.
  unfold build_opts. rewrite cookie_serialize_spec.
  destruct (truthy (obj_get params "usesCookieAuth"));
    [destruct (field_content (to_string (cookieName svc))); [|discriminate]|];
    cbn [result_bind]; intros [= <-]; cbn;
    destruct (truthy (obj_get params "usesXAuthHeader")); cbn; repeat split.
Qed.

(** Only cookie authentication can make the executor throw. *)
Lemma build_opts_Exc_cookie svc uri params e :
  build_opts svc uri params = Exc e -> truthy (obj_get params "usesCookieAuth") = true.
Proof. unfold build_opts. by destruct (truthy (obj_get params "usesCookieAuth")). Qed.

(** C5: the options handed to the [request] library: the URI is the base
    URL followed by the path, the token is always the bearer credential,
    the Cookie header (the serialised cookie) and the X-Auth header (the
    raw token) are present exactly when their flags are truthy, and a
    truthy payload is the form data or the JSON body as [isFormData]
    says. *)
Theorem build_opts_Ok svc uri params opts :
  build_opts svc uri params = Ok opts ->
  ro_uri opts = to_string (baseAPI svc) ++ uri /\
  ro_method opts = obj_get params "method" /\
  ro_json opts = true /\
  ro_bearer opts = token svc /\
  obj_lookup (ro_headers opts) "Cookie" =
    (if truthy (obj_get params "usesCookieAuth")
     then Some (JString (to_string (cookieName svc) ++ "="
                         ++ encode_uri_component (to_string (token svc))))
     else None) /\
  obj_lookup (ro_headers opts) "X-Auth" =
    (if truthy (obj_get params "usesXAuthHeader") then Some (token svc) else None) /\
  ro_body opts =
    (if truthy (obj_get params "payload") && negb (truthy (obj_get params "isFormData"))
     then Some (obj_get params "payload") else None) /\
  ro_formData opts =
    (if truthy (obj_get params "payload") && truthy (obj_get params "isFormData")
     then Some (obj_get params "payload") else None).
Proof. apply build_opts_fields. Qed.

(** C6: the executor throws exactly when cookie authentication is asked
    for and the cookie name fails the cookie library's check; the error
    is its [TypeError]. *)
Theorem build_opts_Exc svc uri params e :
  build_opts svc uri params = Exc e <->
  truthy (obj_get params "usesCookieAuth") = true /\
  field_content (to_string (cookieName svc)) = false /\
  e = TypeErrorObj "argument name is invalid".
Proof.
  unfold build_opts. rewrite cookie_serialize_spec.
  destruct (truthy (obj_get params "usesCookieAuth"));
    [destruct (field_content (to_string (cookieName svc)))|]; cbn;
    split; intros Hx; destruct_and?; try congruence.
  injection Hx as <-. done.
Qed.
(** Every object the dispatcher builds is a well-formed JavaScript
    object, its keys unique, whatever the caller passes: the envelope,
    the copy of [params] with its [method], and the headers sent. *)
Lemma dispatcher_objects_wf svc uri params opts status body o m :
  obj_wf (enrich status body) /\ obj_wf (with_method o m) /\
  (build_opts svc uri params = Ok opts -> obj_wf (ro_headers opts)).
Proof.
  split_and!.
  - unfold enrich. apply copy_data_properties_wf. apply NoDup_singleton.
  - unfold with_method. auto with jsdb.
  - unfold build_opts. destruct (truthy (obj_get params "usesCookieAuth"));
      [destruct (cookie_serialize _ _); [|discriminate]|]; cbn [result_bind]; intros [= <-]; cbn [ro_headers];
      destruct (truthy (obj_get params "usesXAuthHeader"));
      first [solve [auto with jsdb] | unfold obj_wf; cbn; repeat constructor; set_solver].
Qed.
End options_theorems.

Lemma replace_each_absent `{Realm} (url : string) (es : list (string * jsval)) :
  (forall kv, kv ∈ es -> forall pre post, url <> pre ++ kv.1 ++ post) ->
  replace_each url es = Ok url.
Proof.
  induction es as [|[k v] es IH]; intros Habs; [done|]. cbn [replace_each].
  rewrite js_replace_absent by (apply (Habs (k, v)); left).
  apply IH. intros kv Hkv. apply Habs. by right.
Qed.

Lemma interpolate_singleton `{Realm} (url k : string) (v : jsval) :
  interpolate url (JObject [(k, v)]) = js_replace url k v.
Proof.
  unfold interpolate, own_entries. cbn [enum_keys]. rewrite own_keys_singleton.
  cbn [map replace_each get_prop]. unfold obj_get. cbn. rewrite decide_True by done.
  cbn. by destruct (js_replace url k v).
Qed.

Section construction_theorems.
Context {R : Realm} {T : Transport}.

(** C7: the constructor checks [baseAPI] first, then [token], and
    fails with the messages the tests expect; with both truthy it keeps
    them as they are. *)
Theorem Service_new_errors e b t :
  (truthy b = false -> Service_new e b t =
     Exc (ErrorObj "SDK:Service:constructor() missing required `baseAPI` argument on instantiation")) /\
  (truthy b = true -> truthy t = false -> Service_new e b t =
     Exc (ErrorObj "SDK:Service:constructor() missing required `token` argument on instantiation. All API requests have to be authenticated")) /\
  (truthy b = true -> truthy t = true ->
     exists svc, Service_new e b t = Ok svc /\ baseAPI svc = b /\ token svc = t).
Proof.
  unfold Service_new. split_and!; intros Hb; rewrite Hb; [done| |];
    intros Ht; rewrite Ht; eauto.
Qed.

(** C8: with [COOKIE] unset, empty or a valid cookie name, the executor
    of every request of a constructed service succeeds: the default
    [APP_SID] passes the cookie library's check. *)
Theorem Service_new_requests_built e b t svc uri params :
  Service_new e b t = Ok svc ->
  (forall s, e !! "COOKIE" = Some s -> s = "" \/ field_content s = true) ->
  exists opts, build_opts svc uri params = Ok opts.
Proof.
  unfold Service_new. destruct (truthy b), (truthy t); cbn; try discriminate.
  intros [= <-] Hc. unfold build_opts. rewrite cookie_serialize_spec. cbn [cookieName].
  assert (Hf : field_content (to_string (js_or (env_get e "COOKIE") (JString "APP_SID"))) = true).
  { unfold env_get. destruct (e !! "COOKIE") as [s|] eqn:Es; [|reflexivity].
    unfold js_or. cbn [truthy].
    destruct (Hc s eq_refl) as [->|Hs]; [reflexivity|].
    destruct (String.eqb s ""); [reflexivity | exact Hs]. }
  rewrite Hf. destruct (truthy _); eauto.
Qed.

(** Called without [params], each verb method sends its fixed HTTP
    method and records the default success code: 201 for POST and 200
    for GET, DELETE, PUT and PATCH. *)
Lemma verb_defaults svc uri w :
  getRequest svc uri ParamsDefault w =
    request svc uri [("successCode", JNumber 200); ("method", JString "GET")] w /\
  deleteRequest svc uri ParamsDefault w =
    request svc uri [("successCode", JNumber 200); ("method", JString "DELETE")] w /\
  putRequest svc uri ParamsDefault w =
    request svc uri [("successCode", JNumber 200); ("method", JString "PUT")] w /\
  postRequest svc uri ParamsDefault w =
    request svc uri [("successCode", JNumber 201); ("method", JString "POST")] w /\
  patchRequest svc uri ParamsDefault w =
    request svc uri [("successCode", JNumber 200); ("method", JString "PATCH")] w.
Proof. split_and!; reflexivity. Qed.

(** C9: with a [params] object of the caller, a verb method writes the
    default success code into that very object when it has none, keeps a
    success code the caller set, and sends a copy of the object whose
    [method] is the verb's. *)
Theorem verb_request_ref m code svc uri l w :
  obj_lookup (heap_read w l) "hasOwnProperty" = None ->
  exists o', verb_request m code svc uri (ParamsRef l) w = request svc uri (with_method o' m) (heap_write l o' w) /\
    heap_read (verb_request m code svc uri (ParamsRef l) w).2 l = o' /\
    obj_get o' "successCode" =
      (if obj_has_own (heap_read w l) "successCode"
       then obj_get (heap_read w l) "successCode" else JNumber code) /\
    (forall k, k <> "successCode" -> obj_get o' k = obj_get (heap_read w l) k) /\
    obj_get (with_method o' m) "method" = JString m.
Proof.
  intros Hp. unfold verb_request. rewrite default_success_code_plain by done.
  eexists; split_and!; [reflexivity | by rewrite heap_read_request, heap_read_write_eq | | |].
  - destruct (obj_has_own _ _); [done|]. apply obj_get_set_eq.
  - intros k Hk. destruct (obj_has_own _ _); [done|]. by apply obj_get_set_ne.
  - rewrite get_with_method. by decide_step.
Qed.
End construction_theorems.

Section aliasing_theorems.
Context {R : Realm} {T : Transport}.

(** C10: the expected success code is informational: [request] does
    exactly the same thing, to the world and to its result, whatever
    [params.successCode] holds. *)
Theorem request_successCode_irrelevant svc uri params v w :
  request svc uri (obj_set params "successCode" v) w = request svc uri params w.
Proof.
  unfold request, build_opts.
  rewrite !(obj_get_set_ne params "successCode") by discriminate. reflexivity.
Qed.

(** C11: a [params] object shared between calls keeps the first default
    written into it: after [getRequest] with the caller's object, a
    [postRequest] with the same object leaves its success code at 200,
    not at POST's 201. *)
Theorem shared_params_post_after_get svc uri l w :
  obj_lookup (heap_read w l) "hasOwnProperty" = None ->
  obj_has_own (heap_read w l) "successCode" = false ->
  obj_get (heap_read (postRequest svc uri (ParamsRef l)
                        (getRequest svc uri (ParamsRef l) w).2).2 l) "successCode"
  = JNumber 200.
Proof.
  intros Hp Hs. unfold postRequest, getRequest, verb_request.
  rewrite (default_success_code_plain (heap_read w l)), Hs by done.
  rewrite heap_read_request, heap_read_write_eq.
  rewrite default_success_code_plain by (rewrite obj_lookup_set_ne; done).
  rewrite obj_has_own_set, bool_decide_eq_true_2 by done. cbn [orb].
  rewrite heap_read_request, heap_read_write_eq. apply obj_get_set_eq.
Qed.
End aliasing_theorems.

Section interpolate_theorems.
Context {R : Realm}.

(** A template in which no key of the replacement object occurs is
    returned unchanged (and no replacer function is called). *)
Lemma interpolate_absent (url : string) (ro : jsval) :
  (forall k, k ∈ enum_keys ro -> forall pre post, url <> pre ++ k ++ post) ->
  interpolate url ro = Ok url.
Proof.
  intros Habs. apply replace_each_absent. intros kv Hkv.
  unfold own_entries in Hkv. apply list_elem_of_fmap in Hkv as [k [-> Hk]].
  by apply Habs.
Qed.

(** C12: with one key, [interpolate] replaces the FIRST occurrence of the
    key only, and expands the [$] patterns of the value: the result is
    the text before the occurrence, [GetSubstitution] of the value, and
    the rest of the template, later occurrences included. *)
Theorem interpolate_single_key (pre k post : string) (v : jsval) :
  (forall id, v <> JFunction id) ->
  (forall pre' post', pre ++ k ++ post = pre' ++ k ++ post' ->
     String.length pre <= String.length pre') ->
  interpolate (pre ++ k ++ post) (JObject [(k, v)])
  = Ok (pre ++ get_substitution k pre post (to_string v) ++ post).
Proof. intros Hf Hmin. rewrite interpolate_singleton. by apply js_replace_first. Qed.

(** The example of the specification. *)
Lemma interpolate_spec_example :
  interpolate "/foo/{ZUID}" (JObject [("{ZUID}", JString "abc")]) = Ok "/foo/abc".
Proof. reflexivity. Qed.
End interpolate_theorems.

(** ** Witnesses *)

Section witnesses.
#[local] Existing Instance mock_realm.

Lemma request_envelope_witness :
  exists opts,
    build_opts demo_service "/content/models" get_params = Ok opts /\
    @transport_reply models_transport (w_sent empty_world) opts = NetResponse 200 models_body /\
    truthy (obj_get get_params "responseFormatter") = false /\
    exists o, @request _ models_transport demo_service "/content/models" get_params empty_world
              = (Fulfilled (JObject o), log_send opts empty_world) /\
      forall k, obj_lookup o k =
        if decide (k ∈ enum_keys models_body) then Some (get_prop models_body k)
        else if decide (k = "statusCode") then Some (JNumber 200) else None.
Proof.
  eexists. split; [reflexivity|]. split; [reflexivity|]. split; [reflexivity|].
  apply (@request_envelope _ models_transport demo_service "/content/models" get_params
           empty_world _ 200 models_body); reflexivity.
Defined.

Lemma request_transport_error_witness :
  exists opts,
    build_opts demo_service "/content/models" get_params = Ok opts /\
    @transport_reply down_transport (w_sent empty_world) opts = NetError refused /\
    @request _ down_transport demo_service "/content/models" get_params empty_world
    = (Rejected (Thrown refused), log_send opts empty_world).
Proof.
  eexists. split; [reflexivity|]. split; [reflexivity|].
  apply (@request_transport_error _ down_transport); reflexivity.
Defined.

Lemma request_formatter_throws_witness :
  exists opts,
    build_opts demo_service "/content/models" [("responseFormatter", JFunction 1)] = Ok opts /\
    @transport_reply models_transport (w_sent empty_world) opts = NetResponse 200 models_body /\
    truthy (obj_get [("responseFormatter", JFunction 1)] "responseFormatter") = true /\
    js_call (JFunction 1) [JObject (enrich 200 models_body)] = Exc (ErrorObj "formatter failed") /\
    @request _ models_transport demo_service "/content/models" [("responseFormatter", JFunction 1)]
      empty_world
    = (Pending, raise_uncaught (ErrorObj "formatter failed") (log_send opts empty_world)).
Proof.
  eexists. split; [reflexivity|]. split; [reflexivity|]. split; [reflexivity|].
  split; [reflexivity|].
  apply (@request_formatter_throws _ models_transport demo_service "/content/models"
           [("responseFormatter", JFunction 1)] empty_world _ 200 models_body); reflexivity.
Defined.

Lemma build_opts_Ok_witness :
  exists opts, build_opts demo_service "/bins/1" auth_params = Ok opts /\
    ro_uri opts = "https://8-xyz.api.zesty.io/v1/bins/1" /\
    obj_lookup (ro_headers opts) "Cookie" = Some (JString "APP_SID=tok") /\
    obj_lookup (ro_headers opts) "X-Auth" = Some (JString "tok") /\
    ro_body opts = Some (JObject [("name", JString "bin")]).
Proof.
  eexists. split; [reflexivity|].
  destruct (build_opts_Ok demo_service "/bins/1" auth_params _ eq_refl)
    as (Hu & _ & _ & _ & Hc & Hx & Hb & _).
  rewrite Hu, Hc, Hx, Hb. split_and!; reflexivity.
Defined.

Lemma Service_new_requests_built_witness :
  Service_new ∅ (JString "https://8-xyz.api.zesty.io/v1") (JString "tok") = Ok demo_service /\
  exists opts, build_opts demo_service "/x" auth_params = Ok opts.
Proof.
  split; [reflexivity|].
  apply (@Service_new_requests_built _ ∅ (JString "https://8-xyz.api.zesty.io/v1") (JString "tok"));
    [reflexivity | intros s Hs; discriminate].
Defined.

Lemma verb_request_ref_witness :
  obj_lookup (heap_read caller_world 1) "hasOwnProperty" = None /\
  exists o', verb_request (T := models_transport) "PUT" 200 demo_service "/bins/1" (ParamsRef 1) caller_world
             = request (T := models_transport) demo_service "/bins/1" (with_method o' "PUT")
                 (heap_write 1 o' caller_world) /\
    heap_read (verb_request (T := models_transport) "PUT" 200 demo_service "/bins/1" (ParamsRef 1) caller_world).2 1 = o' /\
    obj_get o' "successCode" = JNumber 200 /\
    (forall k, k <> "successCode" -> obj_get o' k = obj_get (heap_read caller_world 1) k) /\
    obj_get (with_method o' "PUT") "method" = JString "PUT".
Proof.
  split; [reflexivity|].
  destruct (@verb_request_ref _ models_transport "PUT" 200 demo_service "/bins/1" 1 caller_world eq_refl)
    as (o' & H1 & H2 & H3 & H4 & H5).
  exists o'. split_and!; assumption.
Defined.

Lemma shared_params_post_after_get_witness :
  obj_lookup (heap_read caller_world 1) "hasOwnProperty" = None /\
  obj_has_own (heap_read caller_world 1) "successCode" = false /\
  obj_get (heap_read (postRequest (T := models_transport) demo_service "/bins" (ParamsRef 1)
                        (getRequest (T := models_transport) demo_service "/bins" (ParamsRef 1) caller_world).2).2 1)
    "successCode" = JNumber 200.
Proof.
  split; [reflexivity|]. split; [reflexivity|].
  apply (@shared_params_post_after_get _ models_transport); reflexivity.
Defined.

(** Both occurrences of the placeholder: only the first is replaced, and
    [$&] in the value inserts the placeholder itself. *)
Lemma interpolate_single_key_witness :
  interpolate ("/a/" ++ "{Z}" ++ "/{Z}") (JObject [("{Z}", JString "[$&]")]) = Ok "/a/[{Z}]/{Z}".
Proof.
  rewrite (interpolate_single_key "/a/" "{Z}" "/{Z}" (JString "[$&]")); [reflexivity | discriminate |].
  intros pre' post' Heq.
  exact (proj2 (proj1 (index_of_Some "{Z}" ("/a/" ++ "{Z}" ++ "/{Z}") 3) eq_refl) pre' post' Heq).
Defined.

End witnesses.
