(* ===== verification/Concurrency.v ===== *)
(** * Requests in flight: the executor, the callback and the event loop

    [request] in [src/services/service.js] (89-132) runs in two halves.
    The promise executor (89-119) builds the options and hands them to the
    [request] library; that call returns at once.  The callback (119-130)
    runs later, from the event loop, when the reply arrives.  [Service.v]
    runs the two halves back to back; here they are [request_start] and
    [request_callback], and [request_split] shows that [request] is their
    composition.

    Callers may have any number of requests in flight (spec section 5).
    [launch] runs the executors of a batch of calls in program order, as
    [Promise.all(calls.map(...))] or a sequence of un-awaited calls does.
    [deliver] runs the callback of one request in flight.  The network
    delivers replies in any order, so a run of the event loop is a
    delivery order: [deliver_all].  The reply to each request is the
    [Transport]'s answer to it given the requests sent before it.
    Delivery order only changes the order in which uncaught exceptions are
    raised.  Each request settles as it would alone ([request]) in the
    world where its executor ran.  A request's promise stays pending
    exactly when its formatter throws. *)

From S2P Require Import Prelude JsValue Runtime Mock Service.
From stdpp Require Import gmap.
Local Open Scope string_scope.
Local Open Scope js_scope.

(** A request in flight: the [params] its callback reads and the reply
    the network will hand to the callback. *)
Record pending_req := {
  pr_params : obj;
  pr_reply : reply
}.

(** The event loop: the promises settled so far and the requests in
    flight, both by position in the batch, and the world. *)
Record loop_state := {
  ls_settled : gmap nat (promise jsval);
  ls_inflight : gmap nat pending_req;
  ls_world : world
}.

(** A call of [request]: the service, the path and the params. *)
Abbreviation call := (Service * string * obj)%type.

Section event_loop.
Context {R : Realm} {T : Transport}.

(** The executor: build the options (a throw rejects the promise) and
    call the [request] library, which sends the request. *)
Definition request_start (svc : Service) (uri : string) (params : obj) (w : world)
    : result js_error (ReqOpts * reply) * world :=
  match build_opts svc uri params with
  | Exc e => (Exc e, w)
  | Ok opts => (Ok (opts, transport_reply (w_sent w) opts), log_send opts w)
  end.

(** The callback [(error, response, body) => ...]. *)
Definition request_callback (params : obj) (r : reply) (w : world) : promise jsval * world :=
  match r with
  | NetError err => (Rejected (Thrown err), w)
  | NetResponse status body =>
      let enriched := JObject (enrich status body) in
      let fmt := obj_get params "responseFormatter" in
      if truthy fmt then
        match js_call fmt [enriched] with
        | Ok v => (Fulfilled v, w)
        | Exc e => (Pending, raise_uncaught e w)
        end
      else (Fulfilled enriched, w)
  end.

(** Run the executor of the call at position [i]. *)
Definition launch_one (acc : loop_state * nat) (c : call) : loop_state * nat :=
  let '(st, i) := acc in
  let '(svc, uri, params) := c in
  match request_start svc uri params (ls_world st) with
  | (Exc e, w) =>
      ({| ls_settled := <[i := Rejected e]> (ls_settled st); ls_inflight := ls_inflight st;
          ls_world := w |}, S i)
  | (Ok (_, r), w) =>
      ({| ls_settled := ls_settled st;
          ls_inflight := <[i := {| pr_params := params; pr_reply := r |}]> (ls_inflight st);
          ls_world := w |}, S i)
  end.

Definition launch (calls : list call) (w : world) : loop_state :=
  (fold_left launch_one calls ({| ls_settled := ∅; ls_inflight := ∅; ls_world := w |}, 0)).1.

(** The reply to request [i] arrives: its callback runs once. *)
Definition deliver (st : loop_state) (i : nat) : loop_state :=
  match ls_inflight st !! i with
  | None => st
  | Some pr =>
      let (p, w) := request_callback (pr_params pr) (pr_reply pr) (ls_world st) in
      {| ls_settled := <[i := p]> (ls_settled st); ls_inflight := delete i (ls_inflight st);
         ls_world := w |}
  end.

Definition deliver_all (order : list nat) (st : loop_state) : loop_state :=
  fold_left deliver order st.

End event_loop.

(** ** Scenario data *)

(** A batch of three GETs of the demo service: the model listing, the
    same listing with a formatter that throws, and a path the mock server
    does not know. *)
Definition demo_batch : list call :=
  [(demo_service, "/content/models", get_params);
   (demo_service, "/content/models", [("responseFormatter", JFunction 1)]);
   (demo_service, "/x", get_params)].

(** ** Equivalence of event-loop states

    Two states are equivalent when they agree on everything but the order
    of the uncaught exceptions. *)

Definition add_uncaught (es : list js_error) (w : world) : world :=
  {| w_heap := w_heap w; w_sent := w_sent w;
     w_uncaught := w_uncaught w ++ es; w_unhandled := w_unhandled w |}.

Definition world_equiv (w1 w2 : world) : Prop :=
  w_heap w1 = w_heap w2 /\ w_sent w1 = w_sent w2 /\ w_unhandled w1 = w_unhandled w2 /\
  w_uncaught w1 ≡ₚ w_uncaught w2.

Definition ls_equiv (s1 s2 : loop_state) : Prop :=
  ls_settled s1 = ls_settled s2 /\ ls_inflight s1 = ls_inflight s2 /\
  world_equiv (ls_world s1) (ls_world s2).

#[export] Instance world_equiv_equiv : Equivalence world_equiv.
Proof.
  split.
  - intros w. unfold world_equiv. done.
  - intros w1 w2 (? & ? & ? & ?). unfold world_equiv. split_and!; done.
  - intros w1 w2 w3 (? & ? & ? & ?) (? & ? & ? & ?). unfold world_equiv.
    split_and!; try congruence. by etrans.
Qed.

#[export] Instance ls_equiv_equiv : Equivalence ls_equiv.
Proof.
  split.
  - intros s. unfold ls_equiv. done.
  - intros s1 s2 (? & ? & ?). unfold ls_equiv. split_and!; done.
  - intros s1 s2 s3 (? & ? & ?) (? & ? & ?). unfold ls_equiv.
    split_and!; try congruence. by etrans.
Qed.

(** ** Termination of a single request *)

Section termination.
Context {R : Realm} {T : Transport}.

End termination.

(** ** Lemmas *)

Lemma add_uncaught_nil (w : world) : add_uncaught [] w = w.
Proof. destruct w. unfold add_uncaught. cbn. by rewrite app_nil_r. Qed.

Lemma add_uncaught_app (es1 es2 : list js_error) (w : world) :
  add_uncaught es2 (add_uncaught es1 w) = add_uncaught (es1 ++ es2) w.
Proof. unfold add_uncaught. cbn. by rewrite app_assoc. Qed.

Lemma add_uncaught_comm (es1 es2 : list js_error) (w : world) :
  world_equiv (add_uncaught es2 (add_uncaught es1 w)) (add_uncaught es1 (add_uncaught es2 w)).
Proof.
  rewrite !add_uncaught_app. unfold world_equiv, add_uncaught. cbn. split_and!; try done.
  apply Permutation_app_head, Permutation_app_comm.
Qed.

#[export] Instance add_uncaught_proper es : Proper (world_equiv ==> world_equiv) (add_uncaught es).
Proof.
  intros w1 w2 (? & ? & ? & ?). unfold world_equiv, add_uncaught. cbn. split_and!; try done.
  by apply Permutation_app_tail.
Qed.

Section event_loop_lemmas.
Context {R : Realm} {T : Transport}.

(** [request] is its executor followed by its callback. *)
Lemma request_split (svc : Service) (uri : string) (params : obj) (w : world) :
  request svc uri params w =
  match request_start svc uri params w with
  | (Exc e, w1) => (Rejected e, w1)
  | (Ok (_, r), w1) => request_callback params r w1
  end.
Proof.
  unfold request, request_start, request_callback.
  destruct (build_opts svc uri params); [|done]. by destruct (transport_reply _ _).
Qed.

(** The callback's promise does not depend on the world, and its only
    effect is to raise uncaught exceptions. *)
Lemma request_callback_shape (params : obj) (r : reply) :
  exists p es, forall w, request_callback params r w = (p, add_uncaught es w).
Proof.
  unfold request_callback. destruct r as [err|status body].
  - exists (Rejected (Thrown err)), []. intros w. by rewrite add_uncaught_nil.
  - destruct (truthy _); [destruct (js_call _ _) as [v|e]|].
    + exists (Fulfilled v), []. intros w. by rewrite add_uncaught_nil.
    + by exists Pending, [e].
    + eexists _, []. intros w. by rewrite add_uncaught_nil.
Qed.

Lemma deliver_inflight_ne (st : loop_state) (i j : nat) :
  i <> j -> ls_inflight (deliver st i) !! j = ls_inflight st !! j.
Proof.
  intros Hij. unfold deliver. destruct (ls_inflight st !! i) as [pr|]; [|done].
  destruct (request_callback _ _ _). cbn. by rewrite lookup_delete_ne.
Qed.

Lemma deliver_settled_ne (st : loop_state) (i j : nat) :
  i <> j -> ls_settled (deliver st i) !! j = ls_settled st !! j.
Proof.
  intros Hij. unfold deliver. destruct (ls_inflight st !! i) as [pr|]; [|done].
  destruct (request_callback _ _ _). cbn. by rewrite lookup_insert_ne.
Qed.

#[export] Instance deliver_proper : Proper (ls_equiv ==> eq ==> ls_equiv) deliver.
Proof.
  intros s1 s2 (Hs & Hf & Hw) i ? <-. unfold deliver. rewrite Hf.
  destruct (ls_inflight s2 !! i) as [pr|]; [|by split_and!].
  destruct (request_callback_shape (pr_params pr) (pr_reply pr)) as (p & es & Hc).
  rewrite !Hc. unfold ls_equiv. cbn. rewrite Hs. split_and!; try done. by rewrite Hw.
Qed.

Lemma deliver_none (st : loop_state) (i : nat) : ls_inflight st !! i = None -> deliver st i = st.
Proof. unfold deliver. by intros ->. Qed.

Lemma deliver_some (st : loop_state) (i : nat) pr p es :
  ls_inflight st !! i = Some pr ->
  (forall w, request_callback (pr_params pr) (pr_reply pr) w = (p, add_uncaught es w)) ->
  deliver st i = {| ls_settled := <[i := p]> (ls_settled st); ls_inflight := delete i (ls_inflight st);
                    ls_world := add_uncaught es (ls_world st) |}.
Proof. intros Hi Hc. unfold deliver. by rewrite Hi, Hc. Qed.

(** Replies to two different requests may arrive in either order. *)
Lemma deliver_comm (st : loop_state) (i j : nat) :
  ls_equiv (deliver (deliver st i) j) (deliver (deliver st j) i).
Proof.
  destruct (decide (i = j)) as [<-|Hij]; [done|].
  destruct (ls_inflight st !! i) as [pi|] eqn:Ei;
    [|rewrite (deliver_none st i Ei), (deliver_none (deliver st j) i)
        by (rewrite deliver_inflight_ne; congruence); done].
  destruct (ls_inflight st !! j) as [pj|] eqn:Ej;
    [|rewrite (deliver_none st j Ej), (deliver_none (deliver st i) j)
        by (rewrite deliver_inflight_ne; congruence); done].
  destruct (request_callback_shape (pr_params pi) (pr_reply pi)) as (p1 & es1 & H1).
  destruct (request_callback_shape (pr_params pj) (pr_reply pj)) as (p2 & es2 & H2).
  rewrite (deliver_some st i pi p1 es1 Ei H1), (deliver_some st j pj p2 es2 Ej H2).
  rewrite (deliver_some _ j pj p2 es2), (deliver_some _ i pi p1 es1)
    by (cbn [ls_inflight]; rewrite ?lookup_delete_ne by congruence; done).
  unfold ls_equiv. cbn. split_and!.
  - apply insert_insert_ne; congruence.
  - apply delete_delete.
  - apply add_uncaught_comm.
Qed.

#[export] Instance deliver_all_proper :
  Proper (Permutation ==> ls_equiv ==> ls_equiv) deliver_all.
Proof.
  intros o1 o2 Ho. unfold deliver_all. induction Ho as [|i o1 o2 _ IH|i j o|o1 o2 o3 _ IH1 _ IH2];
    intros s1 s2 Hs; cbn [fold_left].
  - done.
  - apply IH. by rewrite Hs.
  - assert (Hfold : forall o s1 s2, ls_equiv s1 s2 ->
              ls_equiv (fold_left deliver o s1) (fold_left deliver o s2)).
    { intros o'; induction o' as [|k o' IHo]; intros; cbn [fold_left]; [done|].
      apply IHo. by rewrite H. }
    apply Hfold. rewrite Hs. symmetry. apply deliver_comm.
  - etrans; [by apply IH1|]. by apply IH2.
Qed.
Lemma deliver_all_cons (i : nat) (order : list nat) (st : loop_state) :
  deliver_all (i :: order) st = deliver_all order (deliver st i).
Proof. reflexivity. Qed.

Lemma deliver_world (st : loop_state) (i : nat) :
  exists es, ls_world (deliver st i) = add_uncaught es (ls_world st).
Proof.
  destruct (ls_inflight st !! i) as [pr|] eqn:Ei.
  - destruct (request_callback_shape (pr_params pr) (pr_reply pr)) as (p & es & Hc).
    exists es. by rewrite (deliver_some st i pr p es Ei Hc).
  - exists []. by rewrite deliver_none, add_uncaught_nil.
Qed.

(** Delivery only raises uncaught exceptions: the heap, the requests sent
    and the unhandled rejections are those of the launch. *)
Lemma deliver_all_world (order : list nat) (st : loop_state) :
  w_heap (ls_world (deliver_all order st)) = w_heap (ls_world st) /\
  w_sent (ls_world (deliver_all order st)) = w_sent (ls_world st) /\
  w_unhandled (ls_world (deliver_all order st)) = w_unhandled (ls_world st).
Proof.
  revert st. induction order as [|i order IH]; intros st; [done|].
  rewrite !deliver_all_cons. destruct (IH (deliver st i)) as (-> & -> & ->).
  destruct (deliver_world st i) as [es ->]. done.
Qed.

(** A request no longer in flight keeps its settled promise. *)
Lemma deliver_all_kept (order : list nat) (st : loop_state) (k : nat) :
  ls_inflight st !! k = None ->
  ls_settled (deliver_all order st) !! k = ls_settled st !! k /\
  ls_inflight (deliver_all order st) !! k = None.
Proof.
  revert st. induction order as [|i order IH]; intros st Hk; [done|].
  rewrite deliver_all_cons. destruct (decide (i = k)) as [<-|Hik].
  - rewrite deliver_none by done. by apply IH.
  - rewrite <- (deliver_settled_ne st i k Hik). apply IH. by rewrite deliver_inflight_ne.
Qed.

(** A request in flight whose reply is delivered settles with the
    callback's promise. *)
Lemma deliver_all_delivered (order : list nat) (st : loop_state) (k : nat) pr w :
  ls_inflight st !! k = Some pr -> k ∈ order ->
  ls_settled (deliver_all order st) !! k = Some (request_callback (pr_params pr) (pr_reply pr) w).1 /\
  ls_inflight (deliver_all order st) !! k = None.
Proof.
  revert st. induction order as [|i order IH]; intros st Hk Hin;
    [by apply elem_of_nil in Hin|].
  rewrite deliver_all_cons. destruct (decide (i = k)) as [<-|Hik].
  - destruct (request_callback_shape (pr_params pr) (pr_reply pr)) as (p & es & Hc).
    rewrite (deliver_some st i pr p es Hk Hc), Hc. cbn.
    destruct (deliver_all_kept order {| ls_settled := <[i:=p]> (ls_settled st);
                ls_inflight := delete i (ls_inflight st); ls_world := add_uncaught es (ls_world st) |} i)
      as [-> ->]; [by cbn; rewrite lookup_delete_eq|]. by cbn; rewrite lookup_insert_eq.
  - apply IH; [by rewrite deliver_inflight_ne|]. apply elem_of_cons in Hin. naive_solver.
Qed.

End event_loop_lemmas.

Section launch_lemmas.
Context {R : Realm} {T : Transport}.

Lemma launch_one_index (st : loop_state) (n : nat) (c : call) : (launch_one (st, n) c).2 = S n.
Proof.
  destruct c as [[svc uri] params]. cbn. by destruct (request_start _ _ _ _) as [[[]|] ?].
Qed.

Lemma launch_one_outside (st : loop_state) (n k : nat) (c : call) : k <> n ->
  ls_settled (launch_one (st, n) c).1 !! k = ls_settled st !! k /\
  ls_inflight (launch_one (st, n) c).1 !! k = ls_inflight st !! k.
Proof.
  intros Hk. destruct c as [[svc uri] params]. cbn.
  destruct (request_start _ _ _ _) as [[[]|] ?]; cbn; by rewrite lookup_insert_ne.
Qed.

Lemma launch_fold_index (calls : list call) (st : loop_state) (n : nat) :
  (fold_left launch_one calls (st, n)).2 = n + length calls.
Proof.
  revert st n. induction calls as [|c calls IH]; intros st n; cbn [fold_left length]; [cbn; lia|].
  destruct (launch_one (st, n) c) as [st' n'] eqn:E.
  pose proof (launch_one_index st n c) as Hi. rewrite E in Hi. cbn in Hi. subst. rewrite IH. lia.
Qed.

(** Launching only writes the positions of the calls it runs. *)
Lemma launch_fold_outside (calls : list call) (st : loop_state) (n k : nat) :
  k < n \/ n + length calls <= k ->
  ls_settled (fold_left launch_one calls (st, n)).1 !! k = ls_settled st !! k /\
  ls_inflight (fold_left launch_one calls (st, n)).1 !! k = ls_inflight st !! k.
Proof.
  revert st n. induction calls as [|c calls IH]; intros st n Hk; cbn [fold_left length] in *; [done|].
  destruct (launch_one (st, n) c) as [st' n'] eqn:E.
  pose proof (launch_one_index st n c) as Hi. pose proof (launch_one_outside st n k c) as Ho.
  rewrite E in Hi, Ho. cbn in Hi, Ho. subst n'. destruct Ho as [<- <-]; [lia|]. apply IH. lia.
Qed.

(** The position of a call in its batch, and what launching leaves there:
    a rejection, or the request in flight with the reply the network gives
    it after the requests sent before it. *)
Lemma launch_at (pre post : list call) svc uri params (w : world) :
  let st := launch pre w in
  let st' := launch (pre ++ (svc, uri, params) :: post) w in
  match request_start svc uri params (ls_world st) with
  | (Exc e, _) => ls_settled st' !! length pre = Some (Rejected e) /\ ls_inflight st' !! length pre = None
  | (Ok (_, r), _) => ls_inflight st' !! length pre = Some {| pr_params := params; pr_reply := r |}
  end.
Proof.
  cbn zeta. unfold launch. rewrite fold_left_app.
  change (fold_left launch_one (?c :: post) ?y) with (fold_left launch_one post (launch_one y c)).
  set (x := {| ls_settled := ∅; ls_inflight := ∅; ls_world := w |}).
  pose proof (launch_fold_index pre x 0) as Hi.
  pose proof (launch_fold_outside pre x 0 (length pre)) as [_ Hnone]; [lia|].
  destruct (fold_left launch_one pre (x, 0)) as [st n] eqn:E. cbn in Hi, Hnone. subst n.
  destruct (launch_fold_outside post (launch_one (st, length pre) (svc, uri, params)).1 (S (length pre))
              (length pre)) as [Hs Hf]; [lia|].
  rewrite <- (launch_one_index st (length pre) (svc, uri, params)) in Hs, Hf.
  rewrite <- surjective_pairing in Hs, Hf. rewrite Hs, Hf. cbn.
  destruct (request_start svc uri params (ls_world st)) as [[[opts r]|e] w1]; cbn;
    by rewrite ?lookup_insert_eq.
Qed.

(** The options [build_opts] gives a call, when its executor does not
    throw. *)
Lemma launch_one_world (st : loop_state) (n : nat) (c : call) :
  let w' := ls_world (launch_one (st, n) c).1 in
  w_heap w' = w_heap (ls_world st) /\ w_unhandled w' = w_unhandled (ls_world st) /\
  w_sent w' = (w_sent (ls_world st) ++
                 match build_opts c.1.1 c.1.2 c.2 with Ok o => [o] | Exc _ => [] end)%list.
Proof.
  destruct c as [[svc uri] params]. cbn. unfold request_start.
  destruct (build_opts svc uri params); cbn; by rewrite ?app_nil_r.
Qed.

Lemma launch_fold_world (calls : list call) (st : loop_state) (n : nat) :
  let w' := ls_world (fold_left launch_one calls (st, n)).1 in
  w_heap w' = w_heap (ls_world st) /\ w_unhandled w' = w_unhandled (ls_world st) /\
  w_sent w' = (w_sent (ls_world st) ++
    omap (fun c => match build_opts c.1.1 c.1.2 c.2 with Ok o => Some o | Exc _ => None end) calls)%list.
Proof.
  revert st n. induction calls as [|c calls IH]; intros st n; cbn [fold_left omap];
    [by rewrite app_nil_r|].
  pose proof (launch_one_world st n c) as (Hh & Hu & Hs).
  destruct (launch_one (st, n) c) as [st1 n1]. cbn in Hh, Hu, Hs.
  destruct (IH st1 n1) as (-> & -> & ->). rewrite Hh, Hu, Hs, <- app_assoc.
  split_and!; [done..|]. f_equal. cbn. by destruct (build_opts _ _ _).
Qed.
End launch_lemmas.

Section batch_lemmas.
Context {R : Realm} {T : Transport}.

(** Where the reply of a call is delivered, the call has settled as
    [request] alone settles in the world its executor ran in, and it is
    no longer in flight. *)
Lemma batch_position (pre post : list call) svc uri params (w : world) (order : list nat) :
  length pre ∈ order ->
  ls_settled (deliver_all order (launch (pre ++ (svc, uri, params) :: post) w)) !! length pre =
    Some (request svc uri params (ls_world (launch pre w))).1 /\
  ls_inflight (deliver_all order (launch (pre ++ (svc, uri, params) :: post) w)) !! length pre = None.
Proof.
  intros Hin. pose proof (launch_at pre post svc uri params w) as Hl. cbn zeta in Hl.
  rewrite request_split.
  destruct (request_start svc uri params (ls_world (launch pre w))) as [[[opts r]|e] w1].
  - exact (deliver_all_delivered order _ _ _ w1 Hl Hin).
  - destruct Hl as [Hs Hf]. cbn [fst]. rewrite <- Hs. by apply deliver_all_kept.
Qed.

(** Positions past the end of the batch hold nothing. *)
Lemma batch_outside (calls : list call) (w : world) (order : list nat) (k : nat) :
  length calls <= k ->
  ls_settled (deliver_all order (launch calls w)) !! k = None /\
  ls_inflight (deliver_all order (launch calls w)) !! k = None.
Proof.
  intros Hk.
  pose proof (launch_fold_outside calls {| ls_settled := ∅; ls_inflight := ∅; ls_world := w |} 0 k)
    as [Hs Hf]; [lia|].
  destruct (deliver_all_kept order (launch calls w) k) as [-> ->]; [done|].
  split; [|done]. exact Hs.
Qed.
End batch_lemmas.

(** ** Theorems *)

Section theorems.
Context {R : Realm} {T : Transport}.

(** C31: for a batch of calls in flight, the order in which the network
    delivers the replies changes nothing but the order of the uncaught
    exceptions: the same promises settle with the same values, the same
    requests stay in flight, and the heap, the requests sent and the
    unhandled rejections are the same. *)
Theorem delivery_order_irrelevant (calls : list call) (w : world) (o1 o2 : list nat) :
  o1 ≡ₚ o2 ->
  ls_settled (deliver_all o1 (launch calls w)) = ls_settled (deliver_all o2 (launch calls w)) /\
  ls_inflight (deliver_all o1 (launch calls w)) = ls_inflight (deliver_all o2 (launch calls w)) /\
  w_heap (ls_world (deliver_all o1 (launch calls w))) = w_heap (ls_world (deliver_all o2 (launch calls w))) /\
  w_sent (ls_world (deliver_all o1 (launch calls w))) = w_sent (ls_world (deliver_all o2 (launch calls w))) /\
  w_unhandled (ls_world (deliver_all o1 (launch calls w))) =
    w_unhandled (ls_world (deliver_all o2 (launch calls w))) /\
  w_uncaught (ls_world (deliver_all o1 (launch calls w))) ≡ₚ
    w_uncaught (ls_world (deliver_all o2 (launch calls w))).
Proof.
  intros Ho. change (ls_equiv (deliver_all o1 (launch calls w)) (deliver_all o2 (launch calls w))).
  by rewrite Ho.
Qed.

(** C30: each call of a batch resolves independently (spec section 5): once
    its reply is delivered, whatever the replies delivered before, its
    promise is the one [request] alone gives in the world where the call's
    executor ran, after the executors of the calls before it. *)
Theorem batch_settles_as_alone (pre post : list call) svc uri params (w : world) (order : list nat) :
  length pre ∈ order ->
  ls_settled (deliver_all order (launch (pre ++ (svc, uri, params) :: post) w)) !! length pre =
    Some (request svc uri params (ls_world (launch pre w))).1.
Proof. intros Hin. by apply batch_position. Qed.

(** C32: once every reply of a batch is delivered, nothing is in flight and
    every call, and only the calls, has a promise.  The requests reached
    the network in program order, one per call whose executor did not
    throw, and the heap and the unhandled rejections are unchanged. *)
Theorem batch_drains (calls : list call) (w : world) (order : list nat) :
  (forall k, k < length calls -> k ∈ order) ->
  ls_inflight (deliver_all order (launch calls w)) = ∅ /\
  (forall k, is_Some (ls_settled (deliver_all order (launch calls w)) !! k) <-> k < length calls) /\
  w_heap (ls_world (deliver_all order (launch calls w))) = w_heap w /\
  w_unhandled (ls_world (deliver_all order (launch calls w))) = w_unhandled w /\
  w_sent (ls_world (deliver_all order (launch calls w))) =
    (w_sent w ++ omap (fun c => match build_opts c.1.1 c.1.2 c.2 with Ok o => Some o | Exc _ => None end)
                   calls)%list.
Proof.
  intros Hall.
  assert (Hpos : forall k, k < length calls ->
            is_Some (ls_settled (deliver_all order (launch calls w)) !! k) /\
            ls_inflight (deliver_all order (launch calls w)) !! k = None).
  { intros k Hk. destruct (lookup_lt_is_Some_2 calls k Hk) as [[[svc uri] params] Hc].
    rewrite <- (take_drop_middle calls k _ Hc).
    pose proof (batch_position (take k calls) (drop (S k) calls) svc uri params w order) as [Hs Hf];
      [rewrite length_take_le by lia; auto|].
    rewrite length_take_le in Hs, Hf by lia. rewrite Hs. by split. }
  pose proof (deliver_all_world order (launch calls w)) as (-> & -> & ->).
  pose proof (launch_fold_world calls {| ls_settled := ∅; ls_inflight := ∅; ls_world := w |} 0)
    as (Hh & Hu & Hs).
  unfold launch. rewrite Hh, Hu, Hs. fold (launch calls w). split_and!; [|intros k; split|done..].
  - apply map_eq. intros k. rewrite lookup_empty.
    destruct (decide (k < length calls)); [apply Hpos | apply (batch_outside calls w order)]; lia.
  - intros Hk. destruct (decide (k < length calls)); [done|].
    rewrite (proj1 (batch_outside calls w order k ltac:(lia))) in Hk. by destruct Hk.
  - intros Hk. by apply Hpos.
Qed.
End theorems.

(** ** Witnesses *)

Section witnesses.
#[local] Existing Instance mock_realm.
#[local] Existing Instance models_transport.

Lemma delivery_order_irrelevant_witness :
  Permutation [0; 1; 2] [2; 0; 1] /\
  ls_settled (deliver_all [0; 1; 2] (launch demo_batch empty_world)) =
  ls_settled (deliver_all [2; 0; 1] (launch demo_batch empty_world)).
Proof.
  assert (Hp : Permutation [0; 1; 2] [2; 0; 1]) by (apply (bool_decide_unpack _); vm_compute; exact I).
  split; [exact Hp|]. exact (proj1 (delivery_order_irrelevant demo_batch empty_world _ _ Hp)).
Defined.

Lemma batch_settles_as_alone_witness :
  1 ∈ [2; 1; 0] /\
  ls_settled (deliver_all [2; 1; 0] (launch demo_batch empty_world)) !! 1 =
    Some (request demo_service "/content/models" [("responseFormatter", JFunction 1)]
            (ls_world (launch [(demo_service, "/content/models", get_params)] empty_world))).1.
Proof.
  assert (Hin : 1 ∈ [2; 1; 0]) by (apply (bool_decide_unpack _); vm_compute; exact I).
  split; [exact Hin|].
  exact (batch_settles_as_alone [(demo_service, "/content/models", get_params)]
           [(demo_service, "/x", get_params)] demo_service "/content/models"
           [("responseFormatter", JFunction 1)] empty_world [2; 1; 0] Hin).
Defined.

Lemma batch_drains_witness :
  (forall k, k < length demo_batch -> k ∈ [2; 1; 0]) /\
  ls_inflight (deliver_all [2; 1; 0] (launch demo_batch empty_world)) = ∅.
Proof.
  assert (Hall : forall k, k < length demo_batch -> k ∈ [2; 1; 0]).
  { intros k Hk. cbn in Hk. destruct k as [|[|[|k]]]; [..|lia];
      apply (bool_decide_unpack _); vm_compute; exact I. }
  split; [exact Hall|]. exact (proj1 (batch_drains demo_batch empty_world [2; 1; 0] Hall)).
Defined.
End witnesses.
