(* ===== verification/Instance.v ===== *)
(** * The instance service: [src/services/instance/index.js]

    [Instance] is a [Service] built with [MixinBuilder]: the mixins of the
    Models, Fields, Items, Settings and AuditLogs modules are applied in
    turn to [Service], so that a later mixin's methods shadow an earlier
    one's.  Its constructor checks [instanceZUID], resolves the base URL
    and the legacy sites-service URL (an option, else an environment
    variable, else a per-instance default), builds itself and a legacy
    [Service] with the same token, and merges the endpoint tables of the
    modules with object spread, where a later table wins.  [formatPath]
    turns a path into a slug by a chain of method calls, each dispatched
    on its receiver: a string uses the [String.prototype] method, any
    other value its own method, so an object with its own [trim] is a
    valid path.

    The modules themselves are not under src/: the class [InstanceModules]
    is the interface they present to [Instance] (their endpoint tables),
    and a mixin is modelled as the specification describes it, a subclass
    adding a table of methods ([mixin], spec-modelled). *)

From S2P Require Import Prelude JsValue JsString Cookie Runtime Mock Service.
From stdpp Require Import gmap.
Local Open Scope string_scope.
Local Open Scope js_scope.

(** ** Mixins *)

(** A class as the chain of its method tables, the most derived first. *)
Abbreviation class := (list obj).

(** A mixin: [superclass => class extends superclass { methods }]. *)
Definition mixin (methods : obj) : class -> class := fun superclass => methods :: superclass.

(** [mix(superclass).with(...mixins)]: [mixins.reduce((c, mixin) => mixin(c), superclass)]. *)
Definition MixinBuilder_with (superclass : class) (mixins : list (class -> class)) : class :=
  fold_left (fun c m => m c) mixins superclass.

(** Method lookup along the prototype chain. *)
Fixpoint resolve (c : class) (name : string) : option jsval :=
  match c with
  | [] => None
  | t :: c' => match obj_lookup t name with Some v => Some v | None => resolve c' name end
  end.

(** ** The modules' interface *)

(** The endpoint tables of the modules an [Instance] is made of, and the
    method tables their mixins add. *)
Class InstanceModules := {
  models_API : jsval;
  fields_API : jsval;
  items_API : jsval;
  settings_API : jsval;
  auditLogs_API : jsval;
  items_legacy_API : jsval;
  models_methods : obj;
  fields_methods : obj;
  items_methods : obj;
  settings_methods : obj;
  auditLogs_methods : obj
}.

(** ** The instance object *)

Record InstanceObj := {
  inst_service : Service;
  inst_legacy : Service;
  inst_legacy_API : obj;
  inst_API : obj
}.

(** [{ ...t1, ...t2, ... }]. *)
Definition spread_all (tables : list jsval) : obj :=
  fold_left copy_data_properties tables [].

(** [formatPath]'s two regular-expression replacements. *)
(** [.replace(/\&/g, "and")]. *)
Definition amp_to_and (s : string) : string :=
  str_flat_map (fun c => if ascii_dec c "&" then "and" else String c EmptyString) s.

(** [.replace(/[^a-zA-Z0-9]/g, "-")]. *)
Definition non_alnum_to_dash (s : string) : string :=
  str_map (fun c => if is_alnum c then c else "-"%char) s.

(** The value of [k] in the last table that has it as an own enumerable
    property. *)
Fixpoint last_defining (ts : list jsval) (k : string) : option jsval :=
  match ts with
  | [] => None
  | t :: ts' =>
      match last_defining ts' k with
      | Some v => Some v
      | None => if decide (k ∈ enum_keys t) then Some (get_prop t k) else None
      end
  end.

(** The code units of a slug: [a-z], [0-9] and [-]. *)
Definition slug_char (c : ascii) : bool :=
  let n := nat_of_ascii c in
  (Nat.leb 97 n && Nat.leb n 122) || (Nat.leb 48 n && Nat.leb n 57) || Nat.eqb n 45.

Definition not_upper (c : ascii) : bool :=
  negb (Nat.leb 65 (nat_of_ascii c) && Nat.leb (nat_of_ascii c) 90).

Fixpoint str_count (c : ascii) (s : string) : nat :=
  match s with
  | EmptyString => 0
  | String d s' => (if ascii_dec c d then 1 else 0) + str_count c s'
  end.

Section instance.
Context {R : Realm} {M : InstanceModules}.

(** The class [Instance] extends. *)
Definition Instance_class (service_methods : obj) : class :=
  MixinBuilder_with [service_methods]
    [mixin models_methods; mixin fields_methods; mixin items_methods;
     mixin settings_methods; mixin auditLogs_methods].

(** [new Instance(instanceZUID, token, options)]. *)
Definition Instance_new (e : env) (instanceZUID token options : jsval) : result js_error InstanceObj :=
  if negb (truthy instanceZUID) then
    Exc (ErrorObj "SDK:Instance:constructor() missing required `instanceZUID` argument on instantiation")
  else
  let opts := match options with JUndefined => JObject [] | o => o end in
  let? api_opt := get_prop_checked opts "instancesAPIURL" in
  let baseAPI := js_or api_opt (js_or (env_get e "ZESTY_INSTANCE_API")
                   (JString ("https://" ++ to_string instanceZUID ++ ".api.zesty.io/v1"))) in
  let? sites_opt := get_prop_checked opts "sitesServiceURL" in
  let sitesServiceURL := js_or sites_opt (js_or (env_get e "ZESTY_INSTANCE_LEGACY_API")
                   (JString ("https://svc.zesty.io/sites-service/" ++ to_string instanceZUID))) in
  let? svc := Service_new e baseAPI token in
  let? legacy := Service_new e sitesServiceURL token in
  Ok {| inst_service := svc;
        inst_legacy := legacy;
        inst_legacy_API := spread_all [items_legacy_API];
        inst_API := spread_all [models_API; fields_API; items_API; settings_API; auditLogs_API] |}.

(** [recv.m(args)] on a receiver that is not a string, [text] being the
    source text of [recv] that the error message quotes.  The method is
    the receiver's own property [m]: no built-in prototype of a value
    other than a string has [trim], [toLowerCase] or [replace].  Reading
    a property of [undefined] or [null] throws, and calling a property
    that is not a function is a [TypeError]. *)
Definition call_method (text : string) (recv : jsval) (m : string) (args : list jsval)
    : result js_error jsval :=
  let? f := get_prop_checked recv m in
  match f with
  | JFunction _ => js_call f args
  | _ => Exc (TypeErrorObj (text ++ "." ++ m ++ " is not a function"))
  end.

(** [recv.m(args)] where the [String.prototype] method is [f]. *)
Definition string_method (text : string) (recv : jsval) (m : string) (args : list jsval)
    (f : string -> string) : result js_error jsval :=
  match recv with
  | JString s => Ok (JString (f s))
  | _ => call_method text recv m args
  end.

(** A regular-expression literal as a method of the caller's object sees
    it: a fresh RegExp object, whose only own property is [lastIndex]
    ([source], [flags] and [global] are accessors of [RegExp.prototype],
    which the object model does not hold). *)
Definition regexp_literal : jsval := JObject [("lastIndex", JNumber 0)].

(** [formatPath(path)]: [path.trim().toLowerCase().replace(/\&/g, "and")
    .replace(/[^a-zA-Z0-9]/g, "-")], each call dispatched on its
    receiver. *)
Definition formatPath (path : jsval) : result js_error jsval :=
  if negb (truthy path) then
    Exc (ErrorObj "SDK:Instance:formatPath() missing required `path` argument")
  else
    let? t := string_method "path" path "trim" [] trim in
    let? l := string_method "path.trim(...)" t "toLowerCase" [] to_lower in
    let? a := string_method "path.trim(...).toLowerCase(...)" l "replace"
                [regexp_literal; JString "and"] amp_to_and in
    string_method "path.trim(...).toLowerCase(...).replace(...)" a "replace"
      [regexp_literal; JString "-"] non_alnum_to_dash.
End instance.

(** ** Scenario data *)

(** Endpoint tables of the shape the modules have (their code is not under
    src/; the entries are illustrative): Settings and AuditLogs both
    define [fetchAll], and Settings' mixin and Models' mixin both define a
    method [get]. *)
Definition demo_modules : InstanceModules := {|
  models_API := JObject [("fetchModels", JString "/content/models"); ("fetchModel", JString "/content/models/MODEL_ZUID")];
  fields_API := JObject [("fetchFields", JString "/content/models/MODEL_ZUID/fields")];
  items_API := JObject [("fetchItems", JString "/content/models/MODEL_ZUID/items")];
  settings_API := JObject [("fetchSettings", JString "/env/settings"); ("fetchAll", JString "/env/settings")];
  auditLogs_API := JObject [("fetchAuditLogs", JString "/env/audits"); ("fetchAll", JString "/env/audits")];
  items_legacy_API := JObject [("publishItem", JString "/content/items/ITEM_ZUID/publish-schedule")];
  models_methods := [("get", JFunction 20); ("getModels", JFunction 21)];
  fields_methods := [("getFields", JFunction 22)];
  items_methods := [("getItems", JFunction 23)];
  settings_methods := [("get", JFunction 24); ("getSettings", JFunction 25)];
  auditLogs_methods := [("getAuditLogs", JFunction 26)]
|}.

(** ** Helper lemmas *)

Lemma spread_all_lookup_gen (ts : list jsval) (acc : obj) (k : string) :
  obj_lookup (fold_left copy_data_properties ts acc) k =
  match last_defining ts k with Some v => Some v | None => obj_lookup acc k end.
Proof.
  revert acc; induction ts as [|t ts IH]; intros acc; [done|]. cbn [fold_left last_defining].
  rewrite IH. destruct (last_defining ts k); [done|].
  rewrite lookup_copy_data_properties. by decide_step.
Qed.

Lemma MixinBuilder_with_mixins (c : class) (ts : list obj) :
  MixinBuilder_with c (map mixin ts) = (rev ts ++ c)%list.
Proof.
  unfold MixinBuilder_with. revert c; induction ts as [|t ts IH]; intros c; [done|].
  cbn [map fold_left]. rewrite IH. unfold mixin. cbn. by rewrite <- app_assoc.
Qed.

Lemma resolve_app (c1 c2 : class) (n : string) :
  resolve (c1 ++ c2) n = match resolve c1 n with Some v => Some v | None => resolve c2 n end.
Proof.
  induction c1 as [|t c1 IH]; [done|]. cbn. destruct (obj_lookup t n); [done | exact IH].
Qed.

Lemma lower_char_not_upper (c : ascii) : not_upper (lower_char c) = true.
Proof.
  unfold not_upper, lower_char.
  destruct (_ || _) eqn:E.
  - assert (nat_of_ascii c <= 222) by (revert E; nat_bool_cases; intros; (discriminate || lia)).
    rewrite nat_ascii_embedding by lia.
    revert E. nat_bool_cases; intros; (done || discriminate || (exfalso; lia)).
  - revert E. nat_bool_cases; intros; (done || discriminate || (exfalso; lia)).
Qed.

(** Decide a property of one code unit from the ranges of its code. *)
Ltac char_range :=
  repeat match goal with H : _ = true |- _ => revert H end;
  nat_bool_cases; intros; (done || discriminate || lia || (exfalso; lia)).

Lemma nat_ascii_eq (c : ascii) (n : nat) : nat_of_ascii c = n -> c = ascii_of_nat n.
Proof. intros <-. by rewrite ascii_nat_embedding. Qed.

Lemma slug_not_ws (c : ascii) : slug_char c = true -> negb (js_whitespace c) = true.
Proof. unfold slug_char, js_whitespace. char_range. Qed.

Lemma slug_lower (c : ascii) : slug_char c = true -> lower_char c = c.
Proof.
  intros Hs. unfold lower_char. destruct (_ || _) eqn:E; [|done].
  exfalso. revert Hs E. unfold slug_char. char_range.
Qed.

Lemma slug_dash (c : ascii) : slug_char c = true -> (if is_alnum c then c else "-"%char) = c.
Proof.
  intros Hs. destruct (is_alnum c) eqn:E; [done|].
  assert (Hn : nat_of_ascii c = 45) by (revert Hs E; unfold slug_char, is_alnum; char_range).
  by rewrite (nat_ascii_eq c 45 Hn).
Qed.

Lemma slug_no_amp (c : ascii) :
  slug_char c = true -> (if ascii_dec c "&" then "and" else String c EmptyString) = String c EmptyString.
Proof. intros Hs. destruct (ascii_dec c "&") as [->|]; [discriminate | done]. Qed.

Lemma dash_slug (c : ascii) : not_upper c = true -> slug_char (if is_alnum c then c else "-"%char) = true.
Proof. intros Hu. destruct (is_alnum c) eqn:E; [|done]. revert Hu E. unfold not_upper, is_alnum, slug_char. char_range. Qed.

Lemma amp_not_upper (c : ascii) :
  not_upper c = true ->
  str_forall not_upper (if ascii_dec c "&" then "and" else String c EmptyString) = true.
Proof. intros Hu. destruct (ascii_dec c "&"); cbn; [done | by rewrite Hu]. Qed.

Lemma lower_char_amp (c : ascii) : (if ascii_dec "&" (lower_char c) then 1 else 0) = (if ascii_dec "&" c then 1 else 0).
Proof.
  unfold lower_char. destruct (_ || _) eqn:E; [|done].
  assert (Hn : 65 <= nat_of_ascii c <= 222) by (revert E; char_range).
  destruct (ascii_dec "&" c) as [<-|_]; [discriminate|].
  destruct (ascii_dec "&" _) as [Ha|]; [|done].
  apply (f_equal nat_of_ascii) in Ha. change (nat_of_ascii "&") with 38 in Ha.
  rewrite nat_ascii_embedding in Ha; lia.
Qed.

Lemma str_forall_true (s : string) : str_forall (fun _ => true) s = true.
Proof. induction s; cbn; auto. Qed.

(** The slug [formatPath] computes is made of [a-z0-9-]. *)
Lemma format_slug (s : string) :
  str_forall slug_char (non_alnum_to_dash (amp_to_and (to_lower (trim s)))) = true.
Proof.
  apply (str_forall_map _ not_upper); [apply dash_slug|].
  apply (str_forall_flat_map _ not_upper); [apply amp_not_upper|].
  apply (str_forall_map _ (fun _ => true)); [intros c _; apply lower_char_not_upper | apply str_forall_true].
Qed.

(** A slug is a fixed point of each step of [formatPath]. *)
Lemma format_slug_fixed (r : string) :
  str_forall slug_char r = true -> non_alnum_to_dash (amp_to_and (to_lower (trim r))) = r.
Proof.
  intros Hr. rewrite trim_nows by (apply (str_forall_impl slug_char); [apply slug_not_ws | done]).
  unfold to_lower, amp_to_and, non_alnum_to_dash.
  rewrite (str_map_id lower_char slug_char), (str_flat_map_id _ slug_char), (str_map_id _ slug_char);
    auto using slug_lower, slug_no_amp, slug_dash.
Qed.

Lemma amp_to_and_length (s : string) :
  String.length (amp_to_and s) = String.length s + 2 * str_count "&" s.
Proof.
  unfold amp_to_and. induction s as [|c s IH]; cbn [str_flat_map str_count]; [done|].
  rewrite str_length_app, IH.
  destruct (ascii_dec "&" c) as [Hc'|Hc']; destruct (ascii_dec c "&") as [Hc|Hc];
    cbn [String.length]; try congruence; lia.
Qed.

Lemma to_lower_count_amp (s : string) : str_count "&" (to_lower s) = str_count "&" s.
Proof. unfold to_lower. induction s as [|c s IH]; cbn; [done|]. by rewrite lower_char_amp, IH. Qed.

Lemma trim_start_ws (s : string) : str_forall js_whitespace s = true -> trim_start s = "".
Proof.
  induction s as [|c s IH]; cbn; [done|]. intros [Hc Hs]%andb_true_iff. rewrite Hc. auto.
Qed.

Lemma get_prop_checked_obj (opts : jsval) (k : string) :
  (opts = JUndefined \/ exists p, opts = JObject p) ->
  get_prop_checked (match opts with JUndefined => JObject [] | o => o end) k
  = Ok (get_prop (match opts with JUndefined => JObject [] | o => o end) k).
Proof. by intros [->|[p ->]]. Qed.

Lemma js_or_truthy_right (a b : jsval) : truthy b = true -> truthy (js_or a b) = true.
Proof. unfold js_or. by destruct (truthy a) eqn:E. Qed.

Lemma default_url_truthy (prefix x suffix : string) :
  prefix <> "" -> truthy (JString (prefix ++ x ++ suffix)) = true.
Proof. destruct prefix; [done|]. intros _. reflexivity. Qed.

(** [option || process.env.X || default]. *)
Lemma url_precedence (o : jsval) (e : env) (k d : string) :
  js_or o (js_or (env_get e k) (JString d)) =
  if truthy o then o else
  match e !! k with
  | Some v => if String.eqb v "" then JString d else JString v
  | None => JString d
  end.
Proof.
  unfold js_or, env_get. destruct (truthy o); [done|].
  destruct (e !! k); cbn; [|done]. by destruct (String.eqb s "").
Qed.

Lemma get_prop_default (options : jsval) (k : string) :
  (options = JUndefined \/ exists p, options = JObject p) ->
  get_prop (match options with JUndefined => JObject [] | o => o end) k = get_prop options k.
Proof. by intros [->|[p ->]]. Qed.

(** A method that is an own function property of an object. *)
Lemma call_method_object `{Realm} (text : string) (o : obj) (m : string) (args : list jsval) (f : nat) :
  obj_get o m = JFunction f -> call_method text (JObject o) m args = realm_call f args.
Proof. intros Hf. unfold call_method. cbn. by rewrite Hf. Qed.

(** On a non-empty string every call of the chain is the
    [String.prototype] method. *)
Lemma formatPath_string `{Realm} (s : string) :
  s <> "" -> formatPath (JString s) = Ok (JString (non_alnum_to_dash (amp_to_and (to_lower (trim s))))).
Proof. intros Hs. unfold formatPath. by rewrite (proj2 (truthy_string _)) by done. Qed.

Lemma formatPath_string_inv `{Realm} (s : string) (v : jsval) :
  formatPath (JString s) = Ok v ->
  s <> "" /\ v = JString (non_alnum_to_dash (amp_to_and (to_lower (trim s)))).
Proof.
  destruct (decide (s = "")) as [->|Hs]; [discriminate|].
  rewrite formatPath_string by done. by intros [= <-].
Qed.

Section instance_theorems.
Context {R : Realm} {M : InstanceModules}.

(** C13: the constructor fails first on a falsy [instanceZUID], then (for
    [options] omitted or an object) on a falsy token, with the message of
    [Service]; [options] of [null] is a [TypeError]. *)
Theorem Instance_new_errors e z t options :
  (truthy z = false -> Instance_new e z t options =
     Exc (ErrorObj "SDK:Instance:constructor() missing required `instanceZUID` argument on instantiation")) /\
  (truthy z = true -> options = JNull ->
     exists msg, Instance_new e z t options = Exc (TypeErrorObj msg)) /\
  (truthy z = true -> truthy t = false -> (options = JUndefined \/ exists p, options = JObject p) ->
     Instance_new e z t options =
     Exc (ErrorObj "SDK:Service:constructor() missing required `token` argument on instantiation. All API requests have to be authenticated")).
Proof.
  unfold Instance_new. split_and!; intros Hz; rewrite Hz; cbn [negb]; [done | intros ->; eauto |].
  intros Ht Ho. rewrite !get_prop_checked_obj by done. cbn [result_bind].
  unfold Service_new. rewrite js_or_truthy_right; [cbn [negb]; by rewrite Ht|].
  apply js_or_truthy_right. unfold js_or. destruct (truthy (env_get e "ZESTY_INSTANCE_API")) eqn:E; [done|].
  by apply (default_url_truthy "https://" _ ".api.zesty.io/v1").
Qed.
(** C14: the base URL is [options.instancesAPIURL] when truthy, else a
    non-empty [ZESTY_INSTANCE_API], else [https://<instanceZUID>.api.zesty.io/v1];
    the legacy URL is resolved the same way from [sitesServiceURL],
    [ZESTY_INSTANCE_LEGACY_API] and the sites-service default; both
    services carry the token unchanged. *)
Theorem Instance_new_urls e z t options :
  truthy z = true -> truthy t = true ->
  (options = JUndefined \/ exists p, options = JObject p) ->
  exists inst, Instance_new e z t options = Ok inst /\
    token (inst_service inst) = t /\ token (inst_legacy inst) = t /\
    baseAPI (inst_service inst) =
      (if truthy (get_prop options "instancesAPIURL") then get_prop options "instancesAPIURL" else
       match e !! "ZESTY_INSTANCE_API" with
       | Some v => if String.eqb v "" then JString ("https://" ++ to_string z ++ ".api.zesty.io/v1")
                   else JString v
       | None => JString ("https://" ++ to_string z ++ ".api.zesty.io/v1")
       end) /\
    baseAPI (inst_legacy inst) =
      (if truthy (get_prop options "sitesServiceURL") then get_prop options "sitesServiceURL" else
       match e !! "ZESTY_INSTANCE_LEGACY_API" with
       | Some v => if String.eqb v "" then JString ("https://svc.zesty.io/sites-service/" ++ to_string z)
                   else JString v
       | None => JString ("https://svc.zesty.io/sites-service/" ++ to_string z)
       end).
Proof.
  intros Hz Ht Ho. unfold Instance_new. rewrite Hz. cbn [negb].
  rewrite !get_prop_checked_obj by done. cbn [result_bind]. unfold Service_new.
  rewrite !js_or_truthy_right by (apply js_or_truthy_right; reflexivity).
  rewrite Ht. cbn [negb result_bind].
  eexists. split; [reflexivity|]. cbn [token baseAPI inst_service inst_legacy].
  split_and!; [done | done | |]; by rewrite url_precedence, get_prop_default.
Qed.

(** C15: the endpoint table of an instance is the spread of the tables of
    Models, Fields, Items, Settings and AuditLogs: a name reads from the
    last of them that defines it; the legacy table is Items' legacy one. *)
Theorem Instance_API_lookup e z t options inst :
  Instance_new e z t options = Ok inst ->
  (forall k, obj_lookup (inst_API inst) k =
     last_defining [models_API; fields_API; items_API; settings_API; auditLogs_API] k) /\
  (forall k, obj_lookup (inst_legacy_API inst) k = last_defining [items_legacy_API] k).
Proof.
  unfold Instance_new. destruct (negb (truthy z)); [discriminate|].
  intros H. repeat (apply result_bind_Ok_inv in H as [? [_ H]]).
  injection H as <-. cbn [inst_API inst_legacy_API]. unfold spread_all.
  split; intros k; rewrite spread_all_lookup_gen; by destruct (last_defining _ k).
Qed.

(** [MixinBuilder] applies the mixins in order, so a method is found in
    the last mixin that defines it, and in the superclass otherwise. *)
Lemma MixinBuilder_resolve (c : class) (ts : list obj) (n : string) :
  resolve (MixinBuilder_with c (map mixin ts)) n =
  match resolve (rev ts) n with Some v => Some v | None => resolve c n end.
Proof. rewrite MixinBuilder_with_mixins. apply resolve_app. Qed.

(** C16: on a non-empty string path, [formatPath] returns a string
    whose every code unit is in [a-z0-9-]. *)
Theorem formatPath_slug (s : string) :
  s <> "" -> exists r, formatPath (JString s) = Ok (JString r) /\ str_forall slug_char r = true.
Proof. intros Hs. rewrite formatPath_string by done. eexists. split; [done | apply format_slug]. Qed.

(** C17: [formatPath] is idempotent on the non-empty slugs it returns for
    string paths. *)
Theorem formatPath_idempotent (s r : string) :
  formatPath (JString s) = Ok (JString r) -> r <> "" -> formatPath (JString r) = Ok (JString r).
Proof.
  intros H Hr. apply formatPath_string_inv in H as [_ [= ->]].
  rewrite formatPath_string by done. by rewrite format_slug_fixed by apply format_slug.
Qed.

(** C18: the length of the slug is that of the trimmed path plus two per
    [&], each [&] becoming [and] and every other code unit one code unit. *)
Theorem formatPath_length (s r : string) :
  formatPath (JString s) = Ok (JString r) ->
  String.length r = String.length (trim s) + 2 * str_count "&" (trim s).
Proof.
  intros H. apply formatPath_string_inv in H as [_ [= ->]].
  unfold non_alnum_to_dash. rewrite str_map_length, amp_to_and_length, to_lower_count_amp.
  unfold to_lower. by rewrite str_map_length.
Qed.

(** C19: a non-empty path of whitespace only passes the [!path] check and
    yields the empty slug. *)
Theorem formatPath_blank (s : string) :
  s <> "" -> str_forall js_whitespace s = true -> formatPath (JString s) = Ok (JString "").
Proof. intros Hs Hw. rewrite formatPath_string by done. unfold trim. by rewrite trim_start_ws. Qed.

(** C20: a falsy path fails with the method's argument error.  A truthy
    path that is neither a string nor a value with a callable own [trim]
    has no [trim] method: [path.trim is not a function]. *)
Theorem formatPath_errors (p : jsval) :
  (truthy p = false ->
   formatPath p = Exc (ErrorObj "SDK:Instance:formatPath() missing required `path` argument")) /\
  (truthy p = true -> (forall s, p <> JString s) -> (forall f, get_prop p "trim" <> JFunction f) ->
   formatPath p = Exc (TypeErrorObj "path.trim is not a function")).
Proof.
  unfold formatPath. split; intros Hp; rewrite Hp; [done|]. intros Hs Hf. cbn [negb].
  assert (Hc : string_method "path" p "trim" [] trim = Exc (TypeErrorObj "path.trim is not a function")).
  { unfold string_method, call_method, get_prop_checked.
    destruct p; try (by destruct (Hs s)); try discriminate Hp; cbn [result_bind];
      destruct (get_prop _ "trim") eqn:E; try reflexivity; exfalso; by apply (Hf id). }
  by rewrite Hc.
Qed.

(** C21: the path is duck-typed.  For an object whose own [trim] is a
    function returning a string [t], the rest of the chain runs on [t]
    itself, which is not trimmed again; and an object whose [trim]
    returns an object with its own [toLowerCase] gets whatever that
    returns, run through the two [replace] calls only if it is a
    string. *)
Theorem formatPath_duck_typed (o : obj) (f : nat) :
  obj_get o "trim" = JFunction f ->
  (forall t, realm_call f [] = Ok (JString t) ->
   formatPath (JObject o) = Ok (JString (non_alnum_to_dash (amp_to_and (to_lower t))))) /\
  (forall o' g u, realm_call f [] = Ok (JObject o') -> obj_get o' "toLowerCase" = JFunction g ->
   realm_call g [] = Ok (JString u) ->
   formatPath (JObject o) = Ok (JString (non_alnum_to_dash (amp_to_and u)))).
Proof.
  intros Ht. unfold formatPath. cbn [truthy negb string_method].
  rewrite (call_method_object _ o "trim" [] f Ht). split.
  - intros t Hc. by rewrite Hc.
  - intros o' g u Hc Hl Hu. rewrite Hc. cbn [result_bind string_method].
    rewrite (call_method_object _ o' "toLowerCase" [] g Hl), Hu. done.
Qed.
End instance_theorems.

(** ** Witnesses *)

Section witnesses.
#[local] Existing Instance mock_realm.
#[local] Existing Instance demo_modules.

Lemma Instance_new_urls_witness :
  exists inst,
    Instance_new ∅ (JString "8-xyz") (JString "tok")
      (JObject [("sitesServiceURL", JString "http://localhost:3001")]) = Ok inst /\
    token (inst_service inst) = JString "tok" /\ token (inst_legacy inst) = JString "tok" /\
    baseAPI (inst_service inst) = JString "https://8-xyz.api.zesty.io/v1" /\
    baseAPI (inst_legacy inst) = JString "http://localhost:3001".
Proof.
  destruct (Instance_new_urls ∅ (JString "8-xyz") (JString "tok")
              (JObject [("sitesServiceURL", JString "http://localhost:3001")])
              eq_refl eq_refl (or_intror (ex_intro _ _ eq_refl)))
    as (inst & H1 & H2 & H3 & H4 & H5).
  exists inst. split_and!; [exact H1 | exact H2 | exact H3 | exact H4 | exact H5].
Defined.

Lemma Instance_API_lookup_witness :
  exists inst, Instance_new ∅ (JString "8-xyz") (JString "tok") JUndefined = Ok inst /\
    obj_lookup (inst_API inst) "fetchAll" = Some (JString "/env/audits") /\
    obj_lookup (inst_legacy_API inst) "publishItem"
      = Some (JString "/content/items/ITEM_ZUID/publish-schedule").
Proof.
  destruct (Instance_new ∅ (JString "8-xyz") (JString "tok") JUndefined) as [inst|err] eqn:E;
    [|vm_compute in E; discriminate].
  exists inst. split; [reflexivity|].
  destruct (Instance_API_lookup _ _ _ _ inst E) as [H1 H2]. rewrite H1, H2. split; reflexivity.
Defined.

Lemma formatPath_slug_witness :
  " Hello & World " <> "" /\
  formatPath (JString " Hello & World ") = Ok (JString "hello-and-world") /\
  str_forall slug_char "hello-and-world" = true.
Proof.
  assert (Hs : " Hello & World " <> "") by discriminate.
  destruct (formatPath_slug " Hello & World " Hs) as (r & Hr & Hslug).
  split_and!; [exact Hs | reflexivity | reflexivity].
Defined.

Lemma formatPath_idempotent_witness :
  formatPath (JString " Hello & World ") = Ok (JString "hello-and-world") /\
  formatPath (JString "hello-and-world") = Ok (JString "hello-and-world").
Proof.
  split; [reflexivity|].
  apply (formatPath_idempotent " Hello & World "); [reflexivity | discriminate].
Defined.

Lemma formatPath_length_witness :
  formatPath (JString " Hello & World ") = Ok (JString "hello-and-world") /\
  String.length "hello-and-world" = String.length (trim " Hello & World ") + 2 * str_count "&" (trim " Hello & World ").
Proof. split; [reflexivity | apply formatPath_length; reflexivity]. Defined.

Lemma formatPath_blank_witness : formatPath (JString "   ") = Ok (JString "").
Proof. apply formatPath_blank; [discriminate | reflexivity]. Defined.

Lemma formatPath_errors_witness :
  formatPath (JObject [("toString", JFunction 0)]) = Exc (TypeErrorObj "path.trim is not a function").
Proof.
  apply (proj2 (formatPath_errors (JObject [("toString", JFunction 0)]))); [reflexivity | discriminate |].
  intros f. vm_compute. discriminate.
Defined.

(** [{ trim: () => ({ toLowerCase: () => "AB" }) }] (functions 3 and 4
    of the mock realm): the result is ["AB"], which keeps its capitals. *)
Lemma formatPath_duck_typed_witness :
  formatPath (JObject [("trim", JFunction 3)]) = Ok (JString "AB").
Proof.
  exact (proj2 (formatPath_duck_typed [("trim", JFunction 3)] 3 eq_refl)
           [("toLowerCase", JFunction 4)] 4 "AB" eq_refl eq_refl eq_refl).
Defined.
End witnesses.
