(* ===== verification/Sdk.v ===== *)
(** * The SDK facade ([src/sdk.js])

    [new SDK(instanceZUID, token, options)] stores its arguments, builds an
    [Auth] service from [options.authURL], throws when the token is falsy,
    and otherwise calls the async method [init] without awaiting it.
    [init] stores the token; constructs [Account], [Instance] and [Media];
    binds the action functions; and returns the promise of
    [auth.verifyToken(token)], which throws the response when its
    [statusCode] is not 200.

    The code of Auth, Account, Media and the actions module is not under
    src/.  What the facade uses of it is the [SdkServices] class.
    [Instance] is the model of [Instance.v].

    The constructor is a function of the world.  It returns the SDK
    object, or the exception it throws, together with the world after
    [init]'s promise has settled.  Nobody holds that promise, so its
    rejection is an unhandled rejection. *)

From S2P Require Import Prelude JsValue Runtime Mock Service Instance.
From stdpp Require Import gmap.
Local Open Scope string_scope.
Local Open Scope js_scope.

(** What the facade uses of the modules outside src/.  An Account or
    Media constructor may throw.  [verifyToken] is an asynchronous call
    that may change the world (it sends a request).  [actions] is the
    exports object of the actions module: a function per name. *)
Class SdkServices := {
  auth_t : Type;
  account_t : Type;
  media_t : Type;
  Auth_new : jsval -> result js_error auth_t;
  Account_new : env -> jsval -> jsval -> jsval -> result js_error account_t;
  Media_new : env -> jsval -> jsval -> jsval -> result js_error media_t;
  verifyToken : auth_t -> jsval -> async jsval;
  actions : list (string * nat)
}.

(** [options = {}]: the default applies only to [undefined]. *)
Definition default_options (options : jsval) : jsval :=
  match options with JUndefined => JObject [] | o => o end.

(** [actions[funcName].bind] is [Function.prototype.bind] on a function. *)
Definition is_function (v : jsval) : bool :=
  match v with JFunction _ => true | _ => false end.

(** The dropped promise of [this.init(token)]: a rejection nobody
    handles. *)
Definition drop_promise {A} (p : promise A) (w : world) : world :=
  match p with Rejected err => raise_unhandled err w | _ => w end.

(** [res => { if (res.statusCode !== 200) throw res; else return res; }]:
    reading [statusCode] of [undefined] or [null] throws a [TypeError];
    strict inequality with the number 200. *)
Definition check_verified (res : jsval) : async jsval :=
  async_of_result (
    let? sc := get_prop_checked res "statusCode" in
    if bool_decide (sc = JNumber 200) then Ok res else Exc (Thrown res)).

Section sdk.
Context {R : Realm} {M : InstanceModules} {S : SdkServices}.

(** The fields of an SDK object.  A field [init] has not reached is
    absent ([None]): reading it gives [undefined]. *)
Record SDK := {
  sdk_instanceZUID : jsval;
  sdk_options : jsval;
  sdk_auth : auth_t;
  sdk_token : option jsval;
  sdk_account : option account_t;
  sdk_instance : option InstanceObj;
  sdk_media : option media_t;
  sdk_action : option obj
}.

Definition set_token (s : SDK) (t : jsval) : SDK :=
  {| sdk_instanceZUID := sdk_instanceZUID s; sdk_options := sdk_options s; sdk_auth := sdk_auth s;
     sdk_token := Some t; sdk_account := sdk_account s; sdk_instance := sdk_instance s;
     sdk_media := sdk_media s; sdk_action := sdk_action s |}.

Definition set_account (s : SDK) (a : account_t) : SDK :=
  {| sdk_instanceZUID := sdk_instanceZUID s; sdk_options := sdk_options s; sdk_auth := sdk_auth s;
     sdk_token := sdk_token s; sdk_account := Some a; sdk_instance := sdk_instance s;
     sdk_media := sdk_media s; sdk_action := sdk_action s |}.

Definition set_instance (s : SDK) (i : InstanceObj) : SDK :=
  {| sdk_instanceZUID := sdk_instanceZUID s; sdk_options := sdk_options s; sdk_auth := sdk_auth s;
     sdk_token := sdk_token s; sdk_account := sdk_account s; sdk_instance := Some i;
     sdk_media := sdk_media s; sdk_action := sdk_action s |}.

Definition set_media (s : SDK) (m : media_t) : SDK :=
  {| sdk_instanceZUID := sdk_instanceZUID s; sdk_options := sdk_options s; sdk_auth := sdk_auth s;
     sdk_token := sdk_token s; sdk_account := sdk_account s; sdk_instance := sdk_instance s;
     sdk_media := Some m; sdk_action := sdk_action s |}.

Definition set_action (s : SDK) (a : obj) : SDK :=
  {| sdk_instanceZUID := sdk_instanceZUID s; sdk_options := sdk_options s; sdk_auth := sdk_auth s;
     sdk_token := sdk_token s; sdk_account := sdk_account s; sdk_instance := sdk_instance s;
     sdk_media := sdk_media s; sdk_action := Some a |}.

(** The exports object of the actions module. *)
Definition actions_obj : obj :=
  fold_left (fun o kf => obj_set o kf.1 (JFunction kf.2)) actions [].

(** [this.action = {}; for (const funcName in actions) if
    (actions[funcName].bind) this.action[funcName] =
    actions[funcName].bind(this);].  The bound function is represented by
    the function it binds: the realm's functions do not observe [this]. *)
Definition bind_actions (acts : obj) : obj :=
  fold_left (fun acc k =>
    let v := obj_get acts k in
    if is_function v then obj_set acc k v else acc) (own_keys acts) [].

(** The synchronous part of [init]: it sets the fields in order and stops
    at the first constructor that throws. *)
Definition init_fields (e : env) (self : SDK) (token : jsval) : SDK * result js_error unit :=
  let self := set_token self token in
  match Account_new e (sdk_instanceZUID self) token (sdk_options self) with
  | Exc err => (self, Exc err)
  | Ok a =>
  let self := set_account self a in
  match Instance_new e (sdk_instanceZUID self) token (sdk_options self) with
  | Exc err => (self, Exc err)
  | Ok i =>
  let self := set_instance self i in
  match Media_new e (sdk_instanceZUID self) token (sdk_options self) with
  | Exc err => (self, Exc err)
  | Ok m => (set_action (set_media self m) (bind_actions actions_obj), Ok tt)
  end end end.

(** [async init(token)]: the object as the synchronous part leaves it, and
    the promise the method returns.  A throw before the first [await]
    rejects that promise. *)
Definition init (e : env) (self : SDK) (token : jsval) : SDK * async jsval :=
  let (self', r) := init_fields e self token in
  (self', match r with
          | Exc err => async_of_result (Exc err)
          | Ok _ => let! res := verifyToken (sdk_auth self') token in check_verified res
          end).

(** The object the constructor builds before [init]: [instanceZUID],
    [options] and [auth] set. *)
Definition sdk_fresh (instanceZUID options : jsval) (auth : auth_t) : SDK :=
  {| sdk_instanceZUID := instanceZUID; sdk_options := options; sdk_auth := auth;
     sdk_token := None; sdk_account := None; sdk_instance := None;
     sdk_media := None; sdk_action := None |}.

(** [new SDK(instanceZUID, token, options)]. *)
Definition SDK_new (e : env) (instanceZUID token options : jsval) (w : world)
    : result js_error SDK * world :=
  let options := default_options options in
  match get_prop_checked options "authURL" with
  | Exc err => (Exc err, w)
  | Ok authURL =>
  match Auth_new (JObject [("authURL", authURL)]) with
  | Exc err => (Exc err, w)
  | Ok auth =>
  let self := sdk_fresh instanceZUID options auth in
  if truthy token then
    let (self', p) := init e self token in
    let (pr, w') := p w in
    (Ok self', drop_promise pr w')
  else (Exc (ErrorObj "SDK:constructor() missing required `token` parameter"), w)
  end end.

(** The fields [init] sets form a prefix of token, account, instance,
    media and action. *)
Definition sdk_wf (s : SDK) : bool :=
  bool_decide (is_Some (sdk_account s) -> is_Some (sdk_token s)) &&
  bool_decide (is_Some (sdk_instance s) -> is_Some (sdk_account s)) &&
  bool_decide (is_Some (sdk_media s) -> is_Some (sdk_instance s)) &&
  bool_decide (is_Some (sdk_action s) -> is_Some (sdk_media s)).
End sdk.

(** ** Scenario data

    Services of the shape the modules have (their code is not under src/;
    the URLs and action names are illustrative): Auth, Account and Media
    are [Service]s, and [verifyToken] is a GET of [/verify] with the token
    as bearer, answered by [auth_transport]. *)
Definition demo_services : SdkServices := {|
  auth_t := jsval;
  account_t := Service;
  media_t := Service;
  Auth_new := fun o => Ok (js_or (get_prop o "authURL") (JString "https://auth.api.zesty.io"));
  Account_new := fun e _ t _ => Service_new e (JString "https://accounts.api.zesty.io/v1") t;
  Media_new := fun e _ t _ => Service_new e (JString "https://svc.zesty.io/media-manager-service") t;
  verifyToken := fun url t =>
    match Service_new ∅ url t with
    | Ok svc => @getRequest mock_realm auth_transport svc "/verify" ParamsDefault
    | Exc err => async_of_result (Exc err)
    end;
  actions := [("publishItems", 40); ("syncModels", 41)]
|}.

(** ** Lemmas *)

Lemma get_prop_checked_default (options : jsval) (k : string) :
  options <> JNull -> get_prop_checked (default_options options) k = Ok (get_prop options k).
Proof. destruct options; done. Qed.

Lemma check_verified_run (res : jsval) (w : world) :
  check_verified res w =
  (match get_prop_checked res "statusCode" with
   | Exc e => Rejected e
   | Ok sc => if bool_decide (sc = JNumber 200) then Fulfilled res else Rejected (Thrown res)
   end, w).
Proof.
  unfold check_verified, async_of_result. destruct (get_prop_checked res "statusCode"); [|done].
  cbn [result_bind]. by case_bool_decide.
Qed.

Section sdk_lemmas.
Context {R : Realm} {M : InstanceModules} {S : SdkServices}.

(** After the options and [Auth], a truthy token runs [init] on the fresh
    object and drops its promise. *)
Lemma SDK_new_init e z t options w auth :
  options <> JNull -> truthy t = true ->
  Auth_new (JObject [("authURL", get_prop options "authURL")]) = Ok auth ->
  SDK_new e z t options w =
    let (self', r) := init_fields e (sdk_fresh z (default_options options) auth) t in
    match r with
    | Exc err => (Ok self', raise_unhandled err w)
    | Ok _ => let (pr, w') := (let! res := verifyToken auth t in check_verified res) w in
              (Ok self', drop_promise pr w')
    end.
Proof.
  intros Ho Ht Ha. unfold SDK_new, init. rewrite get_prop_checked_default by done.
  cbn [result_bind]. rewrite Ha, Ht.
  destruct (init_fields _ _ _) as [self' [u|err]] eqn:E; [|done].
  enough (sdk_auth self' = auth) as -> by done.
  unfold init_fields in E. repeat case_match; simplify_eq; done.
Qed.

(** Each stage of [init] keeps the fields before it. *)
Lemma init_fields_wf e z options auth t :
  sdk_wf (init_fields e (sdk_fresh z options auth) t).1 = true /\
  sdk_token (init_fields e (sdk_fresh z options auth) t).1 = Some t /\
  sdk_instanceZUID (init_fields e (sdk_fresh z options auth) t).1 = z.
Proof.
  unfold init_fields. repeat case_match; cbn; split_and!; try done;
    unfold sdk_wf; cbn; repeat (rewrite bool_decide_eq_true_2 by (intros; eauto)); done.
Qed.

Lemma bind_actions_fold_lookup (acts acc : obj) (ks : list string) (k : string) :
  obj_lookup (fold_left (fun acc k =>
    let v := obj_get acts k in if is_function v then obj_set acc k v else acc) ks acc) k =
  if bool_decide (k ∈ ks) && is_function (obj_get acts k) then Some (obj_get acts k)
  else obj_lookup acc k.
Proof.
  revert acc; induction ks as [|k0 ks IH]; intros acc; cbn [fold_left].
  - by rewrite bool_decide_eq_false_2 by set_solver.
  - rewrite IH. destruct (decide (k0 = k)) as [->|Hne].
    + rewrite (bool_decide_eq_true_2 (k ∈ k :: ks)) by set_solver.
      destruct (is_function (obj_get acts k)); cbn [andb]; [|by destruct (bool_decide _)].
      rewrite obj_lookup_set_eq. by destruct (bool_decide _).
    + replace (bool_decide (k ∈ k0 :: ks)) with (bool_decide (k ∈ ks))
        by (apply bool_decide_ext; set_solver).
      destruct (bool_decide (k ∈ ks) && _); [done|].
      destruct (is_function (obj_get acts k0)); [by rewrite obj_lookup_set_ne|done].
Qed.

Lemma actions_fold_functions (l : list (string * nat)) (acc : obj) (k : string) (v : jsval) :
  (forall k v, obj_lookup acc k = Some v -> is_function v = true) ->
  obj_lookup (fold_left (fun o kf => obj_set o kf.1 (JFunction kf.2)) l acc) k = Some v ->
  is_function v = true.
Proof.
  revert acc; induction l as [|[k0 f] l IH]; intros acc Hacc; [apply Hacc|].
  apply IH. intros k' v'. destruct (decide (k0 = k')) as [->|Hne].
  - rewrite obj_lookup_set_eq. by intros [= <-].
  - rewrite obj_lookup_set_ne by done. apply Hacc.
Qed.
(** [init] with every constructor succeeding sets every field. *)
Lemma init_fields_complete e z options auth t acc inst med :
  Account_new e z t options = Ok acc -> Instance_new e z t options = Ok inst ->
  Media_new e z t options = Ok med ->
  init_fields e (sdk_fresh z options auth) t =
    ({| sdk_instanceZUID := z; sdk_options := options; sdk_auth := auth;
        sdk_token := Some t; sdk_account := Some acc; sdk_instance := Some inst;
        sdk_media := Some med; sdk_action := Some (bind_actions actions_obj) |}, Ok tt).
Proof.
  intros Hacc Hi Hm. unfold init_fields.
  cbn [sdk_instanceZUID sdk_options set_token set_account set_instance sdk_fresh].
  by rewrite Hacc, Hi, Hm.
Qed.

(** A throw in [init] leaves the object as far as [init] got and rejects
    the dropped promise; [verifyToken] is not called. *)
Lemma SDK_new_init_exc e z t options w auth self' err :
  options <> JNull -> truthy t = true ->
  Auth_new (JObject [("authURL", get_prop options "authURL")]) = Ok auth ->
  init_fields e (sdk_fresh z (default_options options) auth) t = (self', Exc err) ->
  SDK_new e z t options w = (Ok self', raise_unhandled err w).
Proof. intros Ho Ht Ha Hi. rewrite (SDK_new_init _ _ _ _ _ auth) by done. by rewrite Hi. Qed.
End sdk_lemmas.

(** ** The constructor *)

Section sdk_theorems.
Context {R : Realm} {M : InstanceModules} {S : SdkServices}.

(** C22: the constructor throws, and changes nothing, on a falsy token; a
    [null] [options] throws a [TypeError] on [options.authURL].  The
    token's error comes after [Auth] is constructed. *)
Theorem SDK_new_errors e z t options w :
  (truthy t = false -> exists err, SDK_new e z t options w = (Exc err, w)) /\
  (options = JNull -> exists msg, SDK_new e z t options w = (Exc (TypeErrorObj msg), w)) /\
  (forall auth, truthy t = false -> options <> JNull ->
   Auth_new (JObject [("authURL", get_prop options "authURL")]) = Ok auth ->
   SDK_new e z t options w = (Exc (ErrorObj "SDK:constructor() missing required `token` parameter"), w)).
Proof.
  unfold SDK_new. split_and!.
  - intros Ht. destruct (get_prop_checked _ _); [|eauto]. destruct (Auth_new _); [|eauto].
    rewrite Ht. eauto.
  - intros ->. cbn. eauto.
  - intros auth Ht Ho Ha. rewrite get_prop_checked_default by done. cbn [result_bind].
    by rewrite Ha, Ht.
Qed.

(** C23: when [Auth], [Account], [Instance] and [Media] are constructed,
    the constructor returns the object with every field set, and the
    world is the one [verifyToken] leaves, with an unhandled rejection
    when verification rejects (its error), fulfils with [undefined] or
    [null] (the [TypeError] of reading [statusCode]) or answers a status
    other than 200 (the response itself).  Construction succeeds in every
    case: a failed verification is not fatal. *)
Theorem SDK_new_complete e z t options w auth acc inst med :
  options <> JNull -> truthy t = true ->
  Auth_new (JObject [("authURL", get_prop options "authURL")]) = Ok auth ->
  Account_new e z t (default_options options) = Ok acc ->
  Instance_new e z t (default_options options) = Ok inst ->
  Media_new e z t (default_options options) = Ok med ->
  SDK_new e z t options w =
    (Ok {| sdk_instanceZUID := z; sdk_options := default_options options; sdk_auth := auth;
           sdk_token := Some t; sdk_account := Some acc; sdk_instance := Some inst;
           sdk_media := Some med; sdk_action := Some (bind_actions actions_obj) |},
     let (p, w') := verifyToken auth t w in
     match p with
     | Fulfilled res =>
         match get_prop_checked res "statusCode" with
         | Exc e => raise_unhandled e w'
         | Ok sc => if bool_decide (sc = JNumber 200) then w' else raise_unhandled (Thrown res) w'
         end
     | Rejected err => raise_unhandled err w'
     | Pending => w'
     end).
Proof.
  intros Ho Ht Ha Hacc Hi Hm. rewrite (SDK_new_init _ _ _ _ _ auth) by done.
  rewrite (init_fields_complete _ _ _ _ _ acc inst med) by done.
  unfold async_bind. destruct (verifyToken auth t w) as [[res|err|] w']; [|done|done].
  rewrite check_verified_run. destruct (get_prop_checked res "statusCode"); [|done].
  by case_bool_decide.
Qed.

(** C24: a constructor that throws inside [init] does not make
    construction fail either: the object is returned with the fields set
    before the throw, the error is an unhandled rejection, and the token
    is never verified (the world is otherwise unchanged). *)
Theorem SDK_new_init_throws e z t options w auth err :
  options <> JNull -> truthy t = true ->
  Auth_new (JObject [("authURL", get_prop options "authURL")]) = Ok auth ->
  (Account_new e z t (default_options options) = Exc err \/
   (exists acc, Account_new e z t (default_options options) = Ok acc /\
      Instance_new e z t (default_options options) = Exc err) \/
   (exists acc inst, Account_new e z t (default_options options) = Ok acc /\
      Instance_new e z t (default_options options) = Ok inst /\
      Media_new e z t (default_options options) = Exc err)) ->
  exists sdk, SDK_new e z t options w = (Ok sdk, raise_unhandled err w) /\
    sdk_token sdk = Some t /\ sdk_media sdk = None /\ sdk_action sdk = None.
Proof.
  intros Ho Ht Ha Hc. unfold init_fields.
  destruct Hc as [H|[(acc & H1 & H2)|(acc & inst & H1 & H2 & H3)]];
    (eexists; split; [eapply SDK_new_init_exc; [done|done|exact Ha|] |]);
    unfold init_fields; cbn [sdk_instanceZUID sdk_options set_token set_account set_instance sdk_fresh];
    repeat match goal with Hx : _ = _ |- _ => rewrite Hx; clear Hx end; done.
Qed.

(** C25: an SDK built without an [instanceZUID] (the Account service
    accepting it) is returned without an [instance], and the Instance
    constructor's argument error is an unhandled rejection. *)
Theorem SDK_new_missing_instanceZUID e z t options w auth acc :
  options <> JNull -> truthy t = true -> truthy z = false ->
  Auth_new (JObject [("authURL", get_prop options "authURL")]) = Ok auth ->
  Account_new e z t (default_options options) = Ok acc ->
  exists sdk, SDK_new e z t options w =
    (Ok sdk, raise_unhandled
       (ErrorObj "SDK:Instance:constructor() missing required `instanceZUID` argument on instantiation") w) /\
    sdk_account sdk = Some acc /\ sdk_instance sdk = None.
Proof.
  intros Ho Ht Hz Ha Hacc. eexists. split; [eapply SDK_new_init_exc; [done|done|exact Ha|]|].
  - unfold init_fields. cbn [sdk_instanceZUID sdk_options set_token set_account sdk_fresh].
    rewrite Hacc. unfold Instance_new. by rewrite Hz.
  - done.
Qed.

(** C26: every object the constructor returns has a truthy token and its
    fields set in the order of [init]: token, account, instance, media,
    action. *)
Theorem SDK_new_wf e z t options w sdk w' :
  SDK_new e z t options w = (Ok sdk, w') ->
  sdk_wf sdk = true /\ sdk_token sdk = Some t /\ truthy t = true /\ sdk_instanceZUID sdk = z.
Proof.
  unfold SDK_new, init. destruct (get_prop_checked _ _); [|done]. cbn [result_bind].
  destruct (Auth_new _) as [auth|]; [|done]. destruct (truthy t) eqn:Ht; [|done].
  pose proof (init_fields_wf e z (default_options options) auth t) as Hwf.
  destruct (init_fields _ _ _) as [self' r]. cbn in Hwf.
  repeat case_match; intros; simplify_eq; naive_solver.
Qed.

(** The action table binds exactly the functions of the actions
    module, under their names. *)
Lemma bind_actions_lookup (acts : obj) (k : string) :
  obj_lookup (bind_actions acts) k =
  match obj_lookup acts k with Some (JFunction f) => Some (JFunction f) | _ => None end.
Proof.
  unfold bind_actions. rewrite bind_actions_fold_lookup. unfold obj_get.
  destruct (obj_lookup acts k) as [v|] eqn:E.
  - rewrite bool_decide_eq_true_2; [by destruct v|].
    apply elem_of_own_keys, obj_lookup_keys. by eexists.
  - rewrite bool_decide_eq_false_2; [done|].
    rewrite elem_of_own_keys, <- obj_lookup_keys, E. by intros [? ?].
Qed.
End sdk_theorems.

(** ** Witnesses *)

Section witnesses.
#[local] Existing Instance mock_realm.
#[local] Existing Instance demo_modules.
#[local] Existing Instance demo_services.

Lemma SDK_new_complete_witness :
  exists sdk w', SDK_new ∅ (JString "8-xyz") (JString "good-token") JUndefined empty_world = (Ok sdk, w') /\
    w_unhandled w' = [] /\ map ro_uri (w_sent w') = ["https://auth.api.zesty.io/verify"].
Proof.
  destruct (Account_new ∅ (JString "8-xyz") (JString "good-token") (default_options JUndefined))
    as [acc|] eqn:Ea; [|vm_compute in Ea; discriminate].
  destruct (Instance_new ∅ (JString "8-xyz") (JString "good-token") (default_options JUndefined))
    as [inst|] eqn:Ei; [|vm_compute in Ei; discriminate].
  destruct (Media_new ∅ (JString "8-xyz") (JString "good-token") (default_options JUndefined))
    as [med|] eqn:Em; [|vm_compute in Em; discriminate].
  erewrite (@SDK_new_complete _ _ demo_services _ _ _ _ _ (JString "https://auth.api.zesty.io") acc inst med);
    [| done | reflexivity | reflexivity | exact Ea | exact Ei | exact Em].
  do 2 eexists. split; [reflexivity|]. vm_compute. split; reflexivity.
Defined.

Lemma SDK_new_init_throws_witness :
  exists sdk, SDK_new ∅ JNull (JString "good-token") JUndefined empty_world =
    (Ok sdk, raise_unhandled
       (ErrorObj "SDK:Instance:constructor() missing required `instanceZUID` argument on instantiation")
       empty_world) /\ sdk_media sdk = None.
Proof.
  destruct (@SDK_new_init_throws _ _ demo_services ∅ JNull (JString "good-token") JUndefined empty_world
              (JString "https://auth.api.zesty.io")
              (ErrorObj "SDK:Instance:constructor() missing required `instanceZUID` argument on instantiation")
              ltac:(done) ltac:(reflexivity) ltac:(reflexivity))
    as (sdk & E & _ & Hm & _).
  - right; left. destruct (Account_new ∅ JNull (JString "good-token") (default_options JUndefined))
      as [acc|] eqn:Ea; [|vm_compute in Ea; discriminate].
    exists acc. split; [reflexivity | vm_compute; reflexivity].
  - exists sdk. by split.
Defined.

Lemma SDK_new_missing_instanceZUID_witness :
  exists sdk, SDK_new ∅ (JString "") (JString "good-token") JUndefined empty_world =
    (Ok sdk, raise_unhandled
       (ErrorObj "SDK:Instance:constructor() missing required `instanceZUID` argument on instantiation")
       empty_world) /\ sdk_instance sdk = None.
Proof.
  destruct (Account_new ∅ (JString "") (JString "good-token") (default_options JUndefined))
    as [acc|] eqn:Ea; [|vm_compute in Ea; discriminate].
  destruct (@SDK_new_missing_instanceZUID _ _ demo_services ∅ (JString "") (JString "good-token") JUndefined empty_world
              (JString "https://auth.api.zesty.io") acc ltac:(done) ltac:(reflexivity)
              ltac:(reflexivity) ltac:(reflexivity) Ea) as (sdk & E & _ & Hi).
  exists sdk. by split.
Defined.

Lemma SDK_new_wf_witness :
  exists sdk w', SDK_new ∅ (JString "8-xyz") (JString "good-token") JUndefined empty_world = (Ok sdk, w') /\
    sdk_wf sdk = true /\ sdk_token sdk = Some (JString "good-token").
Proof.
  assert (Hok : match SDK_new ∅ (JString "8-xyz") (JString "good-token") JUndefined empty_world with
                | (Ok _, _) => true | _ => false end = true) by (vm_compute; reflexivity).
  destruct (SDK_new ∅ (JString "8-xyz") (JString "good-token") JUndefined empty_world)
    as [[sdk|err] w'] eqn:E; [|discriminate Hok].
  exists sdk, w'. destruct (SDK_new_wf _ _ _ _ _ _ _ E) as (Hwf & Ht & _). by split_and!.
Defined.
End witnesses.
