(* ===== verification/Tests.v ===== *)
(** * The tests of [src/services/service.test.js] as scenarios

    The repository's tests are ava tests.  [service.test.js] needs
    nothing beyond [Service] and the Models endpoint table, so its three
    tests are modelled here.  Each is a function from the process
    environment (after [dotenv]) and, for the test that sends a request,
    the network ([Transport]) to the result ava reports.  The settings and
    media tests need the [auth-context] helper and the domain modules,
    whose code is not under src/, and the live API; they are not
    modelled.

    ava's rules are [ava_outcome].  A test passes when its promise
    fulfils, at least one assertion ran, and every assertion passed; an
    assertion records a failure and does not throw.  A promise that never
    settles fails on ava's timeout. *)

From S2P Require Import Prelude JsValue Runtime Mock Service Instance.
From stdpp Require Import gmap.
Local Open Scope string_scope.
Local Open Scope js_scope.

Inductive test_result :=
| TestPassed
| TestFailed (reason : string).

Definition ava_outcome (asserts : list bool) (p : promise unit) : test_result :=
  match p with
  | Rejected _ => TestFailed "Rejected promise returned by test"
  | Pending => TestFailed "Timed out while running tests"
  | Fulfilled _ =>
      if existsb negb asserts then TestFailed "assertion failed"
      else match asserts with
           | [] => TestFailed "Test finished without running any assertions"
           | _ => TestPassed
           end
  end.

(** [t.is(actual, expected)] compares with [Object.is]; the tests compare
    strings and integers, on which it is structural equality. *)
Definition t_is (actual expected : jsval) : bool := bool_decide (actual = expected).

(** [err.message]: reading it from a thrown [undefined] or [null]
    throws. *)
Definition error_message (err : js_error) : result js_error jsval :=
  match err with
  | ErrorObj m | TypeErrorObj m => Ok (JString m)
  | Thrown v => get_prop_checked v "message"
  end.

(** [try { body } catch (err) { t.is(err.message, expected); }] in an
    async test: the assertions it runs and the promise of the test. *)
Definition catch_message {A} (r : result js_error A) (expected : string) : list bool * promise unit :=
  match r with
  | Ok _ => ([], Fulfilled tt)
  | Exc err =>
      match error_message err with
      | Ok msg => ([t_is msg (JString expected)], Fulfilled tt)
      | Exc e => ([], Rejected e)
      end
  end.

(** [test("requires API URL", ...)]: [new Service()]. *)
Definition test_requires_API_URL (e : env) : test_result :=
  let (asserts, p) := catch_message (Service_new e JUndefined JUndefined)
    "SDK:Service:constructor() missing required `baseAPI` argument on instantiation" in
  ava_outcome asserts p.

(** [test("requires token", ...)]:
    [new Service(process.env.ZESTY_INSTANCE_API)]. *)
Definition test_requires_token (e : env) : test_result :=
  let (asserts, p) := catch_message (Service_new e (env_get e "ZESTY_INSTANCE_API") JUndefined)
    "SDK:Service:constructor() missing required `token` argument on instantiation. All API requests have to be authenticated" in
  ava_outcome asserts p.

Section service_constructor_test.
Context {R : Realm} {M : InstanceModules} {T : Transport}.

(** [test("service constructor", ...)]: construct the service from the
    environment, [await instanceService.getRequest(
    instanceService.interpolate(Models.API.fetchModels))], and
    [t.is(res.statusCode, 200)].  [interpolate] without a replacement
    object returns its template, which the request's template literal
    turns into a string: the template is passed as that string. *)
Definition test_service_constructor (e : env) (w : world) : test_result * world :=
  match Service_new e (env_get e "ZESTY_INSTANCE_API") (env_get e "ZESTY_TOKEN") with
  | Exc err => (ava_outcome [] (Rejected err), w)
  | Ok svc =>
      match interpolate (to_string (get_prop models_API "fetchModels")) JUndefined with
      | Exc err => (ava_outcome [] (Rejected err), w)
      | Ok uri =>
          let (p, w') := getRequest svc uri ParamsDefault w in
          match p with
          | Fulfilled res =>
              match get_prop_checked res "statusCode" with
              | Ok sc => (ava_outcome [t_is sc (JNumber 200)] (Fulfilled tt), w')
              | Exc err => (ava_outcome [] (Rejected err), w')
              end
          | Rejected err => (ava_outcome [] (Rejected err), w')
          | Pending => (ava_outcome [] Pending, w')
          end
      end
  end.
End service_constructor_test.

(** ** Scenario data *)

(** The environment of a [.env] for instance [8-xyz]. *)
Definition test_env : env :=
  <["ZESTY_INSTANCE_API" := "https://8-xyz.api.zesty.io/v1"]> (<["ZESTY_TOKEN" := "tok"]> ∅).

(** ** Lemmas *)

Lemma Service_new_truthy e b t :
  truthy b = true -> truthy t = true ->
  Service_new e b t = Ok {| baseAPI := b; token := t; cookieName := js_or (env_get e "COOKIE") (JString "APP_SID") |}.
Proof. intros Hb Ht. unfold Service_new. by rewrite Hb, Ht. Qed.

Lemma interpolate_undefined `{Realm} (url : string) : interpolate url JUndefined = Ok url.
Proof. reflexivity. Qed.

(** The request [getRequest(uri)] hands to the network. *)
Lemma getRequest_default `{Realm} `{Transport} (svc : Service) (uri : string) (w : world) :
  exists opts, ro_uri opts = to_string (baseAPI svc) ++ uri /\ ro_method opts = JString "GET" /\
    ro_bearer opts = token svc /\
    getRequest svc uri ParamsDefault w =
      match transport_reply (w_sent w) opts with
      | NetError err => (Rejected (Thrown err), log_send opts w)
      | NetResponse status body => (Fulfilled (JObject (enrich status body)), log_send opts w)
      end.
Proof.
  assert (Hb : exists opts, build_opts svc uri (with_method [("successCode", JNumber 200)] "GET") = Ok opts)
    by (eexists; reflexivity).
  destruct Hb as [opts Hb]. exists opts. pose proof Hb as Ho.
  unfold build_opts in Ho. cbn in Ho. injection Ho as <-. split_and!; [done..|].
  reflexivity.
Qed.

(** ** Theorems *)

(** C27: "requires API URL" passes in every environment; "requires token"
    passes exactly when [ZESTY_INSTANCE_API] is set and non-empty: without
    it the constructor throws the [baseAPI] error, and the test's
    assertion on the token message fails. *)
Theorem service_test_outcomes (e : env) :
  test_requires_API_URL e = TestPassed /\
  (test_requires_token e = TestPassed <-> truthy (env_get e "ZESTY_INSTANCE_API") = true).
Proof.
  split; [reflexivity|]. unfold test_requires_token, Service_new.
  destruct (truthy (env_get e "ZESTY_INSTANCE_API")); cbn [negb]; vm_compute; split; congruence.
Qed.

Section service_constructor_theorems.
Context {R : Realm} {M : InstanceModules} {T : Transport}.

(** C28: with [ZESTY_INSTANCE_API] and [ZESTY_TOKEN] set, "service
    constructor" sends one GET of the base URL followed by
    [Models.API.fetchModels] with the token.  It passes exactly when the
    server answers and the envelope's [statusCode] is 200.  That is the
    body's own [statusCode] when it has one, so a 404 whose body says
    [statusCode: 200] passes; a transport error fails it. *)
Theorem service_constructor_test_outcome (e : env) (w : world) :
  truthy (env_get e "ZESTY_INSTANCE_API") = true -> truthy (env_get e "ZESTY_TOKEN") = true ->
  exists opts,
    ro_uri opts = to_string (env_get e "ZESTY_INSTANCE_API") ++ to_string (get_prop models_API "fetchModels") /\
    ro_method opts = JString "GET" /\ ro_bearer opts = env_get e "ZESTY_TOKEN" /\
    (test_service_constructor e w).1 =
      match transport_reply (w_sent w) opts with
      | NetError _ => TestFailed "Rejected promise returned by test"
      | NetResponse status body =>
          if bool_decide ((if decide ("statusCode" ∈ enum_keys body) then get_prop body "statusCode"
                           else JNumber status) = JNumber 200)
          then TestPassed else TestFailed "assertion failed"
      end.
Proof.
  intros Hb Ht. unfold test_service_constructor. rewrite Service_new_truthy by done.
  rewrite interpolate_undefined.
  destruct (getRequest_default {| baseAPI := env_get e "ZESTY_INSTANCE_API"; token := env_get e "ZESTY_TOKEN";
              cookieName := js_or (env_get e "COOKIE") (JString "APP_SID") |}
              (to_string (get_prop models_API "fetchModels")) w) as (opts & Hu & Hm & Hbr & ->).
  exists opts. split_and!; [exact Hu | exact Hm | exact Hbr |].
  destruct (transport_reply (w_sent w) opts) as [err|status body]; [done|].
  cbn [get_prop_checked get_prop]. unfold obj_get. rewrite lookup_enrich.
  unfold t_is. repeat decide_step; try congruence; cbn [default];
    destruct (bool_decide _); reflexivity.
Qed.
End service_constructor_theorems.

(** ** Witnesses *)

Section witnesses.
#[local] Existing Instance mock_realm.
#[local] Existing Instance demo_modules.
#[local] Existing Instance models_transport.

Lemma service_constructor_test_outcome_witness :
  (test_service_constructor test_env empty_world).1 = TestPassed.
Proof.
  destruct (service_constructor_test_outcome test_env empty_world eq_refl eq_refl)
    as (opts & Hu & _ & _ & ->).
  cbn [transport_reply models_transport mock_transport]. rewrite Hu. vm_compute. reflexivity.
Defined.
End witnesses.
