(* ===== verification/Contract.v ===== *)
(** * The dispatcher's contract, its refinement by [Service], and its clients

    Section 4.1 of the specification states what one call of the
    dispatcher promises, for a dispatcher with a base URL and a token.
    Either the call fails before anything reaches the network (the code
    allows this only for cookie authentication and for a descriptor with
    its own [hasOwnProperty]), or it hands exactly one request to the
    network, the one the descriptor describes ([request_matches]).  A
    transport error rejects the call with that error unchanged.  A completed response, whatever its
    status, fulfils the call with the envelope: the body's properties and
    [statusCode].  [call_outcome] states this promise, as the code keeps
    it (a throwing formatter leaves the call pending, see [Service]).

    The [Dispatcher] class is the interface between the dispatcher and
    its clients: a verb method with its default success code.
    [service_dispatcher] is the implementation by [Service].  The domain
    modules (spec section 4.2; their code is not under src/) are modelled
    by [domain_op]; a domain operation over any dispatcher that keeps the
    contract returns calls that keep it.

    The file also holds the runs of a service: any sequence of verb calls
    ([calls], a reflexive-transitive closure of one call), with the
    invariant that every request sent carries the service's token and
    base URL.  It also holds the round trip of cookie authentication: the
    server's [cookie.parse] reads the token back from the Cookie header. *)

From S2P Require Import Prelude JsValue JsString Cookie Runtime Mock Service.
From stdpp Require Import gmap.
Local Open Scope string_scope.
Local Open Scope js_scope.

(** ** The contract *)

(** The request spec 4.1 describes for a call of verb [m] on [path] with
    the descriptor [params], by a dispatcher whose base URL is [base] and
    token [tok]: the verb, the base URL followed by the path, JSON,
    bearer authentication with the token, a Cookie header exactly when
    [usesCookieAuth] is set, the token as X-Auth header exactly when
    [usesXAuthHeader] is set, and a present payload as form data or JSON
    body as [isFormData] says. *)
Definition request_matches `{Realm} (base tok : jsval) (m path : string) (params : obj) (o : ReqOpts) : Prop :=
  ro_method o = JString m /\ ro_uri o = to_string base ++ path /\ ro_json o = true /\
  ro_bearer o = tok /\
  (is_Some (obj_lookup (ro_headers o) "Cookie") <-> truthy (obj_get params "usesCookieAuth") = true) /\
  obj_lookup (ro_headers o) "X-Auth" =
    (if truthy (obj_get params "usesXAuthHeader") then Some tok else None) /\
  ro_body o =
    (if truthy (obj_get params "payload") && negb (truthy (obj_get params "isFormData"))
     then Some (obj_get params "payload") else None) /\
  ro_formData o =
    (if truthy (obj_get params "payload") && truthy (obj_get params "isFormData")
     then Some (obj_get params "payload") else None).

(** The outcome of one call of verb [m] on [path] with [params], in
    world [w].  Either the call fails before anything reaches the
    network, which the code allows only for cookie authentication (the
    cookie name is checked) and for a descriptor with its own
    [hasOwnProperty] (which the verb calls); or exactly one request, the
    one [request_matches] describes, is sent, and then the transport
    error rejects the call unchanged, or a response of any status fulfils
    it with the envelope, or the caller's formatter runs. *)
Definition call_outcome `{Realm} `{Transport} (base tok : jsval) (m path : string) (params : obj)
    (w : world) (r : promise jsval * world) : Prop :=
  match r with
  | (p, w') =>
      ((truthy (obj_get params "usesCookieAuth") = true \/ is_Some (obj_lookup params "hasOwnProperty")) /\
       exists e, p = Rejected e /\ w' = w) \/
      exists opts, request_matches base tok m path params opts /\
        w_sent w' = (w_sent w ++ [opts])%list /\ w_heap w' = w_heap w /\
        w_unhandled w' = w_unhandled w /\
        match transport_reply (w_sent w) opts with
        | NetError err => p = Rejected (Thrown err) /\ w_uncaught w' = w_uncaught w
        | NetResponse status body =>
            if truthy (obj_get params "responseFormatter") then
              (exists v, p = Fulfilled v /\ w_uncaught w' = w_uncaught w) \/
              (p = Pending /\ exists e, w_uncaught w' = (w_uncaught w ++ [e])%list)
            else
              w_uncaught w' = w_uncaught w /\
              exists v, p = Fulfilled (JObject v) /\
                forall k, obj_lookup v k =
                  if decide (k ∈ enum_keys body) then Some (get_prop body k)
                  else if decide (k = "statusCode") then Some (JNumber status) else None
        end
  end.

(** What a client of the dispatcher calls: [this.<verb>Request(uri,
    params)] for the verb's HTTP method and default success code. *)
Class Dispatcher := {
  dispatch : string -> Z -> string -> obj -> async jsval
}.

(** The contract of a dispatcher with base URL [base] and token [tok]. *)
Definition dispatcher_contract `{Realm} `{Transport} (base tok : jsval) (D : Dispatcher) : Prop :=
  forall m code uri params w, call_outcome base tok m uri params w (dispatch m code uri params w).

(** ** The implementation by [Service] *)

(** A verb method called with an object literal, which nobody else
    holds: [svc.getRequest(uri, { ... })] and the other verbs. *)
Definition verb_literal `{Realm} `{Transport} (svc : Service) (m : string) (code : Z)
    (uri : string) (params : obj) : async jsval :=
  fun w =>
    match default_success_code params code with
    | Ok o => request svc uri (with_method o m) w
    | Exc e => (Rejected e, w)
    end.

Definition service_dispatcher `{Realm} `{Transport} (svc : Service) : Dispatcher :=
  {| dispatch := verb_literal svc |}.

(** ** Domain modules *)

(** An operation of a domain module (spec 4.2).  It checks that each
    required identifier [(name, placeholder, value)] is truthy, throwing
    an argument error that names the first missing one and the
    operation.  It then substitutes the identifiers into the endpoint
    template with [interpolate], and calls the verb with the caller's
    parameters. *)
Definition domain_op `{Realm} (D : Dispatcher) (op m : string) (code : Z) (template : string)
    (ids : list (string * string * jsval)) (params : obj) : result js_error (async jsval) :=
  match find (fun x => negb (truthy x.2)) ids with
  | Some (name, _, _) =>
      Exc (ErrorObj ("SDK:" ++ op ++ "() missing required `" ++ name ++ "` argument"))
  | None =>
      let? uri := interpolate template (JObject (map (fun x => (x.1.2, x.2)) ids)) in
      Ok (dispatch m code uri params)
  end.

(** ** Runs of a service *)

(** One verb call of [svc], with an object literal or with a caller's
    object in the heap. *)
Inductive call_step `{Realm} `{Transport} (svc : Service) : world -> world -> Prop :=
| step_literal m code uri params w p w' :
    verb_literal svc m code uri params w = (p, w') -> call_step svc w w'
| step_verb m code uri pa w p w' :
    verb_request m code svc uri pa w = (p, w') -> call_step svc w w'.

Inductive calls `{Realm} `{Transport} (svc : Service) : world -> world -> Prop :=
| calls_refl w : calls svc w w
| calls_step w w1 w2 : calls svc w w1 -> call_step svc w1 w2 -> calls svc w w2.

(** A request [svc] sends: its bearer is the token, its URI starts with
    the base URL. *)
Definition sent_by `{Realm} (svc : Service) (o : ReqOpts) : Prop :=
  ro_bearer o = token svc /\ String.prefix (to_string (baseAPI svc)) (ro_uri o) = true.

(** ** Lemmas *)

Section service_lemmas.
Context {R : Realm} {T : Transport}.

Lemma default_success_code_get (params o : obj) (code : Z) (k : string) :
  default_success_code params code = Ok o -> k <> "successCode" -> obj_get o k = obj_get params k.
Proof.
  unfold default_success_code. intros H Hk. apply result_bind_Ok_inv in H as (has & _ & H).
  injection H as <-. destruct has; [done|]. by apply obj_get_set_ne.
Qed.

Lemma with_method_formatter (o : obj) (m : string) :
  obj_get (with_method o m) "responseFormatter" = obj_get o "responseFormatter".
Proof. rewrite get_with_method. by decide_step. Qed.

Lemma build_opts_sent_by (svc : Service) (uri : string) (params : obj) (opts : ReqOpts) :
  build_opts svc uri params = Ok opts -> sent_by svc opts.
Proof.
  unfold build_opts. intros H. apply result_bind_Ok_inv in H as (h & _ & H).
  injection H as <-. split; [done|]. cbn [ro_uri]. apply Prelude.prefix_app.
Qed.

(** The Cookie header [build_opts] writes when cookie authentication is
    asked for. *)
Lemma build_opts_cookie (svc : Service) (uri : string) (params : obj) (opts : ReqOpts) :
  build_opts svc uri params = Ok opts -> truthy (obj_get params "usesCookieAuth") = true ->
  obj_lookup (ro_headers opts) "Cookie" =
    Some (JString (to_string (cookieName svc) ++ "=" ++ encode_uri_component (to_string (token svc)))).
Proof.
  unfold build_opts. rewrite cookie_serialize_spec. intros H Hc. rewrite Hc in H.
  destruct (field_content _); [|discriminate]. cbn [result_bind] in H. injection H as <-. cbn.
  destruct (truthy (obj_get params "usesXAuthHeader")); cbn; reflexivity.
Qed.

(** The options [request] sends match the descriptor of a caller whose
    [params] agree with the object [request] receives on every property
    but [method] and [successCode]. *)
Lemma build_opts_matches (svc : Service) (uri m : string) (p params : obj) (opts : ReqOpts) :
  obj_get p "method" = JString m ->
  (forall k, k <> "method" -> k <> "successCode" -> obj_get p k = obj_get params k) ->
  build_opts svc uri p = Ok opts -> request_matches (baseAPI svc) (token svc) m uri params opts.
Proof.
  intros Hm Hk Hb. destruct (build_opts_fields svc uri p opts Hb) as (Hu & Hme & Hj & Hbr & Hc & Hx & Hbo & Hf).
  unfold request_matches. rewrite <- !Hk by discriminate. split_and!; try congruence.
  rewrite Hc. destruct (truthy _); split; [eauto | done | by intros [? ?] | discriminate].
Qed.

(** [request] keeps the contract of its service. *)
Lemma request_outcome (svc : Service) (uri m : string) (p params : obj) (w : world) :
  obj_get p "method" = JString m ->
  (forall k, k <> "method" -> k <> "successCode" -> obj_get p k = obj_get params k) ->
  call_outcome (baseAPI svc) (token svc) m uri params w (request svc uri p w).
Proof.
  intros Hm Hk. pose proof (build_opts_matches svc uri m p params) as Hmatch.
  unfold request, call_outcome. rewrite <- (Hk "responseFormatter"), <- (Hk "usesCookieAuth") by discriminate.
  destruct (build_opts svc uri p) as [opts|e] eqn:Hb;
    [|left; split; [left; by eapply build_opts_Exc_cookie | eauto]].
  specialize (Hmatch opts Hm Hk eq_refl).
  destruct (transport_reply (w_sent w) opts) as [err|status body] eqn:Hr; [right; exists opts; by rewrite Hr|].
  destruct (truthy (obj_get p "responseFormatter")) eqn:F; [destruct (js_call _ _)|];
    right; exists opts; rewrite Hr; rewrite ?F; cbn; split_and!; try done; [left|right|]; eauto.
  eexists. split; [done|]. apply lookup_enrich.
Qed.

(** A verb rejects before [request] only through an own [hasOwnProperty]. *)
Lemma default_success_code_Exc (params : obj) (code : Z) (e : js_error) :
  default_success_code params code = Exc e -> is_Some (obj_lookup params "hasOwnProperty").
Proof.
  unfold default_success_code, has_own_property.
  destruct (obj_lookup params "hasOwnProperty"); [eauto | discriminate].
Qed.

Lemma verb_literal_outcome (svc : Service) m code uri params w :
  call_outcome (baseAPI svc) (token svc) m uri params w (verb_literal svc m code uri params w).
Proof.
  unfold verb_literal. destruct (default_success_code params code) as [o|e] eqn:E.
  - apply request_outcome; [rewrite get_with_method; by decide_step|].
    intros k Hk1 Hk2. rewrite get_with_method, decide_False by done.
    by apply (default_success_code_get params o code).
  - left. split; [right; by eapply default_success_code_Exc | eauto].
Qed.

(** [request] does not read the heap. *)
Lemma request_heap_write (svc : Service) (uri : string) (params : obj) l o w :
  request svc uri params (heap_write l o w) =
  ((request svc uri params w).1, heap_write l o (request svc uri params w).2).
Proof.
  unfold request. destruct (build_opts svc uri params); [|done].
  cbn [w_sent heap_write]. destruct (transport_reply _ _); [done|].
  destruct (truthy _); [|done]. by destruct (js_call _ _).
Qed.

(** A verb called with the caller's object is the verb called with an
    object literal of the same properties, followed by the write of the
    default success code into the caller's object. *)
Lemma verb_request_ref_literal m code svc uri l w :
  verb_request m code svc uri (ParamsRef l) w =
  match default_success_code (heap_read w l) code with
  | Ok o => ((verb_literal svc m code uri (heap_read w l) w).1,
             heap_write l o (verb_literal svc m code uri (heap_read w l) w).2)
  | Exc e => (Rejected e, w)
  end.
Proof.
  unfold verb_request, verb_literal. destruct (default_success_code _ _); [|done].
  apply request_heap_write.
Qed.

Lemma request_sent (svc : Service) (uri : string) (params : obj) (w : world) :
  w_sent (request svc uri params w).2 = w_sent w \/
  exists o, w_sent (request svc uri params w).2 = (w_sent w ++ [o])%list /\ sent_by svc o.
Proof.
  unfold request. destruct (build_opts svc uri params) as [opts|e] eqn:B; [right|by left].
  exists opts. split; [|by eapply build_opts_sent_by].
  destruct (transport_reply _ _); [done|]. destruct (truthy _); [|done]. by destruct (js_call _ _).
Qed.

Lemma verb_literal_sent (svc : Service) m code uri params (w : world) :
  exists new, w_sent (verb_literal svc m code uri params w).2 = (w_sent w ++ new)%list /\
    Forall (sent_by svc) new.
Proof.
  unfold verb_literal. destruct (default_success_code params code) as [o|e].
  - destruct (request_sent svc uri (with_method o m) w) as [->|(o' & -> & Ho)];
      [exists []; by rewrite app_nil_r | exists [o']; by split; [|constructor]].
  - exists []. by rewrite app_nil_r.
Qed.

Lemma verb_request_default m code svc uri (w : world) :
  verb_request m code svc uri ParamsDefault w = verb_literal svc m code uri [] w.
Proof. reflexivity. Qed.

Lemma call_step_sent (svc : Service) (w w' : world) :
  call_step svc w w' ->
  exists new, w_sent w' = (w_sent w ++ new)%list /\ Forall (sent_by svc) new.
Proof.
  intros [m code uri params w0 p w1 H | m code uri [|l] w0 p w1 H].
  - pose proof (verb_literal_sent svc m code uri params w0) as Hs. by rewrite H in Hs.
  - rewrite verb_request_default in H.
    pose proof (verb_literal_sent svc m code uri [] w0) as Hs. by rewrite H in Hs.
  - rewrite verb_request_ref_literal in H. destruct (default_success_code _ _) as [o|e].
    + injection H as _ <-. apply verb_literal_sent.
    + injection H as _ <-. exists []. by rewrite app_nil_r.
Qed.
End service_lemmas.

(** ** Domain operations, against the contract *)

Lemma find_first_falsy {A} (pre post : list (A * jsval)) (x : A * jsval) :
  Forall (fun y => truthy y.2 = true) pre -> truthy x.2 = false ->
  find (fun y => negb (truthy y.2)) (pre ++ x :: post) = Some x.
Proof.
  induction 1 as [|y pre Hy _ IH]; intros Hx; cbn; [by rewrite Hx|]. rewrite Hy. by apply IH.
Qed.

Lemma find_all_truthy {A} (ids : list (A * jsval)) :
  Forall (fun y => truthy y.2 = true) ids -> find (fun y => negb (truthy y.2)) ids = None.
Proof. induction 1 as [|y ids Hy _ IH]; cbn; [done|]. by rewrite Hy. Qed.

Section domain_lemmas.
Context {R : Realm} {T : Transport} (D : Dispatcher).

(** What a domain operation returns is a call of the dispatcher. *)
Lemma domain_op_Ok op m code tmpl ids params c :
  domain_op D op m code tmpl ids params = Ok c ->
  exists uri, c = dispatch m code uri params.
Proof.
  unfold domain_op. destruct (find _ _) as [[[? ?] ?]|]; [discriminate|].
  intros H. apply result_bind_Ok_inv in H as (uri & _ & H). injection H as <-. eauto.
Qed.

(** A domain operation over a dispatcher that keeps the contract returns
    a call that keeps it, for the endpoint it computed. *)
Lemma domain_op_outcome base tok op m code tmpl ids params c :
  dispatcher_contract base tok D -> domain_op D op m code tmpl ids params = Ok c ->
  exists uri, forall w, call_outcome base tok m uri params w (c w).
Proof. intros HD (uri & ->)%domain_op_Ok. exists uri. intros w. apply HD. Qed.
End domain_lemmas.

(** ** Theorems *)

Section contract_theorems.
Context {R : Realm} {T : Transport}.

(** C29: [Service] implements the dispatcher's contract of spec 4.1 for
    its base URL and token: every verb call either fails before the
    network (only possible with cookie authentication or an own
    [hasOwnProperty] in the descriptor), or sends exactly one request,
    the one the descriptor describes, and then rejects with the transport
    error unchanged, or fulfils with the envelope (a response of any
    status), or runs the caller's formatter; the heap and the unhandled
    rejections are untouched. *)
Theorem service_refines_contract (svc : Service) :
  dispatcher_contract (baseAPI svc) (token svc) (service_dispatcher svc).
Proof. intros m code uri params w. apply verb_literal_outcome. Qed.

(** C33: in every run of a service (any sequence of verb calls, with
    object literals or the caller's objects), the requests added to the
    network log all carry the service's token as bearer credential and a
    URI that starts with its base URL. *)
Theorem calls_sent_by (svc : Service) (w w' : world) :
  calls svc w w' ->
  exists new, w_sent w' = (w_sent w ++ new)%list /\ Forall (sent_by svc) new.
Proof.
  induction 1 as [w|w w1 w2 _ IH Hs]; [exists []; by rewrite app_nil_r|].
  destruct IH as (n1 & E1 & F1). destruct (call_step_sent _ _ _ Hs) as (n2 & E2 & F2).
  exists (n1 ++ n2)%list. rewrite E2, E1, app_assoc. split; [done|]. by apply Forall_app.
Qed.

(** C34: with cookie authentication, the server's [cookie.parse] reads
    the token back from the Cookie header under the cookie name, when
    the name has no [;] nor [=] and no surrounding whitespace. *)
Theorem cookie_header_roundtrip (svc : Service) (uri : string) (params : obj) (opts : ReqOpts) :
  build_opts svc uri params = Ok opts -> truthy (obj_get params "usesCookieAuth") = true ->
  str_has ";" (to_string (cookieName svc)) = false -> str_has "=" (to_string (cookieName svc)) = false ->
  trim (to_string (cookieName svc)) = to_string (cookieName svc) ->
  exists h, obj_lookup (ro_headers opts) "Cookie" = Some (JString h) /\
    cookie_parse h = [(to_string (cookieName svc), JString (to_string (token svc)))].
Proof.
  intros Hb Hc Hs He Ht. eexists. split; [by apply (build_opts_cookie svc uri params)|]. by apply cookie_parse_pair.
Qed.

End contract_theorems.

(** ** Witnesses *)

Section witnesses.
#[local] Existing Instance mock_realm.
#[local] Existing Instance models_transport.

Lemma calls_sent_by_witness :
  exists w', calls demo_service empty_world w' /\ length (w_sent w') = 2 /\
    Forall (sent_by demo_service) (w_sent w').
Proof.
  set (w1 := (verb_literal demo_service "GET" 200 "/content/models" [] empty_world).2).
  set (w2 := (verb_literal demo_service "POST" 201 "/content/models"
                [("payload", JObject [("name", JString "m")])] w1).2).
  assert (Hc : calls demo_service empty_world w2).
  { eapply calls_step; [eapply calls_step; [apply calls_refl|]|];
      eapply step_literal; apply surjective_pairing. }
  destruct (calls_sent_by _ _ _ Hc) as (new & E & F).
  exists w2. split_and!; [exact Hc | vm_compute; reflexivity |]. rewrite E. exact F.
Defined.

Lemma cookie_header_roundtrip_witness :
  exists opts h, build_opts demo_service "/content/models" auth_params = Ok opts /\
    obj_lookup (ro_headers opts) "Cookie" = Some (JString h) /\
    cookie_parse h = [("APP_SID", JString "tok")].
Proof.
  destruct (build_opts demo_service "/content/models" auth_params) as [opts|e] eqn:B;
    [|vm_compute in B; discriminate].
  destruct (cookie_header_roundtrip demo_service "/content/models" auth_params opts B
              eq_refl eq_refl eq_refl eq_refl) as (h & H1 & H2).
  exists opts, h. by split_and!.
Defined.

End witnesses.
